(** * Climate Credit Risk Engine: the scoring pipeline of [lib/climateEngine]
      and the report assembly of [runClimateAssessment], embedded over
      IEEE-754 binary64 numbers, the representation of a JavaScript
      [number]. *)

From Stdlib Require Import Floats ZArith List String Ascii Bool Lia.
From Stdlib Require Import Uint63 DecimalString DecimalN.
Import ListNotations.

Set Warnings "-inexact-float".

Local Open Scope string_scope.
Local Open Scope float_scope.

(** ** JavaScript numbers

    A [number] is a primitive [float]; [+], [*], [/], [<] are the
    primitive binary64 operations.  The built-ins the engine calls
    ([Math.round], [Math.min], [Math.max], [toFixed], [parseFloat]) are
    written out below from their ECMAScript definitions, on the exact
    value [m * 2^e] that [Prim2SF] exposes. *)

Module JS.

(** Integers of magnitude at most 2^53 convert exactly. *)
Definition of_Z (z : Z) : float :=
  match z with
  | Z0 => 0
  | Zpos _ => of_uint63 (Uint63.of_Z z)
  | Zneg p => - of_uint63 (Uint63.of_Z (Zpos p))
  end.

(** [a > b] is [b < a]; both are false when an operand is NaN. *)
Definition gtb (a b : float) : bool := b <? a.

(** [Math.min] and [Math.max]: NaN if an operand is NaN, and -0 is
    below +0. *)
Definition Math_min (a b : float) : float :=
  if is_nan a || is_nan b then PrimFloat.nan
  else if a <? b then a
  else if b <? a then b
  else if get_sign a then a else b.

Definition Math_max (a b : float) : float :=
  if is_nan a || is_nan b then PrimFloat.nan
  else if a <? b then b
  else if b <? a then a
  else if get_sign a then b else a.

(** [Math.round x]: the integer closest to [x], ties towards +infinity,
    that is floor(x + 1/2) on the exact value; integral values, zeros,
    infinities and NaN are returned as they are, and a result of zero
    keeps the sign of [x]. *)
Definition Math_round (x : float) : float :=
  match Prim2SF x with
  | S754_finite s m e =>
      if (0 <=? e)%Z then x
      else
        let d := (2 ^ (- e))%Z in
        let num := if s then Zneg m else Zpos m in
        let n := ((2 * num + d) / (2 * d))%Z in
        if (n =? 0)%Z
        then (if s then PrimFloat.neg_zero else PrimFloat.zero)
        else of_Z n
  | _ => x
  end.

(** *** Decimal strings *)

Definition digits (n : Z) : string :=
  NilZero.string_of_uint (N.to_uint (Z.to_N n)).

Fixpoint zeros (k : nat) : string :=
  match k with
  | O => ""
  | S k' => String "0" (zeros k')
  end.

Fixpoint take (k : nat) (s : string) : string :=
  match k, s with
  | S k', String c s' => String c (take k' s')
  | _, _ => ""
  end.

Fixpoint drop (k : nat) (s : string) : string :=
  match k, s with
  | S k', String _ s' => drop k' s'
  | _, _ => s
  end.

(** The digits of [n / 10^f] with exactly [f] digits after the point. *)
Definition fixedDigits (n : Z) (f : nat) : string :=
  let m := digits n in
  let m := zeros (S f - String.length m) ++ m in
  let k := String.length m in
  match f with
  | O => m
  | _ => take (k - f) m ++ "." ++ drop (k - f) m
  end.

(** Does the integer [v] convert to the double [x]? *)
Definition rounds_to (v : Z) (x : spec_float) : bool :=
  match binary_normalize prec emax v 0 false, x with
  | S754_finite s1 m1 e1, S754_finite s2 m2 e2 =>
      Bool.eqb s1 s2 && Pos.eqb m1 m2 && Z.eqb e1 e2
  | _, _ => false
  end.

(** [Number::toString] for an integer value [X >= 10^21] of the double
    [x]: the shortest digit string [s] (of [k] digits) and exponent [n]
    with [s * 10^(n-k)] converting to [x], the closest to [X] among
    those, printed in exponent notation. *)
Definition expCandidates (X : Z) (x : spec_float) (nd : Z) (k : Z)
  : list (Z * Z) :=
  flat_map (fun n =>
    let p := (10 ^ (n - k))%Z in
    flat_map (fun s =>
      if (10 ^ (k - 1) <=? s)%Z && (s <? 10 ^ k)%Z && rounds_to (s * p) x
      then [(n, s)] else [])
      [(X / p)%Z; (X / p + 1)%Z])
    [nd; (nd + 1)%Z].

Definition closest (X k : Z) (c : list (Z * Z)) : option (Z * Z) :=
  fold_left (fun best ns =>
    let dist := fun '(n, s) => Z.abs (s * 10 ^ (n - k) - X) in
    match best with
    | None => Some ns
    | Some b => if (dist ns <? dist b)%Z then Some ns else Some b
    end) c None.

Fixpoint shortest (fuel : nat) (X : Z) (x : spec_float) (nd k : Z)
  : option (Z * Z * Z) :=
  match fuel with
  | O => None
  | S fuel' =>
      match closest X k (expCandidates X x nd k) with
      | Some (n, s) => Some (n, k, s)
      | None => shortest fuel' X x nd (k + 1)
      end
  end.

Definition toStringExp (X : Z) (x : spec_float) : string :=
  let nd := Z.of_nat (String.length (digits X)) in
  match shortest 21 X x nd 1 with
  | Some (n, k, s) =>
      let d := digits s in
      (if (k =? 1)%Z then d else take 1 d ++ "." ++ drop 1 d)
        ++ "e+" ++ digits (n - 1)
  | None => digits X
  end.

(** [x.toFixed(f)]: the integer [n] with [n / 10^f] closest to the exact
    value of [|x|], the larger one on a tie; exponent notation from
    10^21 on. *)
Definition toFixed (x : float) (f : nat) : string :=
  match Prim2SF x with
  | S754_nan => "NaN"
  | S754_infinity s => if s then "-Infinity" else "Infinity"
  | S754_zero _ => fixedDigits 0 f
  | S754_finite s m e =>
      let sign := if s then "-" else "" in
      if (0 <=? e)%Z then
        let X := (Zpos m * 2 ^ e)%Z in
        if (10 ^ 21 <=? X)%Z then sign ++ toStringExp X (S754_finite false m e)
        else sign ++ fixedDigits (X * 10 ^ Z.of_nat f) f
      else
        let d := (2 ^ (- e))%Z in
        let n := ((2 * Zpos m * 10 ^ Z.of_nat f + d) / (2 * d))%Z in
        sign ++ fixedDigits n f
  end.

(** *** [parseFloat] *)

Definition is_digit (c : ascii) : bool :=
  let n := nat_of_ascii c in (48 <=? n)%nat && (n <=? 57)%nat.

Definition is_space (c : ascii) : bool :=
  let n := nat_of_ascii c in
  (n =? 32)%nat || ((9 <=? n)%nat && (n <=? 13)%nat).

Fixpoint trimStart (s : string) : string :=
  match s with
  | String c s' => if is_space c then trimStart s' else s
  | EmptyString => s
  end.

(** Leading decimal digits of [s]: their value continuing from [acc],
    how many there are, and the rest of the string. *)
Fixpoint readDigits (s : string) (acc : Z) (cnt : nat) : Z * nat * string :=
  match s with
  | String c s' =>
      if is_digit c
      then readDigits s' (10 * acc + Z.of_nat (nat_of_ascii c - 48)) (S cnt)
      else (acc, cnt, s)
  | EmptyString => (acc, cnt, s)
  end.

Definition readSign (s : string) : bool * string :=
  match s with
  | String "-" s' => (true, s')
  | String "+" s' => (false, s')
  | _ => (false, s)
  end.

(** An exponent part [e], [e+] or [e-] followed by at least one digit;
    0 when there is none. *)
Definition readExponent (s : string) : Z :=
  match s with
  | String c s' =>
      if Ascii.eqb c "e" || Ascii.eqb c "E" then
        let '(neg, s'') := readSign s' in
        let '(v, cnt, _) := readDigits s'' 0 0 in
        match cnt with
        | O => 0%Z
        | _ => if neg then (- v)%Z else v
        end
      else 0%Z
  | EmptyString => 0%Z
  end.

(** The double nearest to [n * 10^sc], [n > 0]. *)
Definition decimalToSF (neg : bool) (n : positive) (sc : Z) : spec_float :=
  let r :=
    if (0 <=? sc)%Z then binary_normalize prec emax (Zpos n * 10 ^ sc) 0 false
    else SFdiv prec emax (S754_finite false n 0)
                         (S754_finite false (Z.to_pos (10 ^ (- sc))) 0) in
  if neg then SFopp r else r.

Definition startsWith (p s : string) : bool :=
  String.eqb (take (String.length p) s) p.

(** [parseFloat s]: the longest prefix of [s], leading (ASCII) white
    space apart, that is a decimal literal, converted to the nearest
    double; NaN if there is none. *)
Definition parseFloat (s : string) : float :=
  let '(neg, s1) := readSign (trimStart s) in
  if startsWith "Infinity" s1
  then (if neg then PrimFloat.neg_infinity else PrimFloat.infinity)
  else
    let '(ip, icnt, s2) := readDigits s1 0 0 in
    let '(v, fcnt, s3) :=
      match s2 with
      | String "." s2' =>
          let '(v, fcnt, s3) := readDigits s2' ip 0 in
          match icnt, fcnt with
          | O, O => (ip, O, s2)
          | _, _ => (v, fcnt, s3)
          end
      | _ => (ip, O, s2)
      end in
    match icnt, fcnt with
    | O, O => PrimFloat.nan
    | _, _ =>
        match v with
        | Zpos n =>
            SF2Prim (decimalToSF neg n (readExponent s3 - Z.of_nat fcnt))
        | _ => if neg then PrimFloat.neg_zero else PrimFloat.zero
        end
    end.

End JS.

Import JS.

(** ** Data model ([types/climate.ts]) *)

Inductive RiskClassification := Low | Moderate | High | Severe.

Record ClimateFactorScore := {
  factor : string;
  score : float;
  weight : float;
  weighted_score : float;
  description : string;
  data_source : string
}.

Inductive AdjustmentType :=
  interest_rate | insurance | risk_warning | loan_cap | enhanced_due_diligence.

Inductive Severity := info | warning | critical.

(** The field [description] of the source is [adj_description] here, the
    name being taken by [ClimateFactorScore]. *)
Record LendingAdjustment := {
  type : AdjustmentType;
  title : string;
  adj_description : string;
  value : option string;
  severity : Severity
}.

Record ProjectionDataPoint := {
  year : Z;
  flood_risk : float;
  heat_stress : float;
  sea_level_rise : float;
  water_scarcity : float;
  composite_risk : float
}.

Record PropertyAssessmentInput := {
  in_latitude : float;
  in_longitude : float;
  in_property_type : string;
  loan_amount : option float;
  loan_tenure : option float
}.

Record RegionProfile := {
  name : string;
  region : string;
  flood_base : float;
  sea_level_base : float;
  heat_base : float;
  water_scarcity_base : float
}.

Record ClimateRiskReport := {
  latitude : float;
  longitude : float;
  property_type : string;
  location_name : string;
  report_region : string;
  climate_risk_score : float;
  risk_classification : RiskClassification;
  confidence_level : float;
  factors : list ClimateFactorScore;
  projections : list ProjectionDataPoint;
  lending_adjustments : list LendingAdjustment;
  assessment_date : string;
  model_version : string;
  data_vintage : string
}.

(** ** The environment: [Math.random] and the clock

    [random w k] is what the [k]-th call of [Math.random()] returns;
    [drawn] counts the calls made so far. *)

Record World := {
  random : nat -> float;
  drawn : nat;
  fullYear : Z;
  isoString : string
}.

Definition M (A : Type) : Type := World -> A * World.

Definition ret {A} (a : A) : M A := fun w => (a, w).

Definition bind {A B} (m : M A) (k : A -> M B) : M B :=
  fun w => let '(a, w') := m w in k a w'.

Notation "x <- m ;; k" := (bind m (fun x => k))
  (at level 61, m at next level, right associativity).

Definition Math_random : M float :=
  fun w => (random w (drawn w),
            {| random := random w; drawn := S (drawn w);
               fullYear := fullYear w; isoString := isoString w |}).

Definition getFullYear : M Z := fun w => (fullYear w, w).

Definition toISOString : M string := fun w => (isoString w, w).

(** ** Regional climate zone mapping *)

Definition getRegionProfile (lat lng : float) : RegionProfile :=
  if (79 <=? lng) && (lng <=? 80.5) && (8 <=? lat) && (lat <=? 13) then
    {| name := "Chennai Metropolitan Region"; region := "Tamil Nadu Coast";
       flood_base := 72; sea_level_base := 68; heat_base := 75;
       water_scarcity_base := 62 |}
  else if (72 <=? lng) && (lng <=? 73.5) && (18 <=? lat) && (lat <=? 19.5) then
    {| name := "Mumbai Metropolitan Area"; region := "Maharashtra Coast";
       flood_base := 78; sea_level_base := 74; heat_base := 65;
       water_scarcity_base := 45 |}
  else if (88 <=? lng) && (lng <=? 89) && (22 <=? lat) && (lat <=? 23) then
    {| name := "Kolkata Urban Agglomeration"; region := "West Bengal Delta";
       flood_base := 85; sea_level_base := 80; heat_base := 70;
       water_scarcity_base := 30 |}
  else if (76 <=? lng) && (lng <=? 77.5) && (8 <=? lat) && (lat <=? 9) then
    {| name := "Thiruvananthapuram District"; region := "Kerala Coast";
       flood_base := 75; sea_level_base := 65; heat_base := 55;
       water_scarcity_base := 20 |}
  else if (76 <=? lng) && (lng <=? 88) && (24 <=? lat) && (lat <=? 30) then
    {| name := "Indo-Gangetic Plain"; region := "Northern India";
       flood_base := 60; sea_level_base := 10; heat_base := 85;
       water_scarcity_base := 70 |}
  else if (69 <=? lng) && (lng <=? 77) && (24 <=? lat) && (lat <=? 30) then
    {| name := "Rajasthan Arid Zone"; region := "Northwestern India";
       flood_base := 20; sea_level_base := 5; heat_base := 95;
       water_scarcity_base := 90 |}
  else if (74 <=? lng) && (lng <=? 80) && (14 <=? lat) && (lat <=? 22) then
    {| name := "Deccan Plateau Region"; region := "Central India";
       flood_base := 40; sea_level_base := 8; heat_base := 78;
       water_scarcity_base := 65 |}
  else if (89 <=? lng) && (23 <=? lat) && (lat <=? 30) then
    {| name := "Northeast India"; region := "Brahmaputra Basin";
       flood_base := 88; sea_level_base := 15; heat_base := 55;
       water_scarcity_base := 15 |}
  else if (68 <=? lng) && (lng <=? 75) && (20 <=? lat) && (lat <=? 24) then
    {| name := "Gujarat Coastal Zone"; region := "Western India";
       flood_base := 55; sea_level_base := 58; heat_base := 80;
       water_scarcity_base := 72 |}
  else
    {| name := "Location (" ++ toFixed lat 2 ++ "°N, "
                 ++ toFixed lng 2 ++ "°E)";
       region := "Interior India";
       flood_base := 38; sea_level_base := 12; heat_base := 68;
       water_scarcity_base := 55 |}.

(** ** Property type modifiers *)

Record PropertyModifier := {
  flood : float;
  heat : float;
  sea : float;
  water : float
}.

Definition PROPERTY_MODIFIERS : list (string * PropertyModifier) :=
  [ ("residential",  {| flood := 0;  heat := 5;  sea := 0; water := 0  |});
    ("commercial",   {| flood := -5; heat := 8;  sea := 5; water := 5  |});
    ("industrial",   {| flood := 10; heat := 10; sea := 8; water := 15 |});
    ("agricultural", {| flood := 15; heat := 15; sea := 5; water := 20 |});
    ("mixed_use",    {| flood := 5;  heat := 8;  sea := 5; water := 8  |}) ].

(** [PROPERTY_MODIFIERS] is an object literal, so a property read that
    finds no own key goes on to [Object.prototype], whose members are
    functions, and the object itself for [__proto__]. *)
Definition Object_prototype_keys : list string :=
  [ "constructor"; "__defineGetter__"; "__defineSetter__"; "hasOwnProperty";
    "__lookupGetter__"; "__lookupSetter__"; "isPrototypeOf";
    "propertyIsEnumerable"; "toString"; "valueOf"; "__proto__";
    "toLocaleString" ].

(** What a read of [PROPERTY_MODIFIERS[key]] yields. *)
Inductive Lookup :=
  | Own (m : PropertyModifier)
  | Inherited
  | Undefined.

Fixpoint assoc {A} (key : string) (l : list (string * A)) : option A :=
  match l with
  | [] => None
  | (k, v) :: l' => if String.eqb key k then Some v else assoc key l'
  end.

Definition get (key : string) : Lookup :=
  match assoc key PROPERTY_MODIFIERS with
  | Some m => Own m
  | None =>
      if existsb (String.eqb key) Object_prototype_keys then Inherited
      else Undefined
  end.

(** [a || b]: [a] unless it is falsy; of the three kinds of value only
    [undefined] is. *)
Definition or_else (a b : Lookup) : Lookup :=
  match a with
  | Undefined => b
  | _ => a
  end.

(** [mod.flood] and the like: [None] is [undefined], which is what a
    function or [Object.prototype] answers. *)
Definition field (sel : PropertyModifier -> float) (v : Lookup)
  : option float :=
  match v with
  | Own m => Some (sel m)
  | _ => None
  end.

(** The conversion [+] applies to an operand that is not a number. *)
Definition ToNumber (v : option float) : float :=
  match v with
  | Some x => x
  | None => PrimFloat.nan
  end.

(** ** Risk classification *)

Definition classifyRisk (score : float) : RiskClassification :=
  if score <? 25 then Low
  else if score <? 50 then Moderate
  else if score <? 75 then High
  else Severe.

(** ** Core scoring engine *)

Definition noise : M float :=
  u <- Math_random ;; ret ((u - 0.5) * 12).

Definition clamp (v : float) : float :=
  Math_max 0 (Math_min 100 (Math_round v)).

Definition round1 (x : float) : float := parseFloat (toFixed x 1).

Record Weights := {
  w_flood : float;
  w_sea : float;
  w_heat : float;
  w_water : float
}.

Definition weights : Weights :=
  {| w_flood := 0.35; w_sea := 0.25; w_heat := 0.25; w_water := 0.15 |}.

Definition calculateFactorScores (lat lng : float) (propertyType : string)
  : M (list ClimateFactorScore) :=
  let profile := getRegionProfile lat lng in
  let mod' := or_else (get propertyType) (get "residential") in
  n1 <- noise ;;
  let floodScore :=
    clamp (flood_base profile + ToNumber (field flood mod') + n1) in
  n2 <- noise ;;
  let seaScore :=
    clamp (sea_level_base profile + ToNumber (field sea mod') + n2) in
  n3 <- noise ;;
  let heatScore :=
    clamp (heat_base profile + ToNumber (field heat mod') + n3) in
  n4 <- noise ;;
  let waterScore :=
    clamp (water_scarcity_base profile + ToNumber (field water mod') + n4) in
  ret
    [ {| factor := "Flood Probability";
         score := floodScore;
         weight := w_flood weights;
         weighted_score := round1 (floodScore * w_flood weights);
         description :=
           (if gtb floodScore 60 then "High"
            else if gtb floodScore 35 then "Moderate" else "Low")
           ++ " annual flood inundation probability. Based on IMD rainfall anomaly data and NATMO flood hazard maps.";
         data_source := "IMD Gridded Rainfall + NATMO Flood Hazard Atlas" |};
      {| factor := "Sea-Level Rise Exposure";
         score := seaScore;
         weight := w_sea weights;
         weighted_score := round1 (seaScore * w_sea weights);
         description :=
           "IPCC AR6 SSP2-4.5 scenario projects "
           ++ toFixed (seaScore * 0.05) 2
           ++ "m sea-level rise by 2050. Coastal proximity amplifies long-term asset devaluation risk.";
         data_source :=
           "IPCC AR6 Sea-Level Projections + INCOIS Coastal Vulnerability Index" |};
      {| factor := "Heat Stress Index";
         score := heatScore;
         weight := w_heat weights;
         weighted_score := round1 (heatScore * w_heat weights);
         description :=
           "Wet-Bulb Globe Temperature (WBGT) analysis indicates "
           ++ (if gtb heatScore 70 then "dangerous"
               else if gtb heatScore 45 then "elevated" else "manageable")
           ++ " heat exposure. Affects habitability and property operational costs.";
         data_source := "NIUA Heat Action Plans + IMD Temperature Projections" |};
      {| factor := "Water Scarcity Projection";
         score := waterScore;
         weight := w_water weights;
         weighted_score := round1 (waterScore * w_water weights);
         description :=
           "CWMI composite score indicates "
           ++ (if gtb waterScore 60 then "critical"
               else if gtb waterScore 40 then "stressed" else "adequate")
           ++ " water availability through 2040. Groundwater depletion rate factored in.";
         data_source := "NITI Aayog CWMI + CGWB Groundwater Atlas" |} ].

(** ** 20-year projection engine *)

(** [f => f.factor === n] *)
Definition named (n : string) (f : ClimateFactorScore) : bool :=
  String.eqb (factor f) n.

(** [factors.find(f => f.factor === name)?.score ?? dflt] *)
Definition scoreOf (name : string) (dflt : float)
    (factors : list ClimateFactorScore) : float :=
  match find (named name) factors with
  | Some f => score f
  | None => dflt
  end.

Definition projectionAt (baseYear : Z)
    (floodBase heatBase seaBase waterBase : float) (i : nat)
  : ProjectionDataPoint :=
  let year := (baseYear + Z.of_nat i * 2)%Z in
  let t := of_Z (Z.of_nat i) / 10 in
  let flood_risk := Math_min 100 (floodBase + t * 18 + t * t * 7) in
  let heat_stress := Math_min 100 (heatBase + t * 15 + t * t * 9) in
  let sea_level_rise := Math_min 100 (seaBase + t * 22 + t * t * 5) in
  let water_scarcity := Math_min 100 (waterBase + t * 12 + t * t * 6) in
  let composite_risk :=
    round1 (flood_risk * 0.35 + sea_level_rise * 0.25
            + heat_stress * 0.25 + water_scarcity * 0.15) in
  {| year := year;
     flood_risk := round1 flood_risk;
     heat_stress := round1 heat_stress;
     sea_level_rise := round1 sea_level_rise;
     water_scarcity := round1 water_scarcity;
     composite_risk := composite_risk |}.

Definition generateProjections (factors : list ClimateFactorScore)
  : M (list ProjectionDataPoint) :=
  baseYear <- getFullYear ;;
  let floodBase := scoreOf "Flood Probability" 50 factors in
  let heatBase := scoreOf "Heat Stress Index" 50 factors in
  let seaBase := scoreOf "Sea-Level Rise Exposure" 50 factors in
  let waterBase := scoreOf "Water Scarcity Projection" 50 factors in
  ret (map (projectionAt baseYear floodBase heatBase seaBase waterBase)
           (seq 0 11)).

(** ** Lending adjustment recommendation engine *)

Definition classification_eqb (a b : RiskClassification) : bool :=
  match a, b with
  | Low, Low | Moderate, Moderate | High, High | Severe, Severe => true
  | _, _ => false
  end.

(** [adjustments.push(a)] when [cond] holds. *)
Definition push_if (cond : bool) (a : LendingAdjustment)
    (adjustments : list LendingAdjustment) : list LendingAdjustment :=
  if cond then adjustments ++ [a] else adjustments.

Definition generateLendingAdjustments (score : float)
    (classification : RiskClassification) (propertyType : string)
    (factors : list ClimateFactorScore) : list LendingAdjustment :=
  let adjustments := [] in
  let floodScore := scoreOf "Flood Probability" 0 factors in
  let seaScore := scoreOf "Sea-Level Rise Exposure" 0 factors in
  (* Interest rate adjustment *)
  let rateAdj :=
    if score <? 25 then 0 else if score <? 50 then 0.5
    else if score <? 75 then 1.5 else 2.5 in
  let adjustments :=
    push_if (gtb rateAdj 0)
      {| type := interest_rate;
         title := "Climate Risk Premium";
         adj_description := "Apply a climate-adjusted interest rate premium to compensate for elevated default risk from physical climate hazards. Based on RBI Climate Risk Framework (2024).";
         value := Some ("+" ++ toFixed rateAdj 1 ++ "% p.a.");
         severity :=
           if classification_eqb classification Severe then critical
           else if classification_eqb classification High then warning
           else info |}
      adjustments in
  (* Insurance requirements *)
  let adjustments :=
    push_if (gtb floodScore 40)
      {| type := insurance;
         title := if gtb floodScore 65 then "Mandatory Flood Insurance"
                  else "Recommended Flood Cover";
         adj_description :=
           "Property is in "
           ++ (if gtb floodScore 65 then "a high-probability flood zone"
               else "a moderate flood-risk area")
           ++ ". "
           ++ (if gtb floodScore 65
               then "Flood insurance is a mandatory loan condition."
               else "Flood insurance is strongly recommended.");
         value :=
           Some (if gtb floodScore 65 then "Mandatory" else "Recommended");
         severity := if gtb floodScore 65 then critical else warning |}
      adjustments in
  let adjustments :=
    push_if (gtb seaScore 50)
      {| type := insurance;
         title := "Coastal Hazard Insurance";
         adj_description := "Significant sea-level rise exposure detected. Comprehensive coastal hazard coverage required including storm surge and tidal flooding events.";
         value := Some "Required";
         severity := if gtb seaScore 70 then critical else warning |}
      adjustments in
  (* Loan cap *)
  let adjustments :=
    push_if (classification_eqb classification High
             || classification_eqb classification Severe)
      (let capPct :=
         if classification_eqb classification Severe then 60%Z else 70%Z in
       {| type := loan_cap;
          title := "Loan-to-Value Cap";
          adj_description :=
            "Restrict maximum LTV ratio to " ++ digits capPct
            ++ "% due to elevated climate risk. Future asset devaluation from climate hazards may erode collateral value.";
          value := Some ("Max " ++ digits capPct ++ "% LTV");
          severity :=
            if classification_eqb classification Severe then critical
            else warning |})
      adjustments in
  (* Enhanced due diligence *)
  let adjustments :=
    push_if (classification_eqb classification Severe)
      {| type := enhanced_due_diligence;
         title := "Enhanced Climate Due Diligence";
         adj_description := "Mandatory independent climate risk assessment by an accredited third-party environmental consultant before loan sanction. Board-level approval required for all loans above ₹5 Cr.";
         value := Some "Required";
         severity := critical |}
      adjustments in
  (* Positive note for low risk *)
  let adjustments :=
    push_if (classification_eqb classification Low)
      {| type := risk_warning;
         title := "Standard Lending Terms Applicable";
         adj_description := "Climate risk assessment indicates low exposure. Standard lending terms apply. Annual climate risk review recommended as part of portfolio monitoring.";
         value := Some "No adjustment";
         severity := info |}
      adjustments in
  (* Agricultural special conditions *)
  let adjustments :=
    push_if (String.eqb propertyType "agricultural" && gtb score 40)
      {| type := risk_warning;
         title := "Kharif/Rabi Season Risk";
         adj_description := "Agricultural property in a climate-stressed zone. Consider weather-indexed crop insurance linkage and staggered disbursement tied to seasonal rainfall assessment.";
         value := Some "Conditional";
         severity := warning |}
      adjustments in
  adjustments.

(** ** The assessment ([runClimateAssessment])

    The simulated latency consumes one [Math.random()] and shows nowhere
    in the report. *)

Definition runClimateAssessment (input : PropertyAssessmentInput)
  : M ClimateRiskReport :=
  _ <- Math_random ;;
  factors <- calculateFactorScores (in_latitude input) (in_longitude input)
                                   (in_property_type input) ;;
  let rawScore := fold_left (fun sum f => sum + weighted_score f) factors 0 in
  let score := Math_min 100 (Math_max 0 (Math_round rawScore)) in
  let classification := classifyRisk score in
  let profile := getRegionProfile (in_latitude input) (in_longitude input) in
  projections <- generateProjections factors ;;
  let adjustments :=
    generateLendingAdjustments score classification
                               (in_property_type input) factors in
  u <- Math_random ;;
  date <- toISOString ;;
  ret {| latitude := in_latitude input;
         longitude := in_longitude input;
         property_type := in_property_type input;
         location_name := name profile;
         report_region := region profile;
         climate_risk_score := score;
         risk_classification := classification;
         confidence_level := 0.78 + u * 0.15;
         factors := factors;
         projections := projections;
         lending_adjustments := adjustments;
         assessment_date := date;
         model_version := "v2.1.0-beta";
         data_vintage := "IMD 2023 · IPCC AR6" |}.

(** * Auxiliary definitions for the statements *)

(** Zero or finite: neither NaN nor an infinity. *)
Definition SFbounded (x : spec_float) : Prop :=
  match x with
  | S754_zero _ | S754_finite _ _ _ => True
  | _ => False
  end.

Definition summary (a : LendingAdjustment)
  : AdjustmentType * string * option string * Severity :=
  (type a, title a, value a, severity a).

(** A factor list as the scorer shapes it, with flood 70 and sea 60. *)
Definition fixture_flood : ClimateFactorScore :=
  {| factor := "Flood Probability"; score := 70; weight := 0.35;
     weighted_score := 24.5; description := ""; data_source := "" |}.

Definition fixture_sea : ClimateFactorScore :=
  {| factor := "Sea-Level Rise Exposure"; score := 60; weight := 0.25;
     weighted_score := 15; description := ""; data_source := "" |}.

Definition fixture_heat : ClimateFactorScore :=
  {| factor := "Heat Stress Index"; score := 100; weight := 0.25;
     weighted_score := 25; description := ""; data_source := "" |}.

Definition fixture_water : ClimateFactorScore :=
  {| factor := "Water Scarcity Projection"; score := 100; weight := 0.15;
     weighted_score := 15; description := ""; data_source := "" |}.

Definition fixture : list ClimateFactorScore :=
  [fixture_flood; fixture_sea; fixture_heat; fixture_water].

(** A source of randomness that always answers 0.5, so that every noise
    term is 0, on 1 November 2026. *)
Definition still : World :=
  {| random := fun _ => 0.5; drawn := 0; fullYear := 2026;
     isoString := "2026-11-01T09:30:00.000Z" |}.

Definition mumbai (propertyType : string) : PropertyAssessmentInput :=
  {| in_latitude := 19.05; in_longitude := 72.83;
     in_property_type := propertyType;
     loan_amount := None; loan_tenure := None |}.

(** The nine bounding boxes of [getRegionProfile], in the order they are
    tried. *)
Definition within (lo hi x : float) : bool := (lo <=? x) && (x <=? hi).

Definition boxes (lat lng : float) : list bool :=
  [ within 79 80.5 lng && within 8 13 lat;
    within 72 73.5 lng && within 18 19.5 lat;
    within 88 89 lng && within 22 23 lat;
    within 76 77.5 lng && within 8 9 lat;
    within 76 88 lng && within 24 30 lat;
    within 69 77 lng && within 24 30 lat;
    within 74 80 lng && within 14 22 lat;
    (89 <=? lng) && within 23 30 lat;
    within 68 75 lng && within 20 24 lat ].

Definition interior (lat lng : float) : RegionProfile :=
  {| name := "Location (" ++ toFixed lat 2 ++ "°N, "
               ++ toFixed lng 2 ++ "°E)";
     region := "Interior India";
     flood_base := 38; sea_level_base := 12; heat_base := 68;
     water_scarcity_base := 55 |}.

(** The trajectory of one hazard as the specification words it, before
    rounding, at point [i] of the horizon:
    [min(100, base + t*rate1 + t^2*rate2)] with [t = i/10]. *)
Definition curve (base rate1 rate2 : float) (i : nat) : float :=
  let t := of_Z (Z.of_nat i) / 10 in
  Math_min 100 (base + t * rate1 + t * t * rate2).

(** The scores of the data model: the integers 0 to 100. *)
Definition is_score (s : float) : Prop :=
  exists z : Z, (0 <= z <= 100)%Z /\ s = of_Z z.

Definition scores : list float :=
  map (fun k => of_Z (Z.of_nat k)) (seq 0 101).

(** A series [a :: l]: [a] is a number, no later value is below it, and
    if it is 100 they all are; and so on for [l]. *)
Definition pair_ok (a b : float) : bool :=
  (a <=? b) && implb (PrimFloat.Leibniz.eqb a 100)
                     (PrimFloat.Leibniz.eqb b 100).

Fixpoint series_ok (l : list float) : bool :=
  match l with
  | [] => true
  | a :: l' => pair_ok a a && forallb (pair_ok a) l' && series_ok l'
  end.

(** The rounded series of one hazard over the horizon. *)
Definition series (base rate1 rate2 : float) : list float :=
  map (fun i => round1 (curve base rate1 rate2 i)) (seq 0 11).

(** The noise term of the [k]-th call of [noise()] from world [w] on. *)
Definition noiseAt (w : World) (k : nat) : float :=
  (random w (k + drawn w) - 0.5) * 12.

Definition in_0_100 (x : float) : Prop :=
  (0 <=? x) = true /\ (x <=? 100) = true.

(** The projection of the fixture, from the year 2026 on. *)
Definition fixture_projections : list ProjectionDataPoint :=
  fst (generateProjections fixture still).

(** The assessment of a residential property in Mumbai when every noise
    term is 0. *)
Definition mumbai_report : ClimateRiskReport :=
  fst (runClimateAssessment (mumbai "residential") still).

(** ** Users of the report and of the engine *)

(** *** Lending panel ([LendingPanel]) *)

Definition type_eqb (a b : AdjustmentType) : bool :=
  match a, b with
  | interest_rate, interest_rate | insurance, insurance
  | risk_warning, risk_warning | loan_cap, loan_cap
  | enhanced_due_diligence, enhanced_due_diligence => true
  | _, _ => false
  end.

Definition severity_eqb (a b : Severity) : bool :=
  match a, b with
  | info, info | warning, warning | critical, critical => true
  | _, _ => false
  end.

(** [s.replace(/[^0-9.]/g, ...)] with the empty string: the digits and
    points of [s]. *)
Fixpoint keepNumeric (s : string) : string :=
  match s with
  | EmptyString => EmptyString
  | String c s' =>
      if is_digit c || Ascii.eqb c "." then String c (keepNumeric s')
      else keepNumeric s'
  end.

(** The rate shown as "Effective Rate": the base rate plus what is read
    back from the value of the first interest-rate adjustment. *)
Definition effectiveRate (adjustments : list LendingAdjustment)
    (baseLine : float) : float :=
  match find (fun a => type_eqb (type a) interest_rate) adjustments with
  | Some rateAdj =>
      baseLine + parseFloat (match value rateAdj with
                             | Some v => keepNumeric v
                             | None => "0"
                             end)
  | None => baseLine
  end.

Definition criticalCount (adjustments : list LendingAdjustment) : nat :=
  List.length
    (filter (fun a => severity_eqb (severity a) critical) adjustments).

Definition warningCount (adjustments : list LendingAdjustment) : nat :=
  List.length
    (filter (fun a => severity_eqb (severity a) warning) adjustments).

(** *** Factor cards ([RiskBreakdownChart]) *)

Definition getScoreColor (score : float) : string :=
  if score <? 25 then "hsl(var(--risk-low))"
  else if score <? 50 then "hsl(var(--risk-moderate))"
  else if score <? 75 then "hsl(var(--risk-high))"
  else "hsl(var(--risk-severe))".

Definition getScoreLabel (score : float) : string :=
  if score <? 25 then "Low"
  else if score <? 50 then "Moderate"
  else if score <? 75 then "High"
  else "Severe".

(** *** Projection chart ([ProjectionChart]) *)

(** [l[i]] for an index that may be negative: [undefined] out of range. *)
Definition at_index {A} (l : list A) (i : Z) : option A :=
  if (i <? 0)%Z then None else nth_error l (Z.to_nat i).

Definition finalScore (projections : list ProjectionDataPoint) : float :=
  match at_index projections (Z.of_nat (List.length projections) - 1) with
  | Some p => composite_risk p
  | None => 0
  end.

Definition initialScore (projections : list ProjectionDataPoint) : float :=
  match at_index projections 0 with
  | Some p => composite_risk p
  | None => 0
  end.

Definition delta (projections : list ProjectionDataPoint) : string :=
  toFixed (finalScore projections - initialScore projections) 1.

(** *** Portfolio banding ([PortfolioView]) *)

Definition classifyByScore (score : float) : RiskClassification :=
  if 80 <=? score then Severe
  else if 60 <=? score then High
  else if 30 <=? score then Moderate
  else Low.

(** The entries of a list of adjustments that are insurance requirements,
    and the others. *)
Definition is_insurance (a : LendingAdjustment) : bool :=
  type_eqb (type a) insurance.

Definition insurances (l : list LendingAdjustment) : list LendingAdjustment :=
  filter is_insurance l.

Definition terms (l : list LendingAdjustment) : list LendingAdjustment :=
  filter (fun a => negb (is_insurance a)) l.

(** The four factor names the engine looks up. *)
Definition hazard_names : list string :=
  [ "Flood Probability"; "Heat Stress Index"; "Sea-Level Rise Exposure";
    "Water Scarcity Projection" ].

(** The string a [RiskClassification] is in the source. *)
Definition classification_name (c : RiskClassification) : string :=
  match c with
  | Low => "Low"
  | Moderate => "Moderate"
  | High => "High"
  | Severe => "Severe"
  end.

(** The place of a classification in the order Low, Moderate, High,
    Severe. *)
Definition rank (c : RiskClassification) : nat :=
  match c with
  | Low => 0
  | Moderate => 1
  | High => 2
  | Severe => 3
  end.

(** The regions of the nine boxes of [getRegionProfile], in the order
    [boxes] lists them, and the place of the first box that holds. *)
Definition box_regions : list string :=
  [ "Tamil Nadu Coast"; "Maharashtra Coast"; "West Bengal Delta";
    "Kerala Coast"; "Northern India"; "Northwestern India"; "Central India";
    "Brahmaputra Basin"; "Western India" ].

Fixpoint first_true (l : list bool) : nat :=
  match l with
  | [] => 0
  | b :: l' => if b then 0 else S (first_true l')
  end.

(** ** Finite sets of numbers

    The sums a handful of scores can reach are enumerated in ascending
    order and without repetition, by a merge sort that keeps one of two
    equal numbers. *)
Fixpoint merge (l1 l2 : list float) {struct l1} : list float :=
  let fix merge_aux (l2 : list float) {struct l2} : list float :=
    match l1, l2 with
    | [], _ => l2
    | _, [] => l1
    | a1 :: l1', a2 :: l2' =>
        if a1 <? a2 then a1 :: merge l1' l2
        else if PrimFloat.Leibniz.eqb a1 a2 then a1 :: merge l1' l2'
        else a2 :: merge_aux l2'
    end in
  merge_aux l2.

Fixpoint merge_list_to_stack (stack : list (option (list float)))
    (l : list float) : list (option (list float)) :=
  match stack with
  | [] => [Some l]
  | None :: stack' => Some l :: stack'
  | Some l' :: stack' => None :: merge_list_to_stack stack' (merge l' l)
  end.

Fixpoint merge_stack (stack : list (option (list float))) : list float :=
  match stack with
  | [] => []
  | None :: stack' => merge_stack stack'
  | Some l :: stack' => merge l (merge_stack stack')
  end.

Fixpoint iter_merge (stack : list (option (list float))) (l : list float)
  : list float :=
  match l with
  | [] => merge_stack stack
  | a :: l' => iter_merge (merge_list_to_stack stack [a]) l'
  end.

Definition distinct (l : list float) : list float := iter_merge [] l.

(** The sums of a member of [A] and a member of [B]. *)
Definition sums (A B : list float) : list float :=
  distinct (flat_map (fun a => map (fun b => a + b) B) A).

(** The values [round1 (s * weight)] takes on the scores of the data
    model. *)
Definition shares (weight : float) : list float :=
  map (fun s => round1 (s * weight)) scores.

(** The sums of the four weighted scores, the last term apart, in the
    order [reduce] adds them up from 0. *)
Definition partial_sums : list float :=
  sums (sums (sums [0] (shares (w_flood weights))) (shares (w_sea weights)))
       (shares (w_heat weights)).

(** ** [Number::toString]

    What a template literal makes of a number: the shortest decimal
    digits [s] (there are [k] of them) and exponent [n] such that
    [s * 10^(n-k)] converts back to the number, the closest to it where
    several will do, laid out as ECMAScript prescribes. *)
Module NumberToString.

(** The double nearest to [s * 10^sc] is [x]. *)
Definition converts_to (s sc : Z) (x : spec_float) : bool :=
  match s with
  | Zpos p =>
      match decimalToSF false p sc, x with
      | S754_finite s1 m1 e1, S754_finite s2 m2 e2 =>
          Bool.eqb s1 s2 && Pos.eqb m1 m2 && Z.eqb e1 e2
      | _, _ => false
      end
  | _ => false
  end.

(** [m * 2^e] against [s * 10^sc], as fractions over a common
    denominator. *)
Definition scaled (m e s sc : Z) : Z * Z :=
  let two := fun z => if (0 <=? z)%Z then (2 ^ z, 1)%Z else (1, 2 ^ (- z))%Z in
  let ten := fun z =>
    if (0 <=? z)%Z then (10 ^ z, 1)%Z else (1, 10 ^ (- z))%Z in
  let '(a, b) := two e in
  let '(c, d) := ten sc in
  (m * a * d, s * c * b)%Z.

(** The [n] with [10^(n-1) <= m * 2^e < 10^n]. *)
Fixpoint magnitude (fuel : nat) (m e n : Z) : Z :=
  match fuel with
  | O => n
  | S fuel' =>
      let '(x, lo) := scaled m e 1 (n - 1) in
      let '(x', hi) := scaled m e 1 n in
      if (x <? lo)%Z then magnitude fuel' m e (n - 1)
      else if (hi <=? x')%Z then magnitude fuel' m e (n + 1)
      else n
  end.

(** The candidates with [k] digits: the two [s] around
    [m * 2^e / 10^(n-k)], the upper one carried to [n + 1] when it has
    [k + 1] digits. *)
Definition candidates (m e n k : Z) (x : spec_float) : list (Z * Z) :=
  let '(num, den) := scaled m e 1 (n - k) in
  let lo := (num / den)%Z in
  flat_map (fun s =>
    let '(n', s') :=
      if (s =? 10 ^ k)%Z then ((n + 1)%Z, (10 ^ (k - 1))%Z) else (n, s) in
    if (10 ^ (k - 1) <=? s')%Z && converts_to s' (n' - k) x
    then [(n', s')] else [])
    [lo; (lo + 1)%Z].

(** The candidate closest to [m * 2^e]; of two at the same distance
    the even one. *)
Definition nearest (m e k : Z) (c : list (Z * Z)) : option (Z * Z) :=
  fold_left (fun best ns =>
    let dist := fun '(n, s) =>
      let '(a, b) := scaled m e s (n - k) in Z.abs (a - b) in
    let den := fun '(n, s) =>
      let '(a, b) := scaled m e 1 (n - k) in b in
    match best with
    | None => Some ns
    | Some b =>
        match (dist ns * den b ?= dist b * den ns)%Z with
        | Lt => Some ns
        | Eq => if Z.even (snd ns) then Some ns else Some b
        | Gt => Some b
        end
    end) c None.

Fixpoint search (fuel : nat) (m e n k : Z) (x : spec_float)
  : option (Z * Z * Z) :=
  match fuel with
  | O => None
  | S fuel' =>
      match nearest m e k (candidates m e n k x) with
      | Some (n', s) => Some (n', k, s)
      | None => search fuel' m e n (k + 1) x
      end
  end.

Definition layout (n k s : Z) : string :=
  let d := digits s in
  if (k <=? n)%Z && (n <=? 21)%Z then d ++ zeros (Z.to_nat (n - k))
  else if (0 <? n)%Z && (n <=? 21)%Z
  then take (Z.to_nat n) d ++ "." ++ drop (Z.to_nat n) d
  else if (-6 <? n)%Z && (n <=? 0)%Z
  then "0." ++ zeros (Z.to_nat (- n)) ++ d
  else
    let e := (n - 1)%Z in
    let ex := (if (e <? 0)%Z then "e-" else "e+") ++ digits (Z.abs e) in
    if (k =? 1)%Z then d ++ ex else take 1 d ++ "." ++ drop 1 d ++ ex.

Definition toString (x : float) : string :=
  match Prim2SF x with
  | S754_nan => "NaN"
  | S754_zero _ => "0"
  | S754_infinity s => if s then "-Infinity" else "Infinity"
  | S754_finite s m e =>
      let n0 := ((e + Z.log2 (Zpos m) + 1) * 1233 / 4096)%Z in
      let n := magnitude 4 (Zpos m) e n0 in
      (if s then "-" else "")
      ++ match search 17 (Zpos m) e n 1 (S754_finite false m e) with
         | Some (n', k, d) => layout n' k d
         | None => "NaN"
         end
  end.

End NumberToString.

(** ** The score card ([RiskScoreCard]) *)

Definition Math_PI : float := 3.141592653589793.

Module ScoreCard.

(** The arc of [ScoreGauge]: the track covers three quarters of the
    circle, the score its share of the track. *)
Definition radius : float := 72.
Definition stroke : float := 10.
Definition normalizedRadius : float := radius - stroke / 2.
Definition circumference : float := normalizedRadius * 2 * Math_PI.
Definition arcPct : float := 0.75.

Definition offset (score : float) : float :=
  circumference * arcPct * (1 - score / 100).

Definition dasharray : float := circumference * arcPct.

End ScoreCard.

(** ** The officers' view ([OfficersView]) *)

Module Officers.

Inductive Decision := approve | approve_conditions | escalate | reject | null.

Inductive Priority := normal | urgent | escalated.

Record LoanApplication := {
  id : string;
  applicant : string;
  amount : float;
  property : string;
  lat : float;
  lng : float;
  propertyType : string;
  purpose : string;
  tenure : float;
  submitted : string;
  priority : Priority
}.

Record Suggestion := {
  verdict : Decision;
  headline : string;
  rationale : string;
  conditions : list string;
  rateAdj : float;
  insuranceFlag : bool;
  ltv : float
}.

Definition aiSuggestions (report : ClimateRiskReport) (app : LoanApplication)
  : Suggestion :=
  let s := climate_risk_score report in
  let c := risk_classification report in
  if classification_eqb c Low then
    {| verdict := approve;
       headline := "Approve — Minimal Climate Risk";
       rationale :=
         "Score " ++ NumberToString.toString s
         ++ "/100 is well below risk thresholds. No material climate hazard identified for this property.";
       conditions :=
         [ "Standard collateral valuation sufficient";
           "Include property in annual climate review cycle" ];
       rateAdj := 0; insuranceFlag := false; ltv := 80 |}
  else if classification_eqb c Moderate then
    {| verdict := approve_conditions;
       headline := "Approve with Standard Conditions";
       rationale :=
         "Score " ++ NumberToString.toString s
         ++ "/100 indicates moderate exposure. Loan approvable with enhanced monitoring and marginal rate adjustment.";
       conditions :=
         [ "Climate rider clause to be added to loan agreement";
           "Annual climate reassessment at loan anniversary";
           "Standard flood insurance mandatory (if applicable zone)" ];
       rateAdj := 25; insuranceFlag := false; ltv := 75 |}
  else if classification_eqb c High then
    {| verdict := approve_conditions;
       headline := "Conditional Approval — Risk Mitigation Required";
       rationale :=
         "Score " ++ NumberToString.toString s
         ++ "/100 crosses the High risk threshold. Lending is permissible under RBI CRF §4.2 with mandatory safeguards.";
       conditions :=
         [ "Mandatory climate-linked insurance cover (flood + sea-level)";
           "Interest rate adjustment of +"
           ++ NumberToString.toString (Math_round ((s - 50) * 1.2))
           ++ " bps over base rate";
           "LTV capped at 70% with enhanced appraisal";
           "Borrower to acknowledge Climate Risk Disclosure (RBI/2024-25/DOR/FINC/001)";
           "Trigger covenant: reassess if annual score rises >5 pts" ];
       rateAdj := Math_round ((s - 50) * 1.2);
       insuranceFlag := true; ltv := 70 |}
  else
    {| verdict := escalate;
       headline := "Escalate to Credit Committee";
       rationale :=
         "Score " ++ NumberToString.toString s
         ++ "/100 is Severe. RBI CRF §4.5 mandates Board-level review before approval. Loan may proceed only with executive sign-off.";
       conditions :=
         [ "Cannot be approved at Officer level — must go to Credit Committee";
           "Mandatory third-party climate stress report (independent)";
           "Climate-linked insurance across all hazard categories required";
           "LTV hard-cap at 60% regardless of collateral";
           "Full RBI BRSR climate disclosure to borrower" ];
       rateAdj := Math_round ((s - 60) * 1.8);
       insuranceFlag := true; ltv := 60 |}.

(** The arc of the view's own [ScoreGauge]. *)
Definition circ : float := 2 * Math_PI * 52.

Definition dash (score : float) : float := circ * (score / 100).

(** The band [HazardBar] shows beside a factor score. *)
Definition cls (score : float) : string :=
  if score <? 25 then "Low" else if score <? 50 then "Moderate"
  else if score <? 75 then "High" else "Severe".

(** The report the view builds for the application on screen, from the
    functions of the engine. *)
Definition report (app : LoanApplication) : M ClimateRiskReport :=
  factors <- calculateFactorScores (lat app) (lng app) (propertyType app) ;;
  let rawScore := fold_left (fun s f => s + weighted_score f) factors 0 in
  let score := Math_round rawScore in
  let classification := classifyRisk score in
  projections <- generateProjections factors ;;
  let lending_adjustments :=
    generateLendingAdjustments score classification (propertyType app)
                               factors in
  date <- toISOString ;;
  ret {| latitude := lat app;
         longitude := lng app;
         property_type := propertyType app;
         location_name := property app;
         report_region := "";
         climate_risk_score := score;
         risk_classification := classification;
         confidence_level := 0.85;
         factors := factors;
         projections := projections;
         lending_adjustments := lending_adjustments;
         assessment_date := date;
         model_version := "v2.1.0-beta";
         data_vintage := "IMD 2023 · IPCC AR6 · CWMI" |}.

End Officers.

(** The input [runClimateAssessment] would be given for an application. *)
Definition input_of (app : Officers.LoanApplication)
  : PropertyAssessmentInput :=
  {| in_latitude := Officers.lat app; in_longitude := Officers.lng app;
     in_property_type := Officers.propertyType app;
     loan_amount := None; loan_tenure := None |}.

(** The first application of the view's queue. *)
Definition first_application : Officers.LoanApplication :=
  {| Officers.id := "LAP-8821"; Officers.applicant := "Arjun Mehta";
     Officers.amount := 2.5; Officers.property := "Bandra West, Mumbai";
     Officers.lat := 19.06; Officers.lng := 72.83;
     Officers.propertyType := "residential";
     Officers.purpose := "Home Purchase"; Officers.tenure := 20;
     Officers.submitted := "2026-02-19T06:30:00Z";
     Officers.priority := Officers.urgent |}.

(** ** Portfolio trends ([TrendsView]) *)

Module Trends.

Inductive Scenario := ssp1 | ssp2 | ssp5.

(** [Horizon = 10 | 20 | 30] *)
Inductive Horizon := years10 | years20 | years30.

Definition horizonYears (h : Horizon) : float :=
  match h with
  | years10 => 10
  | years20 => 20
  | years30 => 30
  end.

Record ProjectionPoint := {
  year : float;
  flood_risk : float;
  heat_stress : float;
  sea_level_rise : float;
  water_scarcity : float;
  composite_risk : float;
  exposure_crore : float;
  high_risk_count : float
}.

Record ScenarioMeta := {
  id : Scenario;
  label : string;
  shortLabel : string;
  description : string;
  color : string;
  accel : float
}.

Definition SCENARIOS : list ScenarioMeta :=
  [ {| id := ssp1; label := "SSP1-1.9  (Optimistic)"; shortLabel := "SSP1";
       description := "Strong mitigation — global warming limited to ~1.5°C by 2100. Steep emissions reductions post-2030.";
       color := "hsl(142 69% 38%)"; accel := 0.6 |};
    {| id := ssp2; label := "SSP2-4.5  (Middle Road)"; shortLabel := "SSP2";
       description := "Moderate mitigation — warming of ~2.5°C by 2100. Most likely baseline scenario for Indian lenders.";
       color := "hsl(38 92% 50%)"; accel := 1.0 |};
    {| id := ssp5; label := "SSP5-8.5  (High Emission)"; shortLabel := "SSP5";
       description := "No mitigation — warming of ~4°C+ by 2100. Stress-test / worst-case scenario for capital planning.";
       color := "hsl(0 75% 50%)"; accel := 1.7 |} ].

Definition scenario_eqb (a b : Scenario) : bool :=
  match a, b with
  | ssp1, ssp1 | ssp2, ssp2 | ssp5, ssp5 => true
  | _, _ => false
  end.

(** The 2026 snapshot all scenarios branch from. *)
Record Base := {
  base_flood_risk : float;
  base_heat_stress : float;
  base_sea_level_rise : float;
  base_water_scarcity : float;
  base_composite_risk : float;
  base_exposure_crore : float;
  base_high_risk_count : float
}.

Definition BASE : Base :=
  {| base_flood_risk := 58; base_heat_stress := 62;
     base_sea_level_rise := 44; base_water_scarcity := 51;
     base_composite_risk := 55; base_exposure_crore := 1240;
     base_high_risk_count := 18 |}.

(** The length [Array.from({ length })] gives a number: its integer
    part, 0 if it is negative or not a number. *)
Definition ToLength (x : float) : nat :=
  match Prim2SF x with
  | S754_finite false m e =>
      Z.to_nat (if (0 <=? e)%Z then Zpos m * 2 ^ e else Zpos m / 2 ^ (- e))
  | _ => 0
  end.

Definition pointAt (a steps : float) (i : nat) : ProjectionPoint :=
  let i := of_Z (Z.of_nat i) in
  let baseYear := 2026 in
  let year := baseYear + i * 2 in
  let t := i / (steps - 1) in
  let ac := fun base rate curve : float =>
    Math_min 100
      (parseFloat (toFixed (base + t * rate * a + t * t * curve * a) 1)) in
  let flood_risk := ac (base_flood_risk BASE) 14 6 in
  let heat_stress := ac (base_heat_stress BASE) 12 8 in
  let sea_level_rise := ac (base_sea_level_rise BASE) 18 5 in
  let water_scarcity := ac (base_water_scarcity BASE) 10 5 in
  let composite_risk :=
    parseFloat
      (toFixed (flood_risk * 0.35 + sea_level_rise * 0.25
                + heat_stress * 0.25 + water_scarcity * 0.15) 1) in
  let exposure_crore :=
    Math_round (base_exposure_crore BASE * (1 + t * 0.4 * a)) in
  let high_risk_count :=
    Math_min 87
      (Math_round (base_high_risk_count BASE * (1 + t * 0.9 * a))) in
  {| year := year; flood_risk := flood_risk; heat_stress := heat_stress;
     sea_level_rise := sea_level_rise; water_scarcity := water_scarcity;
     composite_risk := composite_risk; exposure_crore := exposure_crore;
     high_risk_count := high_risk_count |}.

(** [SCENARIOS.find(s => s.id === scenario)!] always finds its entry;
    [None] stands for the exception reading [accel] of [undefined] would
    raise. *)
Definition generateSeries (scenario : Scenario) (h : Horizon)
  : option (list ProjectionPoint) :=
  match find (fun s => scenario_eqb (id s) scenario) SCENARIOS with
  | Some meta =>
      let a := accel meta in
      let steps := horizonYears h / 2 + 1 in
      Some (map (pointAt a steps) (seq 0 (ToLength steps)))
  | None => None
  end.

(** What the comparator strip shows of a series: the composite risk of
    its last point, the risk delta over the horizon and the share of
    loans at risk. *)
Definition comparator (pts : list ProjectionPoint)
  : option (float * string * float) :=
  match nth_error pts (List.length pts - 1), nth_error pts 0 with
  | Some last, Some first =>
      Some (composite_risk last,
            toFixed (composite_risk last - composite_risk first) 1,
            Math_round (high_risk_count last / 87 * 100))
  | _, _ => None
  end.

End Trends.

(** [a] is at most [b] at every index the two lists share. *)
Definition pointwise_le (l1 l2 : list float) : bool :=
  forallb (fun ab => fst ab <=? snd ab) (combine l1 l2).

(** A point without its date. *)
Definition undated (p : Trends.ProjectionPoint) : list float :=
  [ Trends.flood_risk p; Trends.heat_stress p; Trends.sea_level_rise p;
    Trends.water_scarcity p; Trends.composite_risk p;
    Trends.exposure_crore p; Trends.high_risk_count p ].

(** The seven series of a list of points. *)
Definition columns (pts : list Trends.ProjectionPoint) : list (list float) :=
  map (fun field => map field pts)
    [ Trends.flood_risk; Trends.heat_stress; Trends.sea_level_rise;
      Trends.water_scarcity; Trends.composite_risk; Trends.exposure_crore;
      Trends.high_risk_count ].

(** ** Ordered lists of numbers *)

Fixpoint ascending (l : list float) : bool :=
  match l with
  | [] => true
  | a :: l' =>
      match l' with
      | [] => a <=? a
      | b :: _ => (a <=? b) && ascending l'
      end
  end.

Fixpoint strictly_ascending (l : list float) : bool :=
  match l with
  | [] => true
  | a :: l' =>
      match l' with
      | [] => true
      | b :: _ => (a <? b) && strictly_ascending l'
      end
  end.

(** [g] does not decrease along [l], and [l] is strictly ascending. *)
Definition monotone_on (g : float -> float) (l : list float) : bool :=
  strictly_ascending l && ascending (map g l).

(** The products [s * weight] over the scores of the data model. *)
Definition products (weight : float) : list float :=
  map (fun s => s * weight) scores.

(** Adding a member of [B] does not decrease along [A], nor adding to a
    member of [A] along [B]. *)
Definition sum_monotone (A B : list float) : bool :=
  forallb (fun b => monotone_on (fun a => a + b) A) B
  && forallb (fun a => monotone_on (fun b => a + b) B) A.

(** No difference [b - a] of two members [a <= b] of [V] is negative. *)
Definition differences_ok (V : list float) : bool :=
  forallb (fun a => forallb (fun b => implb (a <=? b) (0 <=? b - a)) V) V.

(** The composite [round1 (a + b + c + d)] of a projection point, for [a]
    from [A], [b] and [c] from [B] and [d] from [C]: the sums are
    monotone term by term, the rounding is monotone on them, and no
    difference of two rounded composites in order is negative. *)
Definition composite_check (A B C : list float) : bool :=
  let S2 := sums A B in
  let S3 := sums S2 B in
  let S4 := sums S3 C in
  sum_monotone A B && sum_monotone S2 B && sum_monotone S3 C
  && monotone_on round1 S4 && differences_ok (distinct (map round1 S4)).

(** ** Rounding to one decimal, as the specification words it

    The multiple of 1/10 nearest to [x], a tie going away from zero, as
    the nearest number of the machine; a zero, an infinity and NaN are
    left as they are, except that -0 becomes 0. *)

(** The integer nearest to ten times [m * 2 ^ e], a tie going up. *)
Definition nearest_tenths (m : positive) (e : Z) : Z :=
  let '(p, q) :=
    if (0 <=? e)%Z then (Zpos m * 2 ^ e, 1)%Z else (Zpos m, 2 ^ (- e))%Z in
  ((20 * p + q) / (2 * q))%Z.

Definition round_1_decimal (x : float) : float :=
  match Prim2SF x with
  | S754_zero _ => 0
  | S754_finite s m e =>
      match nearest_tenths m e with
      | Zpos n =>
          let r := SFdiv prec emax (S754_finite false n 0)
                         (S754_finite false 10 0) in
          SF2Prim (if s then SFopp r else r)
      | _ => if s then PrimFloat.neg_zero else 0
      end
  | _ => x
  end.

(** Below 10^21 in magnitude: where [toFixed] writes plain decimals. *)
Definition plain (x : float) : Prop :=
  match Prim2SF x with
  | S754_finite _ m e => ((0 <=? e) = true -> Zpos m * 2 ^ e < 10 ^ 21)%Z
  | _ => True
  end.

(** [x] is a zero, or a finite number whose binary exponent is at most
    [k]: less than [2 ^ (k + 53)] in magnitude. *)
Definition exponent_le (k : Z) (x : float) : bool :=
  match Prim2SF x with
  | S754_zero _ => true
  | S754_finite _ _ e => (e <=? k)%Z
  | _ => false
  end.

(** For score [s], the four hazard values of point [i] before rounding,
    and their weighted terms, have exponent at most -40: they are below
    [2 ^ 13] in magnitude. *)
Definition curves_small (i : nat) (s : float) : bool :=
  exponent_le (-40) (curve s 18 7 i)
  && exponent_le (-40) (curve s 18 7 i * 0.35)
  && exponent_le (-40) (curve s 15 9 i)
  && exponent_le (-40) (curve s 15 9 i * 0.25)
  && exponent_le (-40) (curve s 22 5 i)
  && exponent_le (-40) (curve s 22 5 i * 0.25)
  && exponent_le (-40) (curve s 12 6 i)
  && exponent_le (-40) (curve s 12 6 i * 0.15).

(** *** Strings of decimal digits *)

Fixpoint all_digits (s : string) : bool :=
  match s with
  | EmptyString => true
  | String c s' => is_digit c && all_digits s'
  end.

(** The number a string of digits writes, after the digits of [acc]. *)
Fixpoint decimal_value (s : string) (acc : Z) : Z :=
  match s with
  | EmptyString => acc
  | String c s' =>
      decimal_value s' (10 * acc + Z.of_nat (nat_of_ascii c - 48))
  end.

(** The same for the digits of the library's decimal numbers. *)
Fixpoint uint_value (d : Decimal.uint) (acc : Z) : Z :=
  match d with
  | Decimal.Nil => acc
  | Decimal.D0 l => uint_value l (10 * acc)
  | Decimal.D1 l => uint_value l (10 * acc + 1)
  | Decimal.D2 l => uint_value l (10 * acc + 2)
  | Decimal.D3 l => uint_value l (10 * acc + 3)
  | Decimal.D4 l => uint_value l (10 * acc + 4)
  | Decimal.D5 l => uint_value l (10 * acc + 5)
  | Decimal.D6 l => uint_value l (10 * acc + 6)
  | Decimal.D7 l => uint_value l (10 * acc + 7)
  | Decimal.D8 l => uint_value l (10 * acc + 8)
  | Decimal.D9 l => uint_value l (10 * acc + 9)
  end.

(** ** Sources of randomness at the ends of the range

    [Math.random] always answers 0.9, so that every noise term is 4.8 up
    to the rounding of the machine, or always 0, so that every noise term
    is -6. *)
Definition high_noise : World :=
  {| random := fun _ => 0.9; drawn := 0; fullYear := 2026;
     isoString := "2026-11-01T09:30:00.000Z" |}.

Definition low_noise : World :=
  {| random := fun _ => 0; drawn := 0; fullYear := 2026;
     isoString := "2026-11-01T09:30:00.000Z" |}.

(** * The built-ins on known values *)

Example Math_round_ties :
  map Math_round [0.5; 1.5; 2.5; -0.5; -1.5; -2.5; 0.49999999999999994;
                  71.7; 99.5; 100.49]
  = [1; 2; 3; -0; -1; -2; 0; 72; 100; 100].
Proof. vm_compute. reflexivity. Qed.

Example Math_round_special :
  map Math_round [PrimFloat.nan; PrimFloat.infinity; 1e300;
                  4503599627370495.5]
  = [PrimFloat.nan; PrimFloat.infinity; 1e300; 4503599627370496].
Proof. vm_compute. reflexivity. Qed.

Example Math_min_max_zero_nan :
  [Math_min 0 (-0); Math_max (-0) 0; Math_min 100 PrimFloat.nan;
   Math_max 0 (Math_min 100 103); Math_max 0 (Math_min 100 (-3))]
  = [-0; 0; PrimFloat.nan; 100; 0].
Proof. vm_compute. reflexivity. Qed.

(** 0.35 and 1.005 are below the decimal they are written as, 6.75 is
    exact and goes up. *)
Example toFixed_known :
  [toFixed 2.5 1; toFixed 0.35 1; toFixed 6.75 1; toFixed 1.005 2;
   toFixed 12.97 2; toFixed (-0.01) 1; toFixed (-0) 2;
   toFixed PrimFloat.nan 1; toFixed 1e21 2; toFixed 1.5e22 1]
  = ["2.5"; "0.3"; "6.8"; "1.00"; "12.97"; "-0.0"; "0.00"; "NaN"; "1e+21";
     "1.5e+22"].
Proof. vm_compute. reflexivity. Qed.

Example parseFloat_known :
  [parseFloat "2.5"; parseFloat "0.1"; parseFloat "70.1"; parseFloat "-0.0";
   parseFloat "  12.5px"; parseFloat ".5"; parseFloat "1e+21";
   parseFloat "NaN"; parseFloat "Infinity"]
  = [2.5; 0.1; 70.1; -0; 12.5; 0.5; 1e21; PrimFloat.nan; PrimFloat.infinity].
Proof. vm_compute. reflexivity. Qed.

Example round1_known :
  map round1 [24.5; 6.75; 70.05; 0.35; 99.96] = [24.5; 6.8; 70; 0.3; 100].
Proof. vm_compute. reflexivity. Qed.

(** * Facts about binary64 comparisons and NaN *)

Section SpecFloatOrder.

Lemma SFcompare_antisym (x y : spec_float) :
  SFcompare y x = option_map CompOpp (SFcompare x y).
Proof.
  destruct x as [sx|sx| |sx mx ex], y as [sy|sy| |sy my ey]; simpl;
    try reflexivity; try (destruct sx; reflexivity);
    try (destruct sy; reflexivity);
    try (destruct sx, sy; reflexivity).
  destruct sx, sy; simpl; try reflexivity;
    rewrite (Z.compare_antisym ex ey);
    destruct (ex ?= ey)%Z; simpl; try reflexivity;
    rewrite (Pos.compare_cont_antisym mx my Eq); reflexivity.
Qed.

Lemma SFcompare_refl (x : spec_float) :
  x <> S754_nan -> SFcompare x x = Some Eq.
Proof.
  destruct x as [s|s| |s m e]; simpl; intros H; try reflexivity;
    try congruence.
  - destruct s; reflexivity.
  - destruct s; rewrite Z.compare_refl;
      change (Pos.compare_cont Eq m m) with (Pos.compare m m);
      rewrite Pos.compare_refl; reflexivity.
Qed.

Lemma SFltb_SFleb (x y : spec_float) :
  SFltb x y = true -> SFleb x y = true.
Proof.
  unfold SFltb, SFleb. destruct (SFcompare x y) as [[]|]; congruence.
Qed.

Lemma SFleb_not_SFltb (x y : spec_float) :
  SFleb x y = true -> SFltb y x = false.
Proof.
  unfold SFltb, SFleb. rewrite (SFcompare_antisym x y).
  destruct (SFcompare x y) as [[]|]; simpl; congruence.
Qed.

Lemma SFcompare_some (x y : spec_float) :
  x <> S754_nan -> y <> S754_nan -> exists c, SFcompare x y = Some c.
Proof.
  destruct x, y; simpl; intros; try congruence; eexists; reflexivity.
Qed.

Lemma SFleb_total (x y : spec_float) :
  x <> S754_nan -> y <> S754_nan -> SFltb x y = false -> SFleb y x = true.
Proof.
  intros Hx Hy. unfold SFltb, SFleb. rewrite (SFcompare_antisym x y).
  destruct (SFcompare_some x y Hx Hy) as [c ->].
  destruct c; simpl; congruence.
Qed.

Lemma SFleb_trans (x y z : spec_float) :
  SFleb x y = true -> SFleb y z = true -> SFleb x z = true.
Proof.
  unfold SFleb.
  destruct x as [sx|sx| |sx mx ex], y as [sy|sy| |sy my ey],
           z as [sz|sz| |sz mz ez]; simpl; try congruence;
    try (destruct sx; simpl; congruence);
    try (destruct sy; simpl; congruence);
    try (destruct sz; simpl; congruence);
    try (destruct sx, sy; simpl; congruence);
    try (destruct sx, sz; simpl; congruence);
    try (destruct sy, sz; simpl; congruence);
    try (destruct sx, sy, sz; simpl; congruence).
  change (Pos.compare_cont Eq mx my) with (Pos.compare mx my).
  change (Pos.compare_cont Eq my mz) with (Pos.compare my mz).
  change (Pos.compare_cont Eq mx mz) with (Pos.compare mx mz).
  destruct sx, sy, sz; simpl; try congruence;
    destruct (Z.compare_spec ex ey), (Z.compare_spec ey ez),
             (Z.compare_spec ex ez); try lia; try congruence;
    destruct (Pos.compare_spec mx my), (Pos.compare_spec my mz),
             (Pos.compare_spec mx mz); simpl; try lia; congruence.
Qed.

Lemma SFcompare_Eq_finite (m : positive) (e : Z) (y : spec_float) :
  SFcompare (S754_finite false m e) y = Some Eq -> y = S754_finite false m e.
Proof.
  destruct y as [s|s| |s n f]; simpl; try (destruct s; discriminate);
    try discriminate.
  destruct s; [discriminate|].
  destruct (Z.compare_spec e f) as [->| |]; try discriminate.
  intros H. injection H as H.
  change (Pos.compare_cont Eq m n) with (Pos.compare m n) in H.
  apply Pos.compare_eq in H. subst. reflexivity.
Qed.

End SpecFloatOrder.

Section Rounding.

Lemma shr_1_nonneg (r : shr_record) :
  (0 <= shr_m r)%Z -> (0 <= shr_m (shr_1 r))%Z.
Proof.
  destruct r as [m r s]; simpl.
  destruct m as [|[p|p|]|[p|p|]]; simpl; lia.
Qed.

Lemma iter_pos_shr_1_nonneg (p : positive) :
  forall r, (0 <= shr_m r)%Z -> (0 <= shr_m (SpecFloat.iter_pos shr_1 p r))%Z.
Proof.
  induction p as [p IH|p IH|]; simpl; intros r H.
  - apply IH, IH, shr_1_nonneg, H.
  - apply IH, IH, H.
  - apply shr_1_nonneg, H.
Qed.

Lemma shr_fexp_nonneg (m e : Z) (l : location) :
  (0 <= m)%Z -> (0 <= shr_m (fst (shr_fexp prec emax m e l)))%Z.
Proof.
  intros H. unfold shr_fexp, shr.
  assert (H0 : (0 <= shr_m (shr_record_of_loc m l))%Z)
    by (destruct l as [|[]]; exact H).
  destruct (fexp prec emax (Zdigits2 m + e) - e)%Z; simpl; trivial.
  apply iter_pos_shr_1_nonneg, H0.
Qed.

Lemma round_nearest_even_nonneg (m : Z) (l : location) :
  (0 <= m)%Z -> (0 <= round_nearest_even m l)%Z.
Proof.
  intros H. destruct l as [|[]]; simpl; try lia.
  destruct (Z.even m); lia.
Qed.

Lemma binary_round_aux_not_nan (s : bool) (m e : Z) (l : location) :
  (0 <= m)%Z -> binary_round_aux prec emax s m e l <> S754_nan.
Proof.
  intros H. unfold binary_round_aux.
  pose proof (shr_fexp_nonneg m e l H) as H1.
  destruct (shr_fexp prec emax m e l) as [r1 e1]; simpl in H1.
  pose proof (shr_fexp_nonneg _ e1 loc_Exact
                (round_nearest_even_nonneg _ (loc_of_shr_record r1) H1)) as H2.
  destruct (shr_fexp prec emax _ e1 loc_Exact) as [r2 e2]; simpl in H2.
  destruct (shr_m r2); try lia; try congruence.
  destruct (e2 <=? emax - prec)%Z; congruence.
Qed.

Lemma binary_round_aux_sign (s : bool) (m e : Z) (l : location) :
  match binary_round_aux prec emax s m e l with
  | S754_zero s' | S754_infinity s' | S754_finite s' _ _ => s' = s
  | S754_nan => True
  end.
Proof.
  unfold binary_round_aux.
  destruct (shr_fexp prec emax m e l) as [r1 e1].
  destruct (shr_fexp prec emax _ e1 loc_Exact) as [r2 e2].
  destruct (shr_m r2); trivial.
  destruct (e2 <=? emax - prec)%Z; reflexivity.
Qed.

Lemma binary_normalize_not_nan (m e : Z) (sz : bool) :
  binary_normalize prec emax m e sz <> S754_nan.
Proof.
  unfold binary_normalize, binary_round.
  destruct m as [|p|p]; try congruence;
    destruct (shl_align p e _) as [mz ez];
    apply binary_round_aux_not_nan; lia.
Qed.

Lemma SFadd_not_nan (x y : spec_float) :
  x <> S754_nan -> SFbounded y -> SFadd prec emax x y <> S754_nan.
Proof.
  destruct x as [sx|sx| |sx mx ex], y as [sy|sy| |sy my ey]; simpl;
    try congruence; try contradiction; intros _ _.
  - destruct sx, sy; congruence.
  - apply binary_normalize_not_nan.
Qed.

End Rounding.

Section Exactness.

Lemma digits2_pos_bounds (p : positive) :
  (2 ^ (Zpos (digits2_pos p) - 1) <= Zpos p < 2 ^ Zpos (digits2_pos p))%Z.
Proof.
  assert (step : forall q : positive,
            (2 ^ Zpos (Pos.succ q) = 2 * 2 ^ Zpos q)%Z /\
            (2 ^ (Zpos (Pos.succ q) - 1) = 2 * 2 ^ (Zpos q - 1))%Z).
  { intros q. rewrite Pos2Z.inj_succ. split.
    - apply Z.pow_succ_r. lia.
    - rewrite <- Z.pow_succ_r by lia. f_equal. lia. }
  induction p as [p IH|p IH|]; cbn [digits2_pos].
  - destruct (step (digits2_pos p)) as [-> ->].
    change (Zpos p~1) with (2 * Zpos p + 1)%Z.
    set (a := (2 ^ (Zpos (digits2_pos p) - 1))%Z) in *.
    set (b := (2 ^ Zpos (digits2_pos p))%Z) in *. clearbody a b. lia.
  - destruct (step (digits2_pos p)) as [-> ->].
    change (Zpos p~0) with (2 * Zpos p)%Z.
    set (a := (2 ^ (Zpos (digits2_pos p) - 1))%Z) in *.
    set (b := (2 ^ Zpos (digits2_pos p))%Z) in *. clearbody a b. lia.
  - vm_compute. split; [discriminate | reflexivity].
Qed.

Lemma digits2_pos_iter_xO (k p : positive) :
  digits2_pos (Pos.iter xO p k) = (digits2_pos p + k)%positive.
Proof.
  induction k as [|k IH] using Pos.peano_ind.
  - cbn. lia.
  - rewrite Pos.iter_succ. cbn [digits2_pos]. rewrite IH. lia.
Qed.

(** A valid mantissa has at most 53 bits. *)
Lemma valid_mantissa (x : float) (s : bool) (m : positive) (e : Z) :
  Prim2SF x = S754_finite s m e -> (Zpos m < 2 ^ 53)%Z.
Proof.
  intros E. pose proof (Prim2SF_valid x) as V. rewrite E in V.
  cbn [valid_binary] in V. unfold bounded, canonical_mantissa, fexp in V.
  apply andb_true_iff in V. destruct V as [V _]. apply Z.eqb_eq in V.
  pose proof (digits2_pos_bounds m) as [_ B].
  assert (D : (Zpos (digits2_pos m) <= 53)%Z) by (unfold prec in V; lia).
  apply (Z.lt_le_trans _ _ _ B). apply Z.pow_le_mono_r; lia.
Qed.

(** A mantissa of 53 bits with an exponent in range needs no rounding. *)
Lemma binary_round_aux_exact (m : positive) (e : Z) :
  Zpos (digits2_pos m) = 53%Z -> (-1074 <= e <= 971)%Z ->
  binary_round_aux prec emax false (Zpos m) e loc_Exact
  = S754_finite false m e.
Proof.
  intros D He.
  assert (F : (fexp prec emax (Zdigits2 (Zpos m) + e) - e = 0)%Z).
  { cbn [Zdigits2]. rewrite D. unfold fexp, SpecFloat.emin, prec, emax. lia. }
  unfold binary_round_aux, shr_fexp. rewrite F. cbn [shr shr_record_of_loc].
  cbn [shr_m loc_of_shr_record round_nearest_even].
  rewrite F. cbn [shr shr_m shr_record_of_loc].
  replace (e <=? emax - prec)%Z with true; [reflexivity|].
  symmetry. apply Z.leb_le. unfold emax, prec. lia.
Qed.

Lemma binary_normalize_small (p : positive) :
  (Zpos (digits2_pos p) <= 53)%Z ->
  exists m',
    binary_normalize prec emax (Zpos p) 0 false
    = S754_finite false m' (Zpos (digits2_pos p) - 53) /\
    (Zpos m' = Zpos p * 2 ^ (53 - Zpos (digits2_pos p)))%Z.
Proof.
  intros D. unfold binary_normalize, binary_round.
  assert (F : fexp prec emax (Zpos (digits2_pos p) + 0)
              = (Zpos (digits2_pos p) - 53)%Z)
    by (unfold fexp, SpecFloat.emin, prec, emax; lia).
  rewrite F. unfold shl_align.
  destruct (Zpos (digits2_pos p) - 53 - 0)%Z as [|d|d] eqn:E; try lia.
  - exists p. replace (Zpos (digits2_pos p) - 53)%Z with 0%Z by lia.
    split.
    + apply binary_round_aux_exact; lia.
    + replace (53 - Zpos (digits2_pos p))%Z with 0%Z by lia. lia.
  - exists (Pos.iter xO p d). split.
    + apply binary_round_aux_exact; [|lia].
      rewrite digits2_pos_iter_xO. lia.
    + replace (53 - Zpos (digits2_pos p))%Z with (Zpos d) by lia.
      clear. induction d as [|d IH] using Pos.peano_ind.
      * cbn. lia.
      * rewrite Pos.iter_succ, Pos2Z.inj_succ, Z.pow_succ_r by lia.
        change (Zpos (Pos.iter xO p d)~0) with (2 * Zpos (Pos.iter xO p d))%Z.
        rewrite IH. lia.
Qed.

End Exactness.

Section FloatOrder.

Lemma is_nan_spec (x : float) :
  is_nan x = false <-> Prim2SF x <> S754_nan.
Proof.
  unfold is_nan. rewrite FloatAxioms.eqb_spec. unfold SFeqb. split.
  - intros H E. rewrite E in H. discriminate.
  - intros H. rewrite SFcompare_refl by assumption. reflexivity.
Qed.

Lemma ltb_leb (x y : float) : (x <? y) = true -> (x <=? y) = true.
Proof.
  rewrite FloatAxioms.ltb_spec, FloatAxioms.leb_spec. apply SFltb_SFleb.
Qed.

Lemma leb_not_ltb (x y : float) : (x <=? y) = true -> (y <? x) = false.
Proof.
  rewrite FloatAxioms.ltb_spec, FloatAxioms.leb_spec.
  apply SFleb_not_SFltb.
Qed.

Lemma leb_total (x y : float) :
  is_nan x = false -> is_nan y = false -> (x <? y) = false -> (y <=? x) = true.
Proof.
  rewrite !is_nan_spec, FloatAxioms.ltb_spec, FloatAxioms.leb_spec.
  apply SFleb_total.
Qed.

Lemma leb_trans (x y z : float) :
  (x <=? y) = true -> (y <=? z) = true -> (x <=? z) = true.
Proof. rewrite !FloatAxioms.leb_spec. apply SFleb_trans. Qed.

Lemma leb_not_nan (x y : float) :
  (x <=? y) = true -> is_nan x = false /\ is_nan y = false.
Proof.
  rewrite FloatAxioms.leb_spec, !is_nan_spec. unfold SFleb.
  destruct (Prim2SF x), (Prim2SF y); simpl; try discriminate;
    intros _; split; congruence.
Qed.

(** A number between two finite ones is finite. *)
Lemma between_bounded (lo hi x : float) :
  SFbounded (Prim2SF lo) -> SFbounded (Prim2SF hi) ->
  (lo <=? x) = true -> (x <=? hi) = true -> SFbounded (Prim2SF x).
Proof.
  rewrite !FloatAxioms.leb_spec. unfold SFleb.
  destruct (Prim2SF lo) as [s|s| |s m e]; simpl; try contradiction;
    destruct (Prim2SF hi) as [s'|s'| |s' m' e']; simpl; try contradiction;
    destruct (Prim2SF x) as [t|t| |t n f]; simpl; trivial; try discriminate;
    intros _ _; try (destruct t; discriminate);
    try (destruct s, t; discriminate);
    try (destruct s', t; discriminate);
    try (destruct s, s', t; discriminate).
Qed.

Lemma add_not_nan (x y : float) :
  is_nan x = false -> SFbounded (Prim2SF y) -> is_nan (x + y) = false.
Proof.
  rewrite !is_nan_spec, FloatAxioms.add_spec. apply SFadd_not_nan.
Qed.

End FloatOrder.

Section Builtins.

Lemma of_uint63_not_nan (i : int) : is_nan (of_uint63 i) = false.
Proof.
  apply is_nan_spec. rewrite FloatAxioms.of_uint63_spec.
  apply binary_normalize_not_nan.
Qed.

Lemma opp_not_nan (x : float) : is_nan x = false -> is_nan (- x) = false.
Proof.
  rewrite !is_nan_spec, FloatAxioms.opp_spec.
  destruct (Prim2SF x); simpl; congruence.
Qed.

Lemma of_Z_not_nan (z : Z) : is_nan (of_Z z) = false.
Proof.
  destruct z; simpl.
  - reflexivity.
  - apply of_uint63_not_nan.
  - apply opp_not_nan, of_uint63_not_nan.
Qed.

Lemma Math_round_not_nan (x : float) :
  is_nan x = false -> is_nan (Math_round x) = false.
Proof.
  intros H. unfold Math_round.
  destruct (Prim2SF x) as [s|s| |s m e]; trivial.
  destruct (0 <=? e)%Z; trivial.
  destruct (_ =? 0)%Z.
  - destruct s; reflexivity.
  - apply of_Z_not_nan.
Qed.

Lemma Math_min_100 (r : float) :
  is_nan r = false ->
  is_nan (Math_min 100 r) = false /\ (Math_min 100 r <=? 100) = true.
Proof.
  intros H. unfold Math_min. rewrite H.
  change (is_nan 100 || false) with false. cbv iota.
  destruct (100 <? r) eqn:E1.
  - split; reflexivity.
  - destruct (r <? 100) eqn:E2.
    + split; [exact H | apply ltb_leb, E2].
    + change (get_sign 100) with false. cbv iota.
      split; [exact H | apply leb_total; trivial].
Qed.

Lemma Math_max_0 (m : float) :
  is_nan m = false -> (m <=? 100) = true ->
  (0 <=? Math_max 0 m) = true /\ (Math_max 0 m <=? 100) = true.
Proof.
  intros H H100. unfold Math_max. rewrite H.
  change (is_nan 0 || false) with false. cbv iota.
  destruct (0 <? m) eqn:E1.
  - split; [apply ltb_leb, E1 | exact H100].
  - destruct (m <? 0) eqn:E2.
    + split; reflexivity.
    + change (get_sign 0) with false. cbv iota. split; reflexivity.
Qed.

(** Whatever number comes in, [clamp] lands in [0, 100]. *)
Lemma clamp_bounds (v : float) :
  is_nan v = false ->
  (0 <=? clamp v) = true /\ (clamp v <=? 100) = true.
Proof.
  intros H. unfold clamp.
  destruct (Math_min_100 (Math_round v) (Math_round_not_nan v H)) as [H1 H2].
  apply Math_max_0; assumption.
Qed.

Lemma is_score_In (s : float) : is_score s -> In s scores.
Proof.
  intros (z & Hz & ->). unfold scores.
  rewrite <- (Z2Nat.id z) by lia.
  apply (in_map (fun k => of_Z (Z.of_nat k))), in_seq. lia.
Qed.

(** [clamp] on a rounded value that is at most 0, at least 100. *)
Lemma clamp_low (r : float) :
  (r <=? 0) = true -> Math_max 0 (Math_min 100 r) = 0.
Proof.
  intros H. destruct (leb_not_nan _ _ H) as [Hr _].
  assert (H100 : (100 <? r) = false)
    by (apply leb_not_ltb, (leb_trans r 0 100); [exact H | reflexivity]).
  assert (Hmin : Math_min 100 r = r).
  { unfold Math_min. rewrite Hr, H100.
    change (is_nan 100 || false) with false. cbv iota.
    destruct (r <? 100); reflexivity. }
  rewrite Hmin. unfold Math_max. rewrite Hr, (leb_not_ltb _ _ H).
  change (is_nan 0 || false) with false. cbv iota.
  destruct (r <? 0); reflexivity.
Qed.

Lemma clamp_high (r : float) :
  (100 <=? r) = true -> Math_max 0 (Math_min 100 r) = 100.
Proof.
  intros H. destruct (leb_not_nan _ _ H) as [_ Hr].
  assert (Hmin : Math_min 100 r = 100).
  { unfold Math_min. rewrite Hr, (leb_not_ltb _ _ H).
    change (is_nan 100 || false) with false. cbv iota.
    destruct (100 <? r) eqn:E; [reflexivity|].
    change (get_sign 100) with false. cbv iota.
    apply Prim2SF_inj. rewrite FloatAxioms.leb_spec in H.
    rewrite FloatAxioms.ltb_spec in E. unfold SFleb in H. unfold SFltb in E.
    change (Prim2SF 100)
      with (S754_finite false 7036874417766400 (-46)) in *.
    apply SFcompare_Eq_finite.
    destruct (SFcompare _ (Prim2SF r)) as [[]|]; congruence. }
  rewrite Hmin. reflexivity.
Qed.

Lemma clamp_mid (z : Z) :
  (0 <= z <= 100)%Z -> Math_max 0 (Math_min 100 (of_Z z)) = of_Z z.
Proof.
  intros Hz.
  assert (K : forallb (fun s =>
                PrimFloat.Leibniz.eqb (Math_max 0 (Math_min 100 s)) s)
                scores = true) by (vm_compute; reflexivity).
  rewrite forallb_forall in K.
  apply FloatAxioms.Leibniz.eqb_spec, K, is_score_In.
  exists z. split; [exact Hz | reflexivity].
Qed.

Lemma of_Z_large (n : Z) :
  (100 <= n < 2 ^ 53)%Z -> (100 <=? of_Z n) = true.
Proof.
  intros Hn. destruct n as [|p|p]; try lia. cbn [of_Z].
  rewrite FloatAxioms.leb_spec, FloatAxioms.of_uint63_spec, Uint63.of_Z_spec.
  rewrite Z.mod_small
    by (split; [lia|]; apply (Z.lt_trans _ (2 ^ 53)); [lia | reflexivity]).
  pose proof (digits2_pos_bounds p) as [Blo Bhi].
  pose proof (binary_normalize_small p) as Hsmall.
  set (D := Zpos (digits2_pos p)) in *.
  assert (D0 : (0 < D)%Z) by reflexivity. clearbody D.
  assert (D53 : (D <= 53)%Z).
  { destruct (Z.le_gt_cases D 53) as [|G]; trivial.
    assert ((2 ^ 53 <= 2 ^ (D - 1))%Z) by (apply Z.pow_le_mono_r; lia).
    lia. }
  assert (D7 : (7 <= D)%Z).
  { destruct (Z.le_gt_cases 7 D) as [|G]; trivial.
    assert (H6 : (2 ^ D <= 2 ^ 6)%Z) by (apply Z.pow_le_mono_r; lia).
    change (2 ^ 6)%Z with 64%Z in H6. lia. }
  destruct (Hsmall D53) as (m' & -> & Hm').
  change (Prim2SF 100) with (S754_finite false 7036874417766400 (-46)).
  unfold SFleb, SFcompare.
  destruct (Z.compare_spec (-46) (D - 53)) as [E| |];
    try reflexivity; try lia.
  change (Pos.compare_cont Eq 7036874417766400 m')
    with (Pos.compare 7036874417766400 m').
  destruct (Pos.compare_spec 7036874417766400 m') as [| |G];
    try reflexivity.
  assert (G' : (Zpos m' < 7036874417766400)%Z) by exact G. clear G.
  replace (53 - D)%Z with 46%Z in Hm' by lia.
  change (2 ^ 46)%Z with 70368744177664%Z in Hm'. lia.
Qed.

(** The opposite of a converted natural number is at most 0. *)
Lemma opp_of_uint63_le_0 (i : int) : (- of_uint63 i <=? 0) = true.
Proof.
  rewrite FloatAxioms.leb_spec, FloatAxioms.opp_spec,
          FloatAxioms.of_uint63_spec.
  pose proof (Uint63.to_Z_bounded i) as [B _].
  unfold binary_normalize, binary_round.
  destruct (Uint63.to_Z i) as [|p|p]; try lia; [reflexivity|].
  destruct (shl_align p 0 _) as [mz ez].
  pose proof (binary_round_aux_sign false (Zpos mz) ez loc_Exact) as S.
  pose proof (binary_round_aux_not_nan false (Zpos mz) ez loc_Exact
                (Pos2Z.is_nonneg mz)) as N.
  destruct (binary_round_aux prec emax false (Zpos mz) ez loc_Exact);
    try congruence; subst; reflexivity.
Qed.

(** Every value of [clamp] is an integer from 0 to 100. *)
Lemma clamp_is_score (v : float) : is_nan v = false -> is_score (clamp v).
Proof.
  intros Hv. unfold clamp, Math_round.
  assert (zero_ok : is_score 0) by (exists 0%Z; split; [lia|reflexivity]).
  assert (hundred_ok : is_score 100)
    by (exists 100%Z; split; [lia|reflexivity]).
  assert (low : (v <=? 0) = true -> is_score (Math_max 0 (Math_min 100 v)))
    by (intros L; rewrite (clamp_low v L); exact zero_ok).
  assert (high : (100 <=? v) = true ->
                 is_score (Math_max 0 (Math_min 100 v)))
    by (intros L; rewrite (clamp_high v L); exact hundred_ok).
  rewrite FloatAxioms.leb_spec in low, high.
  change (Prim2SF 0) with (S754_zero false) in low.
  change (Prim2SF 100) with (S754_finite false 7036874417766400 (-46)) in high.
  apply is_nan_spec in Hv.
  destruct (Prim2SF v) as [s|s| |s m e] eqn:E; try congruence.
  - apply low. reflexivity.
  - destruct s; [apply low | apply high]; reflexivity.
  - destruct (Z.leb_spec 0 e) as [He|He].
    + destruct s; [apply low; reflexivity|].
      apply high. unfold SFleb, SFcompare.
      destruct (Z.compare_spec (-46) e); try reflexivity; lia.
    + pose proof (valid_mantissa v s m e E) as Hm.
      set (d := (2 ^ (- e))%Z).
      assert (Hd : (2 <= d)%Z).
      { unfold d. change 2%Z with (2 ^ 1)%Z at 1.
        apply Z.pow_le_mono_r; lia. }
      set (n := ((2 * (if s then Z.neg m else Z.pos m) + d) / (2 * d))%Z).
      assert (Hn : (n < 2 ^ 53)%Z).
      { unfold n. apply Z.div_lt_upper_bound; [lia|].
        destruct s; nia. }
      destruct (Z.eqb_spec n 0) as [_|N0].
      * destruct s; exact zero_ok.
      * destruct (Z_lt_le_dec n 0) as [Neg|Pos'].
        -- destruct n as [|p|p]; try lia. cbn [of_Z].
           rewrite (clamp_low _ (opp_of_uint63_le_0 _)). exact zero_ok.
        -- destruct (Z_le_gt_dec n 100) as [Le|Gt].
           ++ rewrite (clamp_mid n) by lia. exists n. split; [lia|reflexivity].
           ++ rewrite (clamp_high _ (of_Z_large n ltac:(lia))).
              exact hundred_ok.
Qed.

End Builtins.

(** * Properties of the engine *)

(** ** Lending rules on the fixture of the test plan *)

(** C1, as amended: for score 82, classification Severe, property type
    "residential" and any factor list whose flood score is 70 and whose
    sea-level score is 60, [generateLendingAdjustments] returns exactly
    five adjustments in this order: the interest-rate premium "+2.5% p.a."
    (critical), mandatory flood insurance (critical), coastal hazard
    insurance with severity WARNING (a sea score of 60 is not above 70),
    the loan cap "Max 60% LTV" (critical) and enhanced due diligence
    (critical). *)
Theorem lending_fixture_severe (fs : list ClimateFactorScore) :
  scoreOf "Flood Probability" 0 fs = 70 ->
  scoreOf "Sea-Level Rise Exposure" 0 fs = 60 ->
  map summary (generateLendingAdjustments 82 Severe "residential" fs) =
  [ (interest_rate, "Climate Risk Premium", Some "+2.5% p.a.", critical);
    (insurance, "Mandatory Flood Insurance", Some "Mandatory", critical);
    (insurance, "Coastal Hazard Insurance", Some "Required", warning);
    (loan_cap, "Loan-to-Value Cap", Some "Max 60% LTV", critical);
    (enhanced_due_diligence, "Enhanced Climate Due Diligence",
     Some "Required", critical) ].
Proof.
  intros Hflood Hsea. unfold generateLendingAdjustments.
  rewrite Hflood, Hsea. vm_compute. reflexivity.
Qed.

Lemma lending_fixture_severe_witness :
  map summary (generateLendingAdjustments 82 Severe "residential" fixture) =
  [ (interest_rate, "Climate Risk Premium", Some "+2.5% p.a.", critical);
    (insurance, "Mandatory Flood Insurance", Some "Mandatory", critical);
    (insurance, "Coastal Hazard Insurance", Some "Required", warning);
    (loan_cap, "Loan-to-Value Cap", Some "Max 60% LTV", critical);
    (enhanced_due_diligence, "Enhanced Climate Due Diligence",
     Some "Required", critical) ].
Proof.
  apply (lending_fixture_severe fixture); reflexivity.
Defined.

(** C1 as the test plan states it fails on the fixture: the five
    severities are not all critical. *)
Lemma lending_fixture_not_all_critical :
  map (fun a => (type a, severity a))
      (generateLendingAdjustments 82 Severe "residential" fixture) <>
  [ (interest_rate, critical); (insurance, critical); (insurance, critical);
    (loan_cap, critical); (enhanced_due_diligence, critical) ].
Proof. vm_compute. discriminate. Qed.

(** ** The composite score of the report *)

(** C2, as amended: the score stored in the report is the sum of the
    weighted scores of the scorer's four factors (the ones stored in the
    report), rounded to the nearest INTEGER by [Math.round] and clamped
    to [0, 100]; that integer is what the classifier and the lending
    rules receive. *)
Theorem report_score_from_weighted (input : PropertyAssessmentInput)
    (w : World) :
  let r := fst (runClimateAssessment input w) in
  factors r =
    fst (calculateFactorScores (in_latitude input) (in_longitude input)
           (in_property_type input) (snd (Math_random w))) /\
  climate_risk_score r =
    Math_min 100 (Math_max 0 (Math_round
      (fold_left (fun sum f => sum + weighted_score f) (factors r) 0))) /\
  risk_classification r = classifyRisk (climate_risk_score r) /\
  lending_adjustments r =
    generateLendingAdjustments (climate_risk_score r)
      (risk_classification r) (property_type r) (factors r).
Proof.
  unfold runClimateAssessment, bind, ret.
  destruct (Math_random w) as [u0 w1]; cbn [snd].
  destruct (calculateFactorScores _ _ _ w1) as [fs w2]; cbn [fst].
  destruct (generateProjections fs w2) as [ps w3].
  destruct (Math_random w3) as [u w4].
  destruct (toISOString w4) as [d w5].
  cbn. repeat split.
Qed.

(** C2 as stated fails: in Mumbai, with every noise term 0, the weighted
    scores are 27.3, 18.5, 17.5 and 6.8; the report stores 70 and not
    70.1. *)
Lemma report_score_not_round1 :
  map weighted_score (factors mumbai_report) = [27.3; 18.5; 17.5; 6.8] /\
  climate_risk_score mumbai_report = 70 /\
  round1 (fold_left (fun sum f => sum + weighted_score f)
            (factors mumbai_report) 0) = 70.1 /\
  climate_risk_score mumbai_report <>
    round1 (fold_left (fun sum f => sum + weighted_score f)
              (factors mumbai_report) 0).
Proof.
  vm_compute. repeat split.
  intros H. apply (f_equal (fun x => x <? 70.05)) in H.
  vm_compute in H. discriminate.
Qed.

(** ** Region resolver *)

Lemma getRegionProfile_interior (lat lng : float) :
  forallb negb (boxes lat lng) = true ->
  getRegionProfile lat lng = interior lat lng.
Proof.
  unfold boxes, within, getRegionProfile, interior. cbn [forallb].
  rewrite !andb_true_iff, !negb_true_iff.
  intros (H1 & H2 & H3 & H4 & H5 & H6 & H7 & H8 & H9 & _).
  rewrite !andb_assoc in *.
  rewrite H1, H2, H3, H4, H5, H6, H7, H8, H9. reflexivity.
Qed.

(** C3: (12.97, 77.59) lies in none of the nine boxes, the Deccan Plateau
    box (lng 74-80, lat 14-22) among them, and resolves to the default
    "Interior India" profile, whose name carries both coordinates with
    two decimals. *)
Theorem getRegionProfile_bengaluru :
  boxes 12.97 77.59 =
    [false; false; false; false; false; false; false; false; false] /\
  (within 74 80 77.59 && within 14 22 12.97) = false /\
  getRegionProfile 12.97 77.59 =
    {| name := "Location (12.97°N, 77.59°E)";
       region := "Interior India";
       flood_base := 38; sea_level_base := 12; heat_base := 68;
       water_scarcity_base := 55 |}.
Proof. repeat split; vm_compute; reflexivity. Qed.

(** ** Classifier *)

(** C4: [classifyRisk] is the threshold function with boundaries 25, 50
    and 75, each boundary belonging to the band above it; it is a total
    function. *)
Theorem classifyRisk_thresholds :
  (forall s, (s <? 25) = true -> classifyRisk s = Low) /\
  (forall s, (25 <=? s) = true -> (s <? 50) = true ->
             classifyRisk s = Moderate) /\
  (forall s, (50 <=? s) = true -> (s <? 75) = true ->
             classifyRisk s = High) /\
  (forall s, (75 <=? s) = true -> classifyRisk s = Severe) /\
  map classifyRisk [24.9; 25; 49.9; 50; 74.9; 75] =
    [Low; Moderate; Moderate; High; High; Severe].
Proof.
  assert (below : forall a b s : float,
             (a <=? b) = true -> (b <=? s) = true -> (s <? a) = false).
  { intros a b s Hab Hbs. apply leb_not_ltb, (leb_trans a b s); assumption. }
  unfold classifyRisk. repeat split.
  - intros s H. rewrite H. reflexivity.
  - intros s H25 H50.
    rewrite (leb_not_ltb _ _ H25), H50. reflexivity.
  - intros s H50 H75.
    rewrite (below 25 50 s eq_refl H50), (leb_not_ltb _ _ H50), H75.
    reflexivity.
  - intros s H75.
    rewrite (below 25 75 s eq_refl H75), (below 50 75 s eq_refl H75),
            (leb_not_ltb _ _ H75).
    reflexivity.
Qed.

Lemma classifyRisk_thresholds_witness :
  classifyRisk 24.9 = Low /\ classifyRisk 37.5 = Moderate /\
  classifyRisk 62 = High /\ classifyRisk 100 = Severe.
Proof.
  destruct classifyRisk_thresholds as (HL & HM & HH & HS & _).
  split; [apply HL; reflexivity|].
  split; [apply HM; reflexivity|].
  split; [apply HH; reflexivity|apply HS; reflexivity].
Defined.

(** ** Factor scorer: shape and weights *)

(** C5: whatever the coordinates, the property type and the noise source,
    [calculateFactorScores] returns four entries, for flood, sea level,
    heat and water in this order, with weights 0.35, 0.25, 0.25 and 0.15,
    which add up to 1. *)
Theorem calculateFactorScores_weights (lat lng : float)
    (propertyType : string) (w : World) :
  let fs := fst (calculateFactorScores lat lng propertyType w) in
  List.length fs = 4%nat /\
  map factor fs =
    [ "Flood Probability"; "Sea-Level Rise Exposure"; "Heat Stress Index";
      "Water Scarcity Projection" ] /\
  map weight fs = [0.35; 0.25; 0.25; 0.15] /\
  fold_left (fun sum f => sum + weight f) fs 0 = 1.
Proof.
  unfold calculateFactorScores, noise, bind, ret, Math_random.
  cbn [fst snd List.length map fold_left factor weight].
  repeat split.
Qed.

(** ** Projections *)

Lemma scoreOf_is_score (n : string) (fs : list ClimateFactorScore) :
  Forall (fun f => is_score (score f)) fs -> is_score (scoreOf n 50 fs).
Proof.
  intros H. unfold scoreOf.
  destruct (find _ fs) as [f|] eqn:E.
  - apply find_some in E. rewrite Forall_forall in H. apply H, E.
  - exists 50%Z. split; [lia | reflexivity].
Qed.

Lemma generateProjections_nth (fs : list ClimateFactorScore) (w : World)
    (i : nat) :
  (i < 11)%nat ->
  nth_error (fst (generateProjections fs w)) i =
  Some (projectionAt (fullYear w)
          (scoreOf "Flood Probability" 50 fs)
          (scoreOf "Heat Stress Index" 50 fs)
          (scoreOf "Sea-Level Rise Exposure" 50 fs)
          (scoreOf "Water Scarcity Projection" 50 fs) i).
Proof.
  intros Hi. unfold generateProjections, bind, ret, getFullYear. cbn [fst].
  rewrite nth_error_map, nth_error_seq.
  destruct (Nat.ltb_spec i 11) as [_|]; [reflexivity | lia].
Qed.

(** At the start of the horizon the trajectory is the score itself. *)
Lemma curve_start (s : float) :
  is_score s ->
  curve s 18 7 0 = s /\ curve s 15 9 0 = s /\
  curve s 22 5 0 = s /\ curve s 12 6 0 = s.
Proof.
  intros H. apply is_score_In in H.
  assert (K : forallb (fun s =>
                PrimFloat.Leibniz.eqb (curve s 18 7 0) s
                && PrimFloat.Leibniz.eqb (curve s 15 9 0) s
                && PrimFloat.Leibniz.eqb (curve s 22 5 0) s
                && PrimFloat.Leibniz.eqb (curve s 12 6 0) s) scores = true)
    by (vm_compute; reflexivity).
  rewrite forallb_forall in K. specialize (K s H).
  rewrite !andb_true_iff, !FloatAxioms.Leibniz.eqb_spec in K. tauto.
Qed.


(** ** The rounding of [toFixed] and [parseFloat] *)

Section DecimalStrings.



Lemma readDigits_app (A rest : string) (acc : Z) (cnt : nat) :
  all_digits A = true ->
  match rest with String c _ => is_digit c = false | EmptyString => True end ->
  readDigits (A ++ rest) acc cnt
  = (decimal_value A acc, (String.length A + cnt)%nat, rest).
Proof.
  revert acc cnt. induction A as [|c A IH]; intros acc cnt HA Hrest.
  - cbn [append decimal_value String.length]. destruct rest as [|c r].
    + reflexivity.
    + cbn [readDigits]. rewrite Hrest. reflexivity.
  - cbn [all_digits] in HA. apply andb_true_iff in HA. destruct HA as [Hc HA].
    cbn [append readDigits decimal_value String.length]. rewrite Hc.
    rewrite (IH _ _ HA Hrest). f_equal. f_equal. lia.
Qed.

Lemma value_app (A B : string) (acc : Z) :
  decimal_value (A ++ B) acc = decimal_value B (decimal_value A acc).
Proof.
  revert acc. induction A as [|c A IH]; intros acc; cbn; [reflexivity|].
  apply IH.
Qed.

Lemma all_digits_app (A B : string) :
  all_digits (A ++ B) = all_digits A && all_digits B.
Proof.
  induction A as [|c A IH]; cbn; [reflexivity|].
  rewrite IH, andb_assoc. reflexivity.
Qed.

Lemma take_drop (k : nat) (s : string) : take k s ++ drop k s = s.
Proof.
  revert s. induction k as [|k IH]; intros s; [reflexivity|].
  destruct s as [|c s]; [reflexivity|]. cbn. rewrite IH. reflexivity.
Qed.

Lemma length_take (k : nat) (s : string) :
  (k <= String.length s)%nat -> String.length (take k s) = k.
Proof.
  revert s. induction k as [|k IH]; intros s H; [reflexivity|].
  destruct s as [|c s]; cbn in *; [lia|]. rewrite IH; lia.
Qed.

Lemma length_append (A B : string) :
  String.length (A ++ B) = (String.length A + String.length B)%nat.
Proof.
  induction A as [|c A IH]; cbn; [reflexivity | rewrite IH; reflexivity].
Qed.

Lemma zeros_digits (k : nat) (acc : Z) :
  all_digits (zeros k) = true /\ String.length (zeros k) = k /\
  (acc = 0%Z -> decimal_value (zeros k) acc = 0%Z).
Proof.
  induction k as [|k (IH1 & IH2 & IH3)]; cbn; [tauto|].
  repeat split; [exact IH1 | lia |]. intros ->. apply IH3. reflexivity.
Qed.


Lemma string_of_uint_digits (d : Decimal.uint) (acc : Z) :
  all_digits (NilEmpty.string_of_uint d) = true /\
  decimal_value (NilEmpty.string_of_uint d) acc = uint_value d acc.
Proof.
  revert acc. induction d as [|d IH|d IH|d IH|d IH|d IH|d IH|d IH|d IH|d IH
                              |d IH]; intros acc;
    cbn [NilEmpty.string_of_uint all_digits decimal_value uint_value];
    [split; reflexivity|..].
  all: split; [apply (IH 0%Z)|].
  all: match goal with
       | |- decimal_value _ ?a = uint_value _ ?b =>
           replace a with b by (cbn; lia); apply IH
       end.
Qed.

Lemma of_uint_acc_value (d : Decimal.uint) (acc : positive) :
  Zpos (Pos.of_uint_acc d acc) = uint_value d (Zpos acc).
Proof.
  revert acc. induction d; intros acc; cbn [Pos.of_uint_acc uint_value];
    [reflexivity|..]; rewrite IHd; f_equal; lia.
Qed.

Lemma of_uint_value (d : Decimal.uint) :
  Z.of_N (Pos.of_uint d) = uint_value d 0.
Proof.
  induction d; cbn [Pos.of_uint uint_value]; [reflexivity | exact IHd |..];
    cbn [Z.of_N]; rewrite of_uint_acc_value; reflexivity.
Qed.

Lemma digits_value (n : Z) :
  (0 <= n)%Z ->
  all_digits (JS.digits n) = true /\ decimal_value (JS.digits n) 0 = n /\
  (1 <= String.length (JS.digits n))%nat.
Proof.
  intros Hn. unfold JS.digits.
  pose proof (DecimalN.Unsigned.of_to (Z.to_N n)) as E.
  unfold N.of_uint in E.
  pose proof (of_uint_value (N.to_uint (Z.to_N n))) as V.
  rewrite E, Z2N.id in V by exact Hn.
  destruct (N.to_uint (Z.to_N n)) as [|d|d|d|d|d|d|d|d|d|d] eqn:D.
  1: { cbn in *. subst n. repeat split; lia. }
  all: unfold NilZero.string_of_uint;
    destruct (string_of_uint_digits (N.to_uint (Z.to_N n)) 0) as [H1 H2];
    rewrite D in H1, H2; repeat split;
    [exact H1 | rewrite H2; symmetry; exact V | cbn; lia].
Qed.

End DecimalStrings.

Section RoundTrip.

Lemma digit_head (a : ascii) (rest : string) :
  is_digit a = true ->
  trimStart (String a rest) = String a rest /\
  readSign (String a rest) = (false, String a rest) /\
  startsWith "Infinity" (String a rest) = false.
Proof.
  destruct a as [[] [] [] [] [] [] [] []]; intros H;
    try discriminate H; repeat split.
Qed.

(** [fixedDigits n 1] is digits, a point and one digit, and reads back
    as [n]. *)
Lemma fixedDigits_shape (n : Z) :
  (0 <= n)%Z ->
  exists a A b,
    fixedDigits n 1 = String a A ++ "." ++ String b "" /\
    is_digit a = true /\ all_digits A = true /\ is_digit b = true /\
    decimal_value (String a A ++ String b "") 0 = n.
Proof.
  intros Hn. destruct (digits_value n Hn) as (D1 & D2 & D3).
  unfold fixedDigits.
  set (m := JS.digits n) in *.
  set (m' := zeros (2 - String.length m) ++ m).
  assert (M1 : all_digits m' = true).
  { unfold m'. rewrite all_digits_app, D1.
    destruct (zeros_digits (2 - String.length m) 0) as (Z1 & _). rewrite Z1.
    reflexivity. }
  assert (M2 : decimal_value m' 0 = n).
  { unfold m'. rewrite value_app.
    destruct (zeros_digits (2 - String.length m) 0) as (_ & _ & Z3).
    rewrite Z3 by reflexivity. exact D2. }
  assert (M3 : (2 <= String.length m')%nat).
  { unfold m'. rewrite length_append.
    destruct (zeros_digits (2 - String.length m) 0) as (_ & Z2 & _).
    rewrite Z2. lia. }
  clearbody m'. clear m D1 D2 D3.
  set (k := String.length m') in *.
  pose proof (take_drop (k - 1) m') as TD.
  assert (LT : String.length (take (k - 1) m') = (k - 1)%nat)
    by (apply length_take; unfold k; lia).
  assert (LD : String.length (drop (k - 1) m') = 1%nat).
  { apply (f_equal String.length) in TD. rewrite length_append, LT in TD.
    fold k in TD. lia. }
  destruct (take (k - 1) m') as [|a A] eqn:ET; [cbn in LT; lia|].
  destruct (drop (k - 1) m') as [|b [|? ?]] eqn:ED; try (cbn in LD; lia).
  rewrite <- TD in M1, M2.
  rewrite all_digits_app in M1. apply andb_true_iff in M1.
  destruct M1 as [MA MB]. cbn [all_digits] in MA, MB.
  apply andb_true_iff in MA. destruct MA as [Ma MA].
  apply andb_true_iff in MB. destruct MB as [Mb _].
  exists a, A, b. repeat split; assumption.
Qed.

Lemma parseFloat_fixedDigits (neg : bool) (n : Z) :
  (0 <= n)%Z ->
  parseFloat ((if neg then "-" else "") ++ fixedDigits n 1) =
  match n with
  | Zpos p => SF2Prim (decimalToSF neg p (-1))
  | _ => if neg then PrimFloat.neg_zero else 0
  end.
Proof.
  intros Hn.
  destruct (fixedDigits_shape n Hn) as (a & A & b & E & Ha & HA & Hb & V).
  rewrite E. clear E.
  set (rest := String "." (String b "")).
  change (String a A ++ "." ++ String b "") with (String a (A ++ rest)).
  destruct (digit_head a (A ++ rest) Ha) as (T & S & I).
  assert (P : readSign (trimStart ((if neg then "-" else "")
                                   ++ String a (A ++ rest)))
              = (neg, String a (A ++ rest))).
  { destruct neg.
    - reflexivity.
    - change ("" ++ String a (A ++ rest)) with (String a (A ++ rest)).
      rewrite T, S. reflexivity. }
  unfold parseFloat. rewrite P, I.
  assert (R1 : readDigits (String a (A ++ rest)) 0 0
               = (decimal_value (String a A) 0,
                  (String.length (String a A) + 0)%nat, rest)).
  { apply (readDigits_app (String a A) rest 0 0).
    - cbn [all_digits]. rewrite Ha, HA. reflexivity.
    - reflexivity. }
  rewrite R1. unfold rest.
  assert (R2 : readDigits (String b "") (decimal_value (String a A) 0) 0
               = (decimal_value (String b "") (decimal_value (String a A) 0),
                  1%nat, "")).
  { apply (readDigits_app (String b "") "" _ 0).
    - cbn [all_digits]. rewrite Hb. reflexivity.
    - exact Logic.I. }
  rewrite R2. rewrite <- value_app, V.
  cbn [String.length Nat.add]. cbn [readExponent].
  destruct n; reflexivity.
Qed.

End RoundTrip.

(** [round1] rounds to one decimal, for every number below 10^21 in
    magnitude. *)
Lemma round1_rounds (x : float) : plain x -> round1 x = round_1_decimal x.
Proof.
  unfold plain, round1, round_1_decimal, toFixed.
  destruct (Prim2SF x) as [s|s| |s m e] eqn:E; intros P.
  - reflexivity.
  - assert (X : x = if s then PrimFloat.neg_infinity else PrimFloat.infinity)
      by (apply Prim2SF_inj; rewrite E; destruct s; reflexivity).
    rewrite X. destruct s; reflexivity.
  - assert (X : x = PrimFloat.nan)
      by (apply Prim2SF_inj; rewrite E; reflexivity).
    rewrite X. reflexivity.
  - unfold nearest_tenths. change (10 ^ Z.of_nat 1)%Z with 10%Z.
    destruct (0 <=? e)%Z eqn:He.
    + specialize (P eq_refl).
      assert (L : (10 ^ 21 <=? Zpos m * 2 ^ e)%Z = false)
        by (apply Z.leb_gt; exact P).
      rewrite L.
      assert (N : ((20 * (Zpos m * 2 ^ e) + 1) / (2 * 1)
                   = Zpos m * 2 ^ e * 10)%Z).
      { symmetry. apply (Z.div_unique _ _ _ 1); lia. }
      rewrite N.
      assert (Hn : (0 <= Zpos m * 2 ^ e * 10)%Z).
      { apply Z.leb_le in He.
        pose proof (Z.pow_pos_nonneg 2 e ltac:(lia) He). nia. }
      rewrite (parseFloat_fixedDigits s _ Hn).
      destruct (Zpos m * 2 ^ e * 10)%Z; reflexivity.
    + assert (D : (0 < 2 ^ (- e))%Z)
        by (apply Z.leb_gt in He; apply Z.pow_pos_nonneg; lia).
      replace (2 * Zpos m * 10 + 2 ^ (- e))%Z
        with (20 * Zpos m + 2 ^ (- e))%Z by lia.
      assert (Hn : (0 <= (20 * Zpos m + 2 ^ (- e)) / (2 * 2 ^ (- e)))%Z)
        by (apply Z.div_pos; lia).
      rewrite (parseFloat_fixedDigits s _ Hn).
      destruct ((20 * Zpos m + 2 ^ (- e)) / (2 * 2 ^ (- e)))%Z; reflexivity.
Qed.

Lemma plain_between (c : float) :
  (-1e21 <? c) = true -> (c <? 1e21) = true -> plain c.
Proof.
  intros Hlo Hhi. unfold plain.
  destruct (Prim2SF c) as [s|s| |s m e] eqn:E; trivial.
  intros He. apply Z.leb_le in He.
  pose proof (valid_mantissa c s m e E) as Hm.
  rewrite FloatAxioms.ltb_spec in Hlo, Hhi. unfold SFltb in Hlo, Hhi.
  rewrite E in Hlo, Hhi.
  change (Prim2SF 1e21) with (S754_finite false 7629394531250000 17) in Hhi.
  change (Prim2SF (-1e21)) with (S754_finite true 7629394531250000 17) in Hlo.
  assert (B : (e < 17)%Z \/ (e = 17%Z /\ (m < 7629394531250000)%positive)).
  { destruct s; cbn [SFcompare] in Hlo, Hhi.
    - destruct (17 ?= e)%Z eqn:C1.
      + right. apply Z.compare_eq in C1. split; [symmetry; exact C1|].
        destruct (Pos.compare_cont Eq 7629394531250000 m) eqn:C;
          try discriminate Hlo.
        apply Pos.compare_gt_iff. exact C.
      + discriminate Hlo.
      + left. apply Z.compare_gt_iff in C1. exact C1.
    - destruct (e ?= 17)%Z eqn:C1.
      + right. apply Z.compare_eq in C1. split; [exact C1|].
        destruct (Pos.compare_cont Eq m 7629394531250000) eqn:C;
          try discriminate Hhi.
        exact C.
      + left. exact C1.
      + discriminate Hhi. }
  clear Hlo Hhi E.
  destruct B as [L | [-> L]].
  - apply (Z.lt_trans _ (2 ^ 53 * 2 ^ 16)); [|reflexivity].
    apply (Z.le_lt_trans _ (Zpos m * 2 ^ 16)).
    + apply Z.mul_le_mono_nonneg_l; [apply Pos2Z.is_nonneg|].
      apply Z.pow_le_mono_r; lia.
    + apply Z.mul_lt_mono_pos_r; [reflexivity | exact Hm].
  - assert (L' : (Zpos m < Zpos 7629394531250000)%Z) by exact L.
    clear L.
    apply (Z.lt_le_trans _ (Zpos 7629394531250000 * 2 ^ 17)).
    + apply Z.mul_lt_mono_pos_r; [reflexivity | exact L'].
    + apply Z.leb_le. vm_compute. reflexivity.
Qed.

Section Magnitude.

Lemma shr_1_halves (r : shr_record) :
  (0 <= shr_m r)%Z -> (2 * shr_m (shr_1 r) <= shr_m r)%Z.
Proof.
  destruct r as [m r s]; simpl.
  destruct m as [|[p|p|]|[p|p|]]; simpl; lia.
Qed.

Lemma iter_pos_shr_1_halves (p : positive) :
  forall r, (0 <= shr_m r)%Z ->
            (2 ^ Zpos p * shr_m (SpecFloat.iter_pos shr_1 p r) <= shr_m r)%Z.
Proof.
  induction p as [p IH|p IH|]; simpl SpecFloat.iter_pos; intros r H.
  - pose proof (shr_1_halves r H) as H1.
    pose proof (shr_1_nonneg r H) as N1.
    pose proof (IH _ N1) as H2.
    pose proof (iter_pos_shr_1_nonneg p _ N1) as N2.
    pose proof (IH _ N2) as H3.
    pose proof (iter_pos_shr_1_nonneg p _ N2) as N3.
    replace (Zpos p~1) with (Zpos p + (Zpos p + 1))%Z by lia.
    rewrite !Z.pow_add_r by lia. change (2 ^ 1)%Z with 2%Z.
    assert (P : (0 < 2 ^ Zpos p)%Z) by (apply Z.pow_pos_nonneg; lia).
    set (a := (2 ^ Zpos p)%Z) in *. clearbody a.
    set (m3 := shr_m (SpecFloat.iter_pos shr_1 p
                        (SpecFloat.iter_pos shr_1 p (shr_1 r)))) in *.
    clearbody m3.
    set (m2 := shr_m (SpecFloat.iter_pos shr_1 p (shr_1 r))) in *.
    clearbody m2.
    set (m1 := shr_m (shr_1 r)) in *. clearbody m1.
    replace (a * (a * 2) * m3)%Z with (2 * (a * (a * m3)))%Z by ring.
    apply (Z.le_trans _ (2 * m1)); [|exact H1].
    apply Z.mul_le_mono_nonneg_l; [lia|].
    apply (Z.le_trans _ (a * m2)); [|exact H2].
    apply Z.mul_le_mono_nonneg_l; lia.
  - pose proof (IH r H) as H1.
    pose proof (iter_pos_shr_1_nonneg p r H) as N1.
    pose proof (IH _ N1) as H2.
    pose proof (iter_pos_shr_1_nonneg p _ N1) as N2.
    replace (Zpos p~0) with (Zpos p + Zpos p)%Z by lia.
    rewrite Z.pow_add_r by lia.
    assert (P : (0 < 2 ^ Zpos p)%Z) by (apply Z.pow_pos_nonneg; lia).
    set (a := (2 ^ Zpos p)%Z) in *. clearbody a.
    set (m2 := shr_m (SpecFloat.iter_pos shr_1 p
                        (SpecFloat.iter_pos shr_1 p r))) in *.
    clearbody m2.
    set (m1 := shr_m (SpecFloat.iter_pos shr_1 p r)) in *. clearbody m1.
    apply (Z.le_trans _ (a * m1)); [|exact H1].
    rewrite <- Z.mul_assoc. apply Z.mul_le_mono_nonneg_l; lia.
  - change (2 ^ 1)%Z with 2%Z. apply shr_1_halves, H.
Qed.

(** A number below [2 ^ d] has at most [d] binary digits. *)
Lemma Zdigits2_le (m d : Z) :
  (0 <= m < 2 ^ d)%Z -> (0 <= d)%Z -> (Zdigits2 m <= d)%Z.
Proof.
  intros [H0 H1] Hd. destruct m as [|p|p]; cbn [Zdigits2]; try lia.
  pose proof (digits2_pos_bounds p) as [B _].
  assert (L : (2 ^ (Zpos (digits2_pos p) - 1) < 2 ^ d)%Z) by lia.
  apply Z.pow_lt_mono_r_iff in L; lia.
Qed.

Lemma shr_fexp_exponent (m e : Z) (l : location) :
  (0 <= m)%Z ->
  snd (shr_fexp prec emax m e l)
  = Z.max e (fexp prec emax (Zdigits2 m + e)) /\
  (2 ^ (snd (shr_fexp prec emax m e l) - e)
   * shr_m (fst (shr_fexp prec emax m e l)) <= m)%Z.
Proof.
  intros H. unfold shr_fexp, shr.
  assert (H0 : shr_m (shr_record_of_loc m l) = m)
    by (destruct l as [|[]]; reflexivity).
  destruct (fexp prec emax (Zdigits2 m + e) - e)%Z as [|n|n] eqn:E;
    cbn [fst snd].
  - split; [lia|]. rewrite Z.sub_diag, H0, Z.pow_0_r. lia.
  - split; [lia|]. replace (e + Zpos n - e)%Z with (Zpos n) by lia.
    rewrite <- H0 at 2. apply iter_pos_shr_1_halves. lia.
  - split; [lia|]. rewrite Z.sub_diag, H0, Z.pow_0_r. lia.
Qed.

Lemma round_nearest_even_le (m : Z) (l : location) :
  (round_nearest_even m l <= m + 1)%Z.
Proof.
  destruct l as [|[]]; simpl; try lia. destruct (Z.even m); lia.
Qed.

(** Rounding [m * 2 ^ e], for [m] below [2 ^ d], gives a zero or a finite
    number whose exponent the magnitude bounds. *)
Lemma binary_round_aux_exponent (s : bool) (m e d b : Z) (l : location) :
  (0 <= m < 2 ^ d)%Z -> (0 <= d)%Z ->
  (e <= b)%Z -> (d + e - 52 <= b)%Z -> (-1074 <= b <= 971)%Z ->
  match binary_round_aux prec emax s m e l with
  | S754_zero _ => True
  | S754_finite _ _ e' => (e' <= b)%Z
  | _ => False
  end.
Proof.
  intros [H0 H1] Hd He Hb Hr. unfold binary_round_aux.
  pose proof (shr_fexp_exponent m e l H0) as [X1 X2].
  pose proof (shr_fexp_nonneg m e l H0) as N1.
  destruct (shr_fexp prec emax m e l) as [r1 e1]; cbn [fst snd] in *.
  set (m1 := round_nearest_even (shr_m r1) (loc_of_shr_record r1)).
  assert (N2 : (0 <= m1)%Z) by (apply round_nearest_even_nonneg, N1).
  pose proof (round_nearest_even_le (shr_m r1) (loc_of_shr_record r1)) as U.
  fold m1 in U.
  pose proof (shr_fexp_exponent m1 e1 loc_Exact N2) as [Y1 _].
  pose proof (shr_fexp_nonneg m1 e1 loc_Exact N2) as N3.
  destruct (shr_fexp prec emax m1 e1 loc_Exact) as [r2 e2];
    cbn [fst snd] in *.
  pose proof (Zdigits2_le m d (conj H0 H1) Hd) as D0.
  assert (E1 : (e1 <= b)%Z).
  { rewrite X1. unfold fexp, SpecFloat.emin, prec, emax. lia. }
  assert (E0 : (e <= e1)%Z) by lia.
  (* the digits of the rounded mantissa *)
  assert (D1 : (Zdigits2 m1 + e1 <= Z.max (d + e + 1) (e1 + 1))%Z).
  { destruct (Z.le_gt_cases (e1 - e) d) as [C|C].
    - assert (J : (shr_m r1 < 2 ^ (d - (e1 - e)))%Z).
      { assert (P : (0 < 2 ^ (e1 - e))%Z) by (apply Z.pow_pos_nonneg; lia).
        assert (Q : (2 ^ d = 2 ^ (e1 - e) * 2 ^ (d - (e1 - e)))%Z).
        { rewrite <- Z.pow_add_r by lia. f_equal. lia. }
        rewrite Q in H1.
        set (a := (2 ^ (e1 - e))%Z) in *. clearbody a.
        set (c := (2 ^ (d - (e1 - e)))%Z) in *. clearbody c. nia. }
      assert (K : (Zdigits2 m1 <= d - (e1 - e) + 1)%Z).
      { apply Zdigits2_le; [|lia]. split; [exact N2|].
        rewrite Z.pow_add_r by lia. change (2 ^ 1)%Z with 2%Z.
        assert (P : (0 < 2 ^ (d - (e1 - e)))%Z)
          by (apply Z.pow_pos_nonneg; lia).
        lia. }
      lia.
    - assert (J : (shr_m r1 < 1)%Z).
      { assert (P : (2 ^ d <= 2 ^ (e1 - e))%Z)
          by (apply Z.pow_le_mono_r; lia).
        assert (P0 : (0 < 2 ^ d)%Z) by (apply Z.pow_pos_nonneg; lia).
        set (a := (2 ^ (e1 - e))%Z) in *. clearbody a.
        set (c := (2 ^ d)%Z) in *. clearbody c. nia. }
      assert (K : (Zdigits2 m1 <= 1)%Z).
      { apply Zdigits2_le; [|lia]. change (2 ^ 1)%Z with 2%Z. lia. }
      lia. }
  assert (E2 : (e2 <= b)%Z).
  { rewrite Y1. unfold fexp, SpecFloat.emin, prec, emax. lia. }
  destruct (shr_m r2) as [|p|p]; [trivial| |lia].
  replace (e2 <=? emax - prec)%Z with true; [exact E2|].
  symmetry. apply Z.leb_le. unfold emax, prec. lia.
Qed.

Lemma iter_xO_value (p d : positive) :
  (Zpos (Pos.iter xO p d) = Zpos p * 2 ^ Zpos d)%Z.
Proof.
  induction d as [|d IH] using Pos.peano_ind.
  - cbn. lia.
  - rewrite Pos.iter_succ, Pos2Z.inj_succ, Z.pow_succ_r by lia.
    change (Zpos (Pos.iter xO p d)~0) with (2 * Zpos (Pos.iter xO p d))%Z.
    rewrite IH. lia.
Qed.

Lemma shl_align_value (m : positive) (e e' : Z) :
  (e' <= e)%Z ->
  shl_align m e e' = (fst (shl_align m e e'), e') /\
  (Zpos (fst (shl_align m e e')) = Zpos m * 2 ^ (e - e'))%Z.
Proof.
  intros H. unfold shl_align.
  destruct (e' - e)%Z as [|d|d] eqn:E; try lia; cbn [fst].
  - assert (e' = e) by lia. subst e'. rewrite Z.sub_diag. split;
      [reflexivity | cbn; lia].
  - split; [reflexivity|]. rewrite iter_xO_value. f_equal. f_equal. lia.
Qed.

Lemma binary_round_exponent (s : bool) (m : positive) (e d b : Z) :
  (Zpos m < 2 ^ d)%Z -> (0 <= d)%Z ->
  (d + e - 52 <= b)%Z -> (-1074 <= b <= 971)%Z ->
  match binary_round prec emax s m e with
  | S754_zero _ => True
  | S754_finite _ _ e' => (e' <= b)%Z
  | _ => False
  end.
Proof.
  intros H Hd Hb Hr. unfold binary_round.
  pose proof (Zdigits2_le (Zpos m) d (conj (Pos2Z.is_nonneg m) H) Hd) as D.
  cbn [Zdigits2] in D.
  set (f := fexp prec emax (Zpos (digits2_pos m) + e)).
  assert (F : (f <= b)%Z)
    by (unfold f, fexp, SpecFloat.emin, prec, emax; lia).
  destruct (Z.le_gt_cases f e) as [C|C].
  - destruct (shl_align_value m e f C) as [A V].
    set (mz := fst (shl_align m e f)) in *. clearbody mz. rewrite A.
    apply (binary_round_aux_exponent s (Zpos mz) f (d + (e - f)) b);
      try lia.
    split; [lia|]. rewrite V, Z.pow_add_r by lia.
    apply Z.mul_lt_mono_pos_r; [apply Z.pow_pos_nonneg; lia | exact H].
  - assert (A : shl_align m e f = (m, e)).
    { unfold shl_align. destruct (f - e)%Z eqn:E; try lia; reflexivity. }
    rewrite A.
    apply (binary_round_aux_exponent s (Zpos m) e d b); lia.
Qed.

Lemma binary_normalize_exponent (m e d b : Z) (sz : bool) :
  (Z.abs m < 2 ^ d)%Z -> (0 <= d)%Z ->
  (d + e - 52 <= b)%Z -> (-1074 <= b <= 971)%Z ->
  match binary_normalize prec emax m e sz with
  | S754_zero _ => True
  | S754_finite _ _ e' => (e' <= b)%Z
  | _ => False
  end.
Proof.
  intros H Hd Hb Hr. unfold binary_normalize.
  destruct m as [|p|p]; [trivial| |];
    apply (binary_round_exponent _ p e d b); trivial.
Qed.

(** The sum of two numbers of exponent at most [k] has exponent at most
    [k + 2]. *)
Lemma add_exponent_le (k : Z) (a b : float) :
  (-1074 <= k + 2 <= 971)%Z ->
  exponent_le k a = true -> exponent_le k b = true ->
  exponent_le (k + 2) (a + b) = true.
Proof.
  intros Hk. unfold exponent_le. rewrite FloatAxioms.add_spec.
  unfold SF64add.
  pose proof (valid_mantissa a) as Va. pose proof (valid_mantissa b) as Vb.
  destruct (Prim2SF a) as [sa|sa| |sa ma ea],
           (Prim2SF b) as [sb|sb| |sb mb eb];
    try discriminate; intros Ha Hb; cbn [SFadd].
  - destruct sa, sb; reflexivity.
  - apply Z.leb_le in Hb. apply Z.leb_le. lia.
  - apply Z.leb_le in Ha. apply Z.leb_le. lia.
  - apply Z.leb_le in Ha, Hb.
    specialize (Va _ _ _ eq_refl). specialize (Vb _ _ _ eq_refl).
    set (ez := Z.min ea eb).
    destruct (shl_align_value ma ea ez ltac:(unfold ez; lia)) as [_ A].
    destruct (shl_align_value mb eb ez ltac:(unfold ez; lia)) as [_ B].
    set (xa := fst (shl_align ma ea ez)) in *. clearbody xa.
    set (xb := fst (shl_align mb eb ez)) in *. clearbody xb.
    set (d := (54 + Z.max ea eb - ez)%Z).
    assert (M : (Z.abs (cond_Zopp sa (Zpos xa) + cond_Zopp sb (Zpos xb))
                 < 2 ^ d)%Z).
    { assert (Pa : (Zpos xa < 2 ^ (d - 1))%Z).
      { rewrite A. apply (Z.lt_le_trans _ (2 ^ 53 * 2 ^ (ea - ez))).
        - apply Z.mul_lt_mono_pos_r;
            [apply Z.pow_pos_nonneg; unfold ez; lia | exact Va].
        - rewrite <- Z.pow_add_r by (unfold ez; lia).
          apply Z.pow_le_mono_r; unfold d, ez; lia. }
      assert (Pb : (Zpos xb < 2 ^ (d - 1))%Z).
      { rewrite B. apply (Z.lt_le_trans _ (2 ^ 53 * 2 ^ (eb - ez))).
        - apply Z.mul_lt_mono_pos_r;
            [apply Z.pow_pos_nonneg; unfold ez; lia | exact Vb].
        - rewrite <- Z.pow_add_r by (unfold ez; lia).
          apply Z.pow_le_mono_r; unfold d, ez; lia. }
      assert (Q : (2 ^ d = 2 * 2 ^ (d - 1))%Z).
      { rewrite <- Z.pow_succ_r by (unfold d, ez; lia). f_equal. lia. }
      rewrite Q. set (c := (2 ^ (d - 1))%Z) in *. clearbody c.
      destruct sa, sb; cbn [cond_Zopp]; lia. }
    pose proof (binary_normalize_exponent _ ez d (k + 2) false M) as R.
    destruct (binary_normalize prec emax _ ez false) as [s|s| |s m e];
      try (exfalso; apply R; unfold d, ez; lia); [reflexivity|].
    apply Z.leb_le. apply R; unfold d, ez; lia.
Qed.

Lemma exponent_le_plain (k : Z) (x : float) :
  (k <= 16)%Z -> exponent_le k x = true -> plain x.
Proof.
  intros Hk. unfold exponent_le, plain.
  pose proof (valid_mantissa x) as V.
  destruct (Prim2SF x) as [s|s| |s m e]; trivial.
  intros H He. apply Z.leb_le in H, He. specialize (V _ _ _ eq_refl).
  apply (Z.lt_trans _ (2 ^ 53 * 2 ^ 16)); [|reflexivity].
  apply (Z.le_lt_trans _ (Zpos m * 2 ^ 16)).
  - apply Z.mul_le_mono_nonneg_l; [apply Pos2Z.is_nonneg|].
    apply Z.pow_le_mono_r; lia.
  - apply Z.mul_lt_mono_pos_r; [reflexivity | exact V].
Qed.

End Magnitude.

Lemma exponent_le_weaken (k k' : Z) (x : float) :
  (k <= k')%Z -> exponent_le k x = true -> exponent_le k' x = true.
Proof.
  intros Hk. unfold exponent_le.
  destruct (Prim2SF x) as [s|s| |s m e]; trivial.
  intros H. apply Z.leb_le in H. apply Z.leb_le. lia.
Qed.

Lemma curves_small_scores (i : nat) (s : float) :
  (i < 11)%nat -> is_score s -> curves_small i s = true.
Proof.
  intros Hi Hs. apply is_score_In in Hs.
  assert (K : forallb (fun i => forallb (curves_small i) scores) (seq 0 11)
              = true) by (vm_compute; reflexivity).
  rewrite forallb_forall in K.
  assert (I : In i (seq 0 11)) by (apply in_seq; lia).
  specialize (K i I). rewrite forallb_forall in K. exact (K s Hs).
Qed.

(** On scores of the data model every number [generateProjections] rounds
    is below 10^21 in magnitude. *)
Lemma curves_plain (i : nat) (sf sh ss sw : float) :
  (i < 11)%nat ->
  is_score sf -> is_score sh -> is_score ss -> is_score sw ->
  plain (curve sf 18 7 i) /\ plain (curve sh 15 9 i) /\
  plain (curve ss 22 5 i) /\ plain (curve sw 12 6 i) /\
  plain (curve sf 18 7 i * 0.35 + curve ss 22 5 i * 0.25
         + curve sh 15 9 i * 0.25 + curve sw 12 6 i * 0.15).
Proof.
  intros Hi Hf Hh Hs Hw.
  pose proof (curves_small_scores i sf Hi Hf) as Kf.
  pose proof (curves_small_scores i sh Hi Hh) as Kh.
  pose proof (curves_small_scores i ss Hi Hs) as Ks.
  pose proof (curves_small_scores i sw Hi Hw) as Kw.
  unfold curves_small in Kf, Kh, Ks, Kw.
  rewrite !andb_true_iff in Kf, Kh, Ks, Kw.
  destruct Kf as (((((((F1 & F2) & _) & _) & _) & _) & _) & _).
  destruct Kh as (((((((_ & _) & H1) & H2) & _) & _) & _) & _).
  destruct Ks as (((((((_ & _) & _) & _) & S1) & S2) & _) & _).
  destruct Kw as (((((((_ & _) & _) & _) & _) & _) & W1) & W2).
  repeat split; try (eapply exponent_le_plain; [|eassumption]; lia).
  apply (exponent_le_plain (-34)); [lia|].
  apply (add_exponent_le (-36)); [lia| |].
  - apply (add_exponent_le (-38)); [lia| |].
    + apply (exponent_le_weaken (-38)); [lia|].
      apply (add_exponent_le (-40)); [lia | exact F2 | exact S2].
    + apply (exponent_le_weaken (-40)); [lia | exact H2].
  - apply (exponent_le_weaken (-40)); [lia | exact W2].
Qed.
(** C6: [generateProjections] returns 11 points; point [i] is dated
    [currentYear + 2i], carries each hazard's
    [min(100, base + t*rate1 + t^2*rate2)] at [t = i/10] rounded to one
    decimal, with rates (18,7) for flood, (15,9) for heat, (22,5) for sea
    and (12,6) for water and [base] the score of the input factor of that
    name, and the weighted sum 0.35 flood + 0.25 sea + 0.25 heat + 0.15
    water of these (unrounded) hazard values rounded to one decimal.  For
    scores of the data model, the composite of point 0 is the weighted
    sum of the input scores rounded to one decimal.  The rounding is the
    one of the specification: on every number below 10^21 in magnitude
    [round1] yields the multiple of 1/10 nearest to it, a tie going away
    from zero, as the nearest number of the machine; and for scores of the
    data model every value of every point is its formula rounded so. *)
Theorem generateProjections_formula (fs : list ClimateFactorScore)
    (w : World) (ff fh fsea fw : ClimateFactorScore) :
  find (named "Flood Probability") fs = Some ff ->
  find (named "Heat Stress Index") fs = Some fh ->
  find (named "Sea-Level Rise Exposure") fs = Some fsea ->
  find (named "Water Scarcity Projection") fs = Some fw ->
  let ps := fst (generateProjections fs w) in
  List.length ps = 11%nat /\
  (forall i, (i < 11)%nat ->
     nth_error ps i =
     Some {| year := (fullYear w + 2 * Z.of_nat i)%Z;
             flood_risk := round1 (curve (score ff) 18 7 i);
             heat_stress := round1 (curve (score fh) 15 9 i);
             sea_level_rise := round1 (curve (score fsea) 22 5 i);
             water_scarcity := round1 (curve (score fw) 12 6 i);
             composite_risk :=
               round1 (curve (score ff) 18 7 i * 0.35
                       + curve (score fsea) 22 5 i * 0.25
                       + curve (score fh) 15 9 i * 0.25
                       + curve (score fw) 12 6 i * 0.15) |}) /\
  (is_score (score ff) -> is_score (score fh) ->
   is_score (score fsea) -> is_score (score fw) ->
   option_map composite_risk (nth_error ps 0) =
   Some (round1 (score ff * 0.35 + score fsea * 0.25
                 + score fh * 0.25 + score fw * 0.15))) /\
  (forall c : float,
     (-1e21 <? c) = true -> (c <? 1e21) = true ->
     round1 c = round_1_decimal c) /\
  (is_score (score ff) -> is_score (score fh) ->
   is_score (score fsea) -> is_score (score fw) ->
   forall i, (i < 11)%nat ->
     nth_error ps i =
     Some {| year := (fullYear w + 2 * Z.of_nat i)%Z;
             flood_risk := round_1_decimal (curve (score ff) 18 7 i);
             heat_stress := round_1_decimal (curve (score fh) 15 9 i);
             sea_level_rise := round_1_decimal (curve (score fsea) 22 5 i);
             water_scarcity := round_1_decimal (curve (score fw) 12 6 i);
             composite_risk :=
               round_1_decimal (curve (score ff) 18 7 i * 0.35
                                + curve (score fsea) 22 5 i * 0.25
                                + curve (score fh) 15 9 i * 0.25
                                + curve (score fw) 12 6 i * 0.15) |}).
Proof.
  intros Hf Hh Hs Hw ps.
  assert (Hnth : forall i, (i < 11)%nat ->
            nth_error ps i =
            Some (projectionAt (fullYear w) (score ff) (score fh)
                    (score fsea) (score fw) i)).
  { intros i Hi. unfold ps. rewrite generateProjections_nth by exact Hi.
    unfold scoreOf. rewrite Hf, Hh, Hs, Hw. reflexivity. }
  assert (Hpt : forall i, (i < 11)%nat ->
     nth_error ps i =
     Some {| year := (fullYear w + 2 * Z.of_nat i)%Z;
             flood_risk := round1 (curve (score ff) 18 7 i);
             heat_stress := round1 (curve (score fh) 15 9 i);
             sea_level_rise := round1 (curve (score fsea) 22 5 i);
             water_scarcity := round1 (curve (score fw) 12 6 i);
             composite_risk :=
               round1 (curve (score ff) 18 7 i * 0.35
                       + curve (score fsea) 22 5 i * 0.25
                       + curve (score fh) 15 9 i * 0.25
                       + curve (score fw) 12 6 i * 0.15) |}).
  { intros i Hi. rewrite (Hnth i Hi). unfold projectionAt, curve.
    replace (fullYear w + Z.of_nat i * 2)%Z
      with (fullYear w + 2 * Z.of_nat i)%Z by lia.
    reflexivity. }
  split; [reflexivity|]. split; [exact Hpt|]. split; [|split].
  - intros Sf Sh Ss Sw. rewrite (Hnth 0%nat) by lia.
    unfold projectionAt. cbn [option_map composite_risk].
    destruct (curve_start _ Sf) as (Ef & _ & _ & _).
    destruct (curve_start _ Sh) as (_ & Eh & _ & _).
    destruct (curve_start _ Ss) as (_ & _ & Es & _).
    destruct (curve_start _ Sw) as (_ & _ & _ & Ew).
    unfold curve in Ef, Eh, Es, Ew.
    rewrite Ef, Eh, Es, Ew. reflexivity.
  - intros c Hlo Hhi. apply round1_rounds, plain_between; assumption.
  - intros Sf Sh Ss Sw i Hi.
    destruct (curves_plain i _ _ _ _ Hi Sf Sh Ss Sw)
      as (Pf & Ph & Ps & Pw & Pc).
    rewrite <- (round1_rounds _ Pf), <- (round1_rounds _ Ph),
      <- (round1_rounds _ Ps), <- (round1_rounds _ Pw),
      <- (round1_rounds _ Pc).
    exact (Hpt i Hi).
Qed.

Lemma score_70 : is_score 70.
Proof. exists 70%Z. split; [lia | reflexivity]. Qed.

Lemma score_60 : is_score 60.
Proof. exists 60%Z. split; [lia | reflexivity]. Qed.

Lemma score_100 : is_score 100.
Proof. exists 100%Z. split; [lia | reflexivity]. Qed.

Lemma fixture_scores : Forall (fun f => is_score (score f)) fixture.
Proof.
  repeat apply Forall_cons; try apply Forall_nil; cbn [score].
  - exact score_70.
  - exact score_60.
  - exact score_100.
  - exact score_100.
Qed.

Lemma generateProjections_formula_witness :
  List.length fixture_projections = 11%nat /\
  option_map year (nth_error fixture_projections 10) = Some 2046%Z /\
  option_map composite_risk (nth_error fixture_projections 0) =
    Some (round1 (70 * 0.35 + 60 * 0.25 + 100 * 0.25 + 100 * 0.15)) /\
  round1 71.87 = 71.9 /\
  nth_error fixture_projections 1 =
    Some {| year := 2028; flood_risk := 71.9; heat_stress := 100;
            sea_level_rise := 62.3; water_scarcity := 100;
            composite_risk := 80.7 |} /\
  nth_error fixture_projections 3 =
    Some {| year := 2032; flood_risk := 76; heat_stress := 100;
            sea_level_rise := 67; water_scarcity := 100;
            composite_risk := 83.4 |}.
Proof.
  destruct (generateProjections_formula fixture still
              fixture_flood fixture_heat fixture_sea fixture_water
              eq_refl eq_refl eq_refl eq_refl)
    as (Hlen & Hnth & H0 & Hr & Hd).
  split; [exact Hlen|]. split; [|split; [|split; [|split]]].
  - unfold fixture_projections. rewrite (Hnth 10%nat) by lia. reflexivity.
  - exact (H0 score_70 score_100 score_60 score_100).
  - rewrite (Hr 71.87 eq_refl eq_refl). vm_compute. reflexivity.
  - unfold fixture_projections.
    rewrite (Hd score_70 score_100 score_60 score_100 1%nat) by lia.
    vm_compute. reflexivity.
  - unfold fixture_projections.
    rewrite (Hd score_70 score_100 score_60 score_100 3%nat) by lia.
    vm_compute. reflexivity.
Defined.


Lemma pair_ok_spec (a b : float) :
  pair_ok a b = true -> (a <=? b) = true /\ (a = 100 -> b = 100).
Proof.
  unfold pair_ok. rewrite andb_true_iff. intros [Hle Hsat].
  split; [exact Hle|].
  intros E. apply FloatAxioms.Leibniz.eqb_spec in E. rewrite E in Hsat.
  apply FloatAxioms.Leibniz.eqb_spec, Hsat.
Qed.

Lemma series_ok_spec (l : list float) :
  series_ok l = true ->
  forall i j a b, (i <= j)%nat ->
    nth_error l i = Some a -> nth_error l j = Some b ->
    (a <=? b) = true /\ (a = 100 -> b = 100).
Proof.
  induction l as [|x l IH]; intros H i j a b Hij Ha Hb.
  - destruct i; discriminate.
  - cbn [series_ok] in H. rewrite !andb_true_iff in H.
    destruct H as [[Hxx Hx] Hl].
    destruct i as [|i].
    + injection Ha as <-. destruct j as [|j].
      * injection Hb as <-. apply pair_ok_spec, Hxx.
      * rewrite forallb_forall in Hx. cbn [nth_error] in Hb.
        apply pair_ok_spec, Hx, (nth_error_In _ _ Hb).
    + destruct j as [|j]; [lia|].
      apply (IH Hl i j); [lia | exact Ha | exact Hb].
Qed.

Lemma series_nth (s r1 r2 : float) (i : nat) :
  (i < 11)%nat ->
  nth_error (series s r1 r2) i = Some (round1 (curve s r1 r2 i)).
Proof.
  intros Hi. unfold series. rewrite nth_error_map, nth_error_seq.
  destruct (Nat.ltb_spec i 11) as [_|]; [reflexivity | lia].
Qed.

(** Every hazard series that starts from a score of the data model is
    non-decreasing and keeps 100 once it is there. *)
Lemma hazard_series_ok (s : float) :
  is_score s ->
  series_ok (series s 18 7) = true /\
  series_ok (series s 15 9) = true /\
  series_ok (series s 22 5) = true /\
  series_ok (series s 12 6) = true.
Proof.
  intros H. apply is_score_In in H.
  assert (K : forallb (fun s =>
                series_ok (series s 18 7) && series_ok (series s 15 9)
                && series_ok (series s 22 5) && series_ok (series s 12 6))
                scores = true)
    by (vm_compute; reflexivity).
  rewrite forallb_forall in K. specialize (K s H).
  rewrite !andb_true_iff in K. tauto.
Qed.

Lemma hazard_monotone (s r1 r2 : float) (i j : nat) :
  series_ok (series s r1 r2) = true -> (i <= j)%nat -> (j < 11)%nat ->
  (round1 (curve s r1 r2 i) <=? round1 (curve s r1 r2 j)) = true /\
  (round1 (curve s r1 r2 i) = 100 -> round1 (curve s r1 r2 j) = 100).
Proof.
  intros K Hij Hj.
  apply (series_ok_spec _ K i j); [exact Hij | |];
    apply series_nth; lia.
Qed.

(** C7: for a factor list whose scores are scores of the data model
    (integers from 0 to 100), each of the four projected hazard series is
    non-decreasing over the 11 points, and a hazard that has reached 100
    is 100 at every later point. *)
Theorem generateProjections_monotone (fs : list ClimateFactorScore)
    (w : World) :
  Forall (fun f => is_score (score f)) fs ->
  forall (i j : nat) (p q : ProjectionDataPoint),
    (i <= j)%nat ->
    nth_error (fst (generateProjections fs w)) i = Some p ->
    nth_error (fst (generateProjections fs w)) j = Some q ->
    ((flood_risk p <=? flood_risk q) = true /\
     (flood_risk p = 100 -> flood_risk q = 100)) /\
    ((heat_stress p <=? heat_stress q) = true /\
     (heat_stress p = 100 -> heat_stress q = 100)) /\
    ((sea_level_rise p <=? sea_level_rise q) = true /\
     (sea_level_rise p = 100 -> sea_level_rise q = 100)) /\
    ((water_scarcity p <=? water_scarcity q) = true /\
     (water_scarcity p = 100 -> water_scarcity q = 100)).
Proof.
  intros Hfs i j p q Hij Hp Hq.
  assert (Hj : (j < 11)%nat).
  { assert (Hn : nth_error (fst (generateProjections fs w)) j <> None)
      by congruence.
    apply nth_error_Some in Hn.
    unfold generateProjections, bind, ret, getFullYear in Hn.
    cbn [fst] in Hn. rewrite length_map, length_seq in Hn. exact Hn. }
  rewrite generateProjections_nth in Hp, Hq by lia.
  injection Hp as <-. injection Hq as <-.
  unfold projectionAt.
  cbn [flood_risk heat_stress sea_level_rise water_scarcity].
  destruct (hazard_series_ok _ (scoreOf_is_score "Flood Probability" fs Hfs))
    as (Kf & _ & _ & _).
  destruct (hazard_series_ok _ (scoreOf_is_score "Heat Stress Index" fs Hfs))
    as (_ & Kh & _ & _).
  destruct (hazard_series_ok _
              (scoreOf_is_score "Sea-Level Rise Exposure" fs Hfs))
    as (_ & _ & Ks & _).
  destruct (hazard_series_ok _
              (scoreOf_is_score "Water Scarcity Projection" fs Hfs))
    as (_ & _ & _ & Kw).
  fold (curve (scoreOf "Flood Probability" 50 fs) 18 7 i).
  fold (curve (scoreOf "Flood Probability" 50 fs) 18 7 j).
  fold (curve (scoreOf "Heat Stress Index" 50 fs) 15 9 i).
  fold (curve (scoreOf "Heat Stress Index" 50 fs) 15 9 j).
  fold (curve (scoreOf "Sea-Level Rise Exposure" 50 fs) 22 5 i).
  fold (curve (scoreOf "Sea-Level Rise Exposure" 50 fs) 22 5 j).
  fold (curve (scoreOf "Water Scarcity Projection" 50 fs) 12 6 i).
  fold (curve (scoreOf "Water Scarcity Projection" 50 fs) 12 6 j).
  split; [apply (hazard_monotone _ _ _ i j Kf Hij Hj)|].
  split; [apply (hazard_monotone _ _ _ i j Kh Hij Hj)|].
  split; [apply (hazard_monotone _ _ _ i j Ks Hij Hj)
         |apply (hazard_monotone _ _ _ i j Kw Hij Hj)].
Qed.

Lemma generateProjections_monotone_witness :
  exists p q,
    nth_error fixture_projections 0 = Some p /\
    nth_error fixture_projections 10 = Some q /\
    (flood_risk p <=? flood_risk q) = true /\
    (sea_level_rise p <=? sea_level_rise q) = true /\
    heat_stress q = 100.
Proof.
  eexists. eexists.
  split; [reflexivity|]. split; [reflexivity|].
  destruct (generateProjections_monotone fixture still fixture_scores
              0 10 _ _ (Nat.le_0_l 10) eq_refl eq_refl)
    as ((Hf & _) & (_ & Hh) & (Hs & _) & _).
  split; [exact Hf|]. split; [exact Hs|]. apply Hh. reflexivity.
Defined.

(** ** Factor scorer: the scores *)

Lemma assoc_In {A} (key : string) (l : list (string * A)) (v : A) :
  assoc key l = Some v -> In v (map snd l).
Proof.
  induction l as [|[k x] l IH]; cbn; [discriminate|].
  destruct (String.eqb key k).
  - intros [= ->]. left. reflexivity.
  - intros H. right. apply IH, H.
Qed.

(** A property type that names no member of [Object.prototype] resolves
    to a row of the table: its own, or the residential one. *)
Lemma modifier_resolved (propertyType : string) :
  ~ In propertyType Object_prototype_keys ->
  exists m, In m (map snd PROPERTY_MODIFIERS) /\
            or_else (get propertyType) (get "residential") = Own m.
Proof.
  intros Hkey. unfold get at 1.
  destruct (assoc propertyType PROPERTY_MODIFIERS) as [m|] eqn:E.
  - exists m. split; [exact (assoc_In _ _ _ E) | reflexivity].
  - destruct (existsb _ Object_prototype_keys) eqn:X.
    + apply existsb_exists in X. destruct X as (k & Hk & Ek).
      apply String.eqb_eq in Ek. subst k. contradiction.
    + eexists. split; [|reflexivity]. left. reflexivity.
Qed.

Lemma modifier_bounded (m : PropertyModifier) :
  In m (map snd PROPERTY_MODIFIERS) ->
  SFbounded (Prim2SF (flood m)) /\ SFbounded (Prim2SF (sea m)) /\
  SFbounded (Prim2SF (heat m)) /\ SFbounded (Prim2SF (water m)).
Proof.
  cbn [map snd PROPERTY_MODIFIERS In].
  intros [<-|[<-|[<-|[<-|[<-|[]]]]]]; vm_compute; tauto.
Qed.

Lemma profile_not_nan (lat lng : float) :
  let p := getRegionProfile lat lng in
  is_nan (flood_base p) = false /\ is_nan (sea_level_base p) = false /\
  is_nan (heat_base p) = false /\ is_nan (water_scarcity_base p) = false.
Proof.
  unfold getRegionProfile.
  repeat match goal with
         | |- context [if ?c then _ else _] => destruct c
         end; repeat split.
Qed.

Lemma noise_bounded (n : float) :
  (-6 <=? n) = true /\ (n <=? 6) = true -> SFbounded (Prim2SF n).
Proof.
  intros [Hlo Hhi].
  apply (between_bounded (-6) 6 n); trivial; vm_compute; exact I.
Qed.

Lemma sum_not_nan (base m n : float) :
  is_nan base = false -> SFbounded (Prim2SF m) -> SFbounded (Prim2SF n) ->
  is_nan (base + m + n) = false.
Proof.
  intros Hb Hm Hn. apply add_not_nan; [apply add_not_nan|]; assumption.
Qed.

(** The scores the scorer computes once the modifier is resolved. *)
Lemma scores_resolved (lat lng : float) (propertyType : string) (w : World)
    (m : PropertyModifier) :
  or_else (get propertyType) (get "residential") = Own m ->
  map score (fst (calculateFactorScores lat lng propertyType w)) =
  [ clamp (flood_base (getRegionProfile lat lng) + flood m + noiseAt w 0);
    clamp (sea_level_base (getRegionProfile lat lng) + sea m + noiseAt w 1);
    clamp (heat_base (getRegionProfile lat lng) + heat m + noiseAt w 2);
    clamp (water_scarcity_base (getRegionProfile lat lng) + water m
           + noiseAt w 3) ].
Proof.
  intros Hres. unfold calculateFactorScores. rewrite Hres. reflexivity.
Qed.

(** Where the property type resolves to a row of the modifier table (any
    string that names no member of [Object.prototype]: the five tags, and
    the unknown ones that fall back to residential), for all coordinates
    and all noise terms in [-6, 6], the four scores are
    [clamp (base + modifier + noise)] for the bases of the resolved
    region and the resolved modifier, in the order flood, sea, heat,
    water, and each lies in [0, 100]. *)
Lemma calculateFactorScores_resolved (lat lng : float)
    (propertyType : string) (w : World) :
  ~ In propertyType Object_prototype_keys ->
  (forall k, (k < 4)%nat ->
     (-6 <=? noiseAt w k) = true /\ (noiseAt w k <=? 6) = true) ->
  exists m,
    In m (map snd PROPERTY_MODIFIERS) /\
    or_else (get propertyType) (get "residential") = Own m /\
    let p := getRegionProfile lat lng in
    let fs := fst (calculateFactorScores lat lng propertyType w) in
    map score fs =
      [ clamp (flood_base p + flood m + noiseAt w 0);
        clamp (sea_level_base p + sea m + noiseAt w 1);
        clamp (heat_base p + heat m + noiseAt w 2);
        clamp (water_scarcity_base p + water m + noiseAt w 3) ] /\
    Forall (fun f => in_0_100 (score f)) fs.
Proof.
  intros Hkey Hnoise.
  destruct (modifier_resolved propertyType Hkey) as (m & Hm & Hres).
  exists m. split; [exact Hm|]. split; [exact Hres|].
  intros p fs.
  pose proof (scores_resolved lat lng propertyType w m Hres) as Hscores.
  fold p fs in Hscores.
  split; [exact Hscores|].
  destruct (profile_not_nan lat lng) as (Bf & Bs & Bh & Bw).
  fold p in Bf, Bs, Bh, Bw.
  destruct (modifier_bounded m Hm) as (Mf & Ms & Mh & Mw).
  assert (Hall : Forall in_0_100 (map score fs)).
  { rewrite Hscores.
    repeat apply Forall_cons; try apply Forall_nil;
      apply clamp_bounds, sum_not_nan; trivial;
      apply noise_bounded, Hnoise; lia. }
  rewrite Forall_map in Hall. exact Hall.
Qed.

Example calculateFactorScores_resolved_mumbai :
  Forall (fun f => in_0_100 (score f))
         (fst (calculateFactorScores 19.05 72.83 "residential" still)).
Proof.
  assert (Hkey : ~ In "residential" Object_prototype_keys).
  { cbn [In Object_prototype_keys]. intros H.
    repeat (destruct H as [H|H]; [discriminate H|]). exact H. }
  assert (Hnoise : forall k, (k < 4)%nat ->
            (-6 <=? noiseAt still k) = true /\
            (noiseAt still k <=? 6) = true).
  { intros k _. split; reflexivity. }
  destruct (calculateFactorScores_resolved 19.05 72.83 "residential" still
              Hkey Hnoise) as (m & _ & _ & _ & H).
  exact H.
Qed.

(** The scores of the scorer are scores of the data model, under the same
    conditions: the factor lists the projection is run on in an
    assessment are those of [generateProjections_monotone]. *)
Lemma calculateFactorScores_is_score (lat lng : float)
    (propertyType : string) (w : World) :
  ~ In propertyType Object_prototype_keys ->
  (forall k, (k < 4)%nat ->
     (-6 <=? noiseAt w k) = true /\ (noiseAt w k <=? 6) = true) ->
  Forall (fun f => is_score (score f))
         (fst (calculateFactorScores lat lng propertyType w)).
Proof.
  intros Hkey Hnoise.
  destruct (modifier_resolved propertyType Hkey) as (m & Hm & Hres).
  pose proof (scores_resolved lat lng propertyType w m Hres) as Hscores.
  destruct (profile_not_nan lat lng) as (Bf & Bs & Bh & Bw).
  destruct (modifier_bounded m Hm) as (Mf & Ms & Mh & Mw).
  rewrite <- Forall_map with (f := score) (P := is_score), Hscores.
  repeat apply Forall_cons; try apply Forall_nil;
    apply clamp_is_score, sum_not_nan; trivial;
    apply noise_bounded, Hnoise; lia.
Qed.

(** ** Unknown property types *)

(** The fallback works for a type that is neither a row of the table nor
    a member of [Object.prototype]. *)
Lemma calculateFactorScores_fallback (lat lng : float)
    (propertyType : string) (w : World) :
  assoc propertyType PROPERTY_MODIFIERS = None ->
  ~ In propertyType Object_prototype_keys ->
  calculateFactorScores lat lng propertyType w =
  calculateFactorScores lat lng "residential" w.
Proof.
  intros Hown Hkey. unfold calculateFactorScores.
  replace (get propertyType) with Undefined; [reflexivity|].
  unfold get. rewrite Hown.
  destruct (existsb _ Object_prototype_keys) eqn:X; [|reflexivity].
  apply existsb_exists in X. destruct X as (k & Hk & Ek).
  apply String.eqb_eq in Ek. subst k. contradiction.
Qed.

(** C9, on the failing input: "constructor" is none of the five tags, yet
    the read [PROPERTY_MODIFIERS["constructor"]] finds the inherited
    [Object.prototype.constructor], which is truthy, so that the
    residential row is not substituted; its [flood], [sea], [heat] and
    [water] are undefined and every score is NaN, where "residential"
    gives 78, 74, 70 and 45. *)
Theorem calculateFactorScores_constructor :
  assoc "constructor" PROPERTY_MODIFIERS = None /\
  or_else (get "constructor") (get "residential") = Inherited /\
  map score (fst (calculateFactorScores 19.05 72.83 "constructor" still))
    = [PrimFloat.nan; PrimFloat.nan; PrimFloat.nan; PrimFloat.nan] /\
  map score (fst (calculateFactorScores 19.05 72.83 "residential" still))
    = [78; 74; 70; 45] /\
  fst (calculateFactorScores 19.05 72.83 "constructor" still) <>
  fst (calculateFactorScores 19.05 72.83 "residential" still).
Proof.
  repeat split; try (vm_compute; reflexivity).
  intros H.
  apply (f_equal (fun l => map (fun f => is_nan (score f)) l)) in H.
  vm_compute in H. discriminate.
Qed.

(** ** Lending adjustments are never empty *)

Lemma In_push_if_here (a : LendingAdjustment) (l : list LendingAdjustment) :
  In a (push_if true a l).
Proof. cbn. apply in_or_app. right. left. reflexivity. Qed.

Lemma In_push_if_later (c : bool) (a b : LendingAdjustment)
    (l : list LendingAdjustment) :
  In a l -> In a (push_if c b l).
Proof.
  intros H. destruct c; cbn; [apply in_or_app; left|]; exact H.
Qed.

Lemma hd_push_if (c : bool) (a b : LendingAdjustment)
    (l : list LendingAdjustment) :
  hd_error l = Some a -> hd_error (push_if c b l) = Some a.
Proof.
  destruct l as [|x l]; [discriminate|]. destruct c; cbn; trivial.
Qed.

(** C10: when the classification passed is the one [classifyRisk] gives
    the score, the list of adjustments is not empty: for Low it contains
    the informational "standard terms" entry, and otherwise it starts
    with the interest-rate premium. *)
Theorem generateLendingAdjustments_nonempty (score : float)
    (classification : RiskClassification) (propertyType : string)
    (fs : list ClimateFactorScore) :
  classification = classifyRisk score ->
  generateLendingAdjustments score classification propertyType fs <> [] /\
  (classification = Low ->
   exists a,
     In a (generateLendingAdjustments score classification propertyType fs)
     /\ type a = risk_warning
     /\ title a = "Standard Lending Terms Applicable"
     /\ severity a = info) /\
  (classification <> Low ->
   exists a,
     hd_error (generateLendingAdjustments score classification
                 propertyType fs) = Some a
     /\ type a = interest_rate).
Proof.
  intros ->.
  assert (low : classifyRisk score = Low ->
            exists a,
              In a (generateLendingAdjustments score (classifyRisk score)
                      propertyType fs)
              /\ type a = risk_warning
              /\ title a = "Standard Lending Terms Applicable"
              /\ severity a = info).
  { intros E. rewrite E. unfold generateLendingAdjustments. cbv zeta.
    eexists. split.
    - apply In_push_if_later, In_push_if_here.
    - repeat split. }
  assert (other : classifyRisk score <> Low ->
            exists a,
              hd_error (generateLendingAdjustments score (classifyRisk score)
                          propertyType fs) = Some a
              /\ type a = interest_rate).
  { unfold classifyRisk, generateLendingAdjustments. cbv zeta.
    destruct (score <? 25); [congruence|]. intros _.
    destruct (score <? 50); [|destruct (score <? 75)];
      (eexists; split; [do 6 apply hd_push_if; reflexivity | reflexivity]). }
  split; [|split; assumption].
  intros Hnil.
  destruct (classifyRisk score) eqn:E.
  - destruct (low eq_refl) as (a & Ha & _). rewrite Hnil in Ha. exact Ha.
  - destruct other as (a & Ha & _); [congruence|].
    rewrite Hnil in Ha. discriminate.
  - destruct other as (a & Ha & _); [congruence|].
    rewrite Hnil in Ha. discriminate.
  - destruct other as (a & Ha & _); [congruence|].
    rewrite Hnil in Ha. discriminate.
Qed.

Lemma generateLendingAdjustments_nonempty_witness :
  generateLendingAdjustments 82 Severe "residential" fixture <> [] /\
  generateLendingAdjustments 18 Low "mixed_use" fixture <> [].
Proof.
  split.
  - apply (generateLendingAdjustments_nonempty 82 Severe "residential"
             fixture eq_refl).
  - apply (generateLendingAdjustments_nonempty 18 Low "mixed_use"
             fixture eq_refl).
Defined.

(** * Further properties *)

(** ** More on the order of binary64 numbers *)

Lemma ltb_below (x a b : float) :
  (x <? a) = true -> (a <=? b) = true -> (b <=? x) = false.
Proof.
  intros Hx Hab. destruct (b <=? x) eqn:E; trivial.
  rewrite (leb_not_ltb a x (leb_trans a b x Hab E)) in Hx. discriminate.
Qed.

Lemma leb_above (x a b : float) :
  (x <=? a) = true -> (a <? b) = true -> (b <=? x) = false.
Proof.
  intros Hx Hab. destruct (b <=? x) eqn:E; trivial.
  rewrite (leb_not_ltb b a (leb_trans b x a E Hx)) in Hab. discriminate.
Qed.

Lemma leb_nan_l (x c : float) : is_nan x = true -> (x <=? c) = false.
Proof.
  intros H. destruct (x <=? c) eqn:E; trivial.
  destruct (leb_not_nan _ _ E). congruence.
Qed.

Lemma leb_nan_r (x c : float) : is_nan x = true -> (c <=? x) = false.
Proof.
  intros H. destruct (c <=? x) eqn:E; trivial.
  destruct (leb_not_nan _ _ E). congruence.
Qed.

(** ** Region resolver *)

(** The nine tests of [getRegionProfile] are those of [boxes]. *)
Lemma getRegionProfile_boxes (lat lng : float) :
  match boxes lat lng with
  | [b1; b2; b3; b4; b5; b6; b7; b8; b9] =>
      region (getRegionProfile lat lng) =
      if b1 then "Tamil Nadu Coast" else if b2 then "Maharashtra Coast"
      else if b3 then "West Bengal Delta" else if b4 then "Kerala Coast"
      else if b5 then "Northern India" else if b6 then "Northwestern India"
      else if b7 then "Central India" else if b8 then "Brahmaputra Basin"
      else if b9 then "Western India" else "Interior India"
  | _ => False
  end.
Proof.
  unfold boxes, within, getRegionProfile. rewrite !andb_assoc.
  repeat match goal with
         | |- context [if ?c then _ else _] => destruct c
         end; reflexivity.
Qed.

(** X1: [getRegionProfile] answers the region of the first of its nine
    boxes, in the order they are tried, that contains the coordinates,
    and the default "Interior India" profile exactly when none does. *)
Theorem getRegionProfile_first_box (lat lng : float) :
  region (getRegionProfile lat lng) =
    nth (first_true (boxes lat lng)) box_regions "Interior India" /\
  (region (getRegionProfile lat lng) = "Interior India" <->
   forallb negb (boxes lat lng) = true).
Proof.
  pose proof (getRegionProfile_boxes lat lng) as H.
  destruct (boxes lat lng) as [|b1 [|b2 [|b3 [|b4 [|b5 [|b6 [|b7 [|b8 [|b9
    [|? ?]]]]]]]]]]; try contradiction.
  rewrite H. cbn [forallb first_true].
  destruct b1, b2, b3, b4, b5, b6, b7, b8, b9; cbn;
    (split; [reflexivity|]); split;
    intros E; try discriminate E; reflexivity.
Qed.

(** X2: coordinates south of latitude 8, north of latitude 30 or west of
    longitude 68, and coordinates that are not numbers, are accepted and
    resolve to the default profile with bases 38, 12, 68 and 55. *)
Theorem getRegionProfile_out_of_range (lat lng : float) :
  (lat <? 8) = true \/ (30 <? lat) = true \/ (lng <? 68) = true \/
  is_nan lat = true \/ is_nan lng = true ->
  getRegionProfile lat lng = interior lat lng.
Proof.
  intros H. apply getRegionProfile_interior.
  unfold boxes, within. cbn [forallb].
  destruct H as [H|[H|[H|[H|H]]]].
  - rewrite (ltb_below lat 8 8 H eq_refl), (ltb_below lat 8 18 H eq_refl),
            (ltb_below lat 8 22 H eq_refl), (ltb_below lat 8 24 H eq_refl),
            (ltb_below lat 8 14 H eq_refl), (ltb_below lat 8 23 H eq_refl),
            (ltb_below lat 8 20 H eq_refl).
    rewrite !andb_false_r. reflexivity.
  - assert (K : forall d, (d <=? 30) = true -> (lat <=? d) = false).
    { intros d Hd. destruct (lat <=? d) eqn:E; trivial.
      rewrite (leb_not_ltb lat 30 (leb_trans lat d 30 E Hd)) in H.
      discriminate. }
    rewrite (K 13 eq_refl), (K 19.5 eq_refl), (K 23 eq_refl), (K 9 eq_refl),
            (K 30 eq_refl), (K 22 eq_refl), (K 24 eq_refl).
    rewrite !andb_false_r. reflexivity.
  - rewrite (ltb_below lng 68 79 H eq_refl), (ltb_below lng 68 72 H eq_refl),
            (ltb_below lng 68 88 H eq_refl), (ltb_below lng 68 76 H eq_refl),
            (ltb_below lng 68 69 H eq_refl), (ltb_below lng 68 74 H eq_refl),
            (ltb_below lng 68 89 H eq_refl), (ltb_below lng 68 68 H eq_refl).
    reflexivity.
  - rewrite !(leb_nan_l lat _ H). rewrite !andb_false_r. reflexivity.
  - rewrite !(leb_nan_r lng _ H). reflexivity.
Qed.

Lemma getRegionProfile_out_of_range_witness :
  getRegionProfile 40 77 = interior 40 77 /\
  getRegionProfile PrimFloat.nan 72.83 = interior PrimFloat.nan 72.83.
Proof.
  split; apply getRegionProfile_out_of_range.
  - right. left. reflexivity.
  - right. right. right. left. reflexivity.
Defined.

(** X3: where boxes overlap the one tried first wins: the Indo-Gangetic
    Plain over the Rajasthan arid zone for longitudes 76 to 77 (latitudes
    24 to 30), the Deccan Plateau over the Gujarat coast for longitudes
    74 to 75 and latitudes 20 to 22. *)
Theorem getRegionProfile_overlap (lat lng : float) :
  ((76 <=? lng) = true -> (lng <=? 77) = true ->
   (24 <=? lat) = true -> (lat <=? 30) = true ->
   nth 5 (boxes lat lng) false = true /\
   name (getRegionProfile lat lng) = "Indo-Gangetic Plain") /\
  ((74 <=? lng) = true -> (lng <=? 75) = true ->
   (20 <=? lat) = true -> (lat <=? 22) = true ->
   nth 8 (boxes lat lng) false = true /\
   name (getRegionProfile lat lng) = "Deccan Plateau Region").
Proof.
  split.
  - intros L1 L2 A1 A2.
    assert (B1 : (79 <=? lng) = false) by exact (leb_above lng 77 79 L2 eq_refl).
    assert (B2 : (lng <=? 73.5) = false)
      by exact (ltb_below 73.5 76 lng eq_refl L1).
    assert (B3 : (88 <=? lng) = false) by exact (leb_above lng 77 88 L2 eq_refl).
    assert (B4 : (lat <=? 9) = false) by exact (ltb_below 9 24 lat eq_refl A1).
    assert (B5 : (lng <=? 88) = true) by exact (leb_trans lng 77 88 L2 eq_refl).
    assert (B6 : (69 <=? lng) = true) by exact (leb_trans 69 76 lng eq_refl L1).
    unfold boxes, within, getRegionProfile. cbn [nth].
    rewrite B1, B2, B3, B4, B5, B6, L1, L2, A1, A2.
    rewrite ?andb_false_r. cbn. split; reflexivity.
  - intros L1 L2 A1 A2.
    assert (B1 : (79 <=? lng) = false) by exact (leb_above lng 75 79 L2 eq_refl).
    assert (B2 : (lng <=? 73.5) = false)
      by exact (ltb_below 73.5 74 lng eq_refl L1).
    assert (B3 : (88 <=? lng) = false) by exact (leb_above lng 75 88 L2 eq_refl).
    assert (B4 : (76 <=? lng) = false) by exact (leb_above lng 75 76 L2 eq_refl).
    assert (B6 : (24 <=? lat) = false) by exact (leb_above lat 22 24 A2 eq_refl).
    assert (B7 : (lng <=? 80) = true) by exact (leb_trans lng 75 80 L2 eq_refl).
    assert (B8 : (14 <=? lat) = true) by exact (leb_trans 14 20 lat eq_refl A1).
    assert (B9 : (68 <=? lng) = true) by exact (leb_trans 68 74 lng eq_refl L1).
    assert (B10 : (lat <=? 24) = true) by exact (leb_trans lat 22 24 A2 eq_refl).
    unfold boxes, within, getRegionProfile. cbn [nth].
    rewrite B1, B2, B3, B4, B6, B7, B8, B9, B10, L1, L2, A1, A2.
    rewrite ?andb_false_r. cbn. split; reflexivity.
Qed.

Lemma getRegionProfile_overlap_witness :
  name (getRegionProfile 26.9 76.5) = "Indo-Gangetic Plain" /\
  name (getRegionProfile 21 74.5) = "Deccan Plateau Region".
Proof.
  destruct (getRegionProfile_overlap 26.9 76.5) as [H _].
  destruct (getRegionProfile_overlap 21 74.5) as [_ K].
  split.
  - apply H; reflexivity.
  - apply K; reflexivity.
Defined.

(** ** More on the builtins *)

Lemma ltb_negb_leb (x y : float) :
  is_nan x = false -> is_nan y = false -> (x <? y) = negb (y <=? x).
Proof.
  intros Hx Hy. destruct (x <? y) eqn:E.
  - destruct (y <=? x) eqn:F; trivial.
    rewrite (leb_not_ltb _ _ F) in E. discriminate.
  - rewrite (leb_total x y Hx Hy E). reflexivity.
Qed.

Lemma ltb_nan_l (x c : float) : is_nan x = true -> (x <? c) = false.
Proof.
  intros H. destruct (x <? c) eqn:E; trivial.
  apply ltb_leb, leb_not_nan in E. destruct E as [E _]. congruence.
Qed.

Lemma ltb_nan_r (x c : float) : is_nan x = true -> (c <? x) = false.
Proof.
  intros H. destruct (c <? x) eqn:E; trivial.
  apply ltb_leb, leb_not_nan in E. destruct E as [_ E]. congruence.
Qed.

Lemma is_nan_eq (x : float) : is_nan x = true -> x = PrimFloat.nan.
Proof.
  intros H. apply Prim2SF_inj.
  destruct (Prim2SF x) eqn:E; try reflexivity;
    assert (N : is_nan x = false) by (apply is_nan_spec; congruence);
    congruence.
Qed.

Lemma add_nan_r (x : float) : x + PrimFloat.nan = PrimFloat.nan.
Proof.
  apply Prim2SF_inj. rewrite FloatAxioms.add_spec.
  change (Prim2SF PrimFloat.nan) with S754_nan.
  destruct (Prim2SF x); reflexivity.
Qed.

Lemma add_nan_l (x : float) : PrimFloat.nan + x = PrimFloat.nan.
Proof.
  apply Prim2SF_inj. rewrite FloatAxioms.add_spec.
  change (Prim2SF PrimFloat.nan) with S754_nan.
  destruct (Prim2SF x); reflexivity.
Qed.

(** The two ways the code nests [Math.min] and [Math.max] to clamp a
    number agree. *)
Lemma clamp_swap (r : float) :
  Math_min 100 (Math_max 0 r) = Math_max 0 (Math_min 100 r).
Proof.
  destruct (is_nan r) eqn:N.
  - rewrite (is_nan_eq r N). reflexivity.
  - destruct (r <=? 0) eqn:L.
    + rewrite (clamp_low r L).
      assert (E : Math_max 0 r = 0).
      { unfold Math_max. rewrite N, (leb_not_ltb _ _ L).
        change (is_nan 0 || false) with false. cbv iota.
        destruct (r <? 0); reflexivity. }
      rewrite E. reflexivity.
    + assert (P : (0 <? r) = true).
      { destruct (0 <? r) eqn:E; trivial.
        rewrite (leb_total 0 r eq_refl N E) in L. discriminate. }
      assert (E : Math_max 0 r = r).
      { unfold Math_max. rewrite N, P. reflexivity. }
      rewrite E.
      assert (M : Math_min 100 r = 100 \/ Math_min 100 r = r).
      { unfold Math_min. rewrite N.
        change (is_nan 100 || false) with false. cbv iota.
        destruct (100 <? r); [left; reflexivity|].
        destruct (r <? 100); [right; reflexivity|].
        right. reflexivity. }
      destruct M as [-> | ->]; [reflexivity | symmetry; exact E].
Qed.

(** ** The report of an assessment *)

(** The share of a score of the data model in the composite is a number
    from 0 to the weight's share of 100. *)
Lemma weighted_in_range (s : float) :
  is_score s ->
  SFbounded (Prim2SF (round1 (s * w_flood weights))) /\
  SFbounded (Prim2SF (round1 (s * w_sea weights))) /\
  SFbounded (Prim2SF (round1 (s * w_heat weights))) /\
  SFbounded (Prim2SF (round1 (s * w_water weights))).
Proof.
  intros H. apply is_score_In in H.
  assert (K : forallb (fun s =>
                within 0 35 (round1 (s * w_flood weights))
                && within 0 25 (round1 (s * w_sea weights))
                && within 0 25 (round1 (s * w_heat weights))
                && within 0 15 (round1 (s * w_water weights)))
                scores = true)
    by (vm_compute; reflexivity).
  rewrite forallb_forall in K. specialize (K s H).
  unfold within in K. rewrite !andb_true_iff in K.
  destruct K as [[[[A1 A2] [B1 B2]] [C1 C2]] [D1 D2]].
  repeat split.
  - apply (between_bounded 0 35); trivial; exact I.
  - apply (between_bounded 0 25); trivial; exact I.
  - apply (between_bounded 0 25); trivial; exact I.
  - apply (between_bounded 0 15); trivial; exact I.
Qed.

(** The factors of the scorer, whatever the modifier: the weighted score
    is the score times the weight, rounded to one decimal. *)
Lemma calculateFactorScores_shape (lat lng : float) (propertyType : string)
    (w : World) :
  exists s1 s2 s3 s4,
    map score (fst (calculateFactorScores lat lng propertyType w)) =
      [s1; s2; s3; s4] /\
    map weighted_score (fst (calculateFactorScores lat lng propertyType w)) =
      [ round1 (s1 * w_flood weights); round1 (s2 * w_sea weights);
        round1 (s3 * w_heat weights); round1 (s4 * w_water weights) ] /\
    map factor (fst (calculateFactorScores lat lng propertyType w)) =
      [ "Flood Probability"; "Sea-Level Rise Exposure"; "Heat Stress Index";
        "Water Scarcity Projection" ].
Proof.
  unfold calculateFactorScores, noise, bind, ret, Math_random.
  cbn [fst snd map score weighted_score factor].
  do 4 eexists. repeat split.
Qed.

Lemma fold_weighted (fs : list ClimateFactorScore) (a b c d : float) :
  map weighted_score fs = [a; b; c; d] ->
  fold_left (fun sum f => sum + weighted_score f) fs 0 = 0 + a + b + c + d.
Proof.
  destruct fs as [|f1 [|f2 [|f3 [|f4 [|? ?]]]]]; try discriminate.
  cbn. intros [= <- <- <- <-]. reflexivity.
Qed.

Lemma runClimateAssessment_parts (input : PropertyAssessmentInput)
    (w : World) :
  let r := fst (runClimateAssessment input w) in
  let fs := fst (calculateFactorScores (in_latitude input)
                   (in_longitude input) (in_property_type input)
                   (snd (Math_random w))) in
  let score := Math_min 100 (Math_max 0 (Math_round
      (fold_left (fun sum f => sum + weighted_score f) fs 0))) in
  factors r = fs /\
  climate_risk_score r = score /\
  risk_classification r = classifyRisk score /\
  lending_adjustments r =
    generateLendingAdjustments score (classifyRisk score)
      (in_property_type input) fs /\
  projections r =
    fst (generateProjections fs
           (snd (calculateFactorScores (in_latitude input)
                   (in_longitude input) (in_property_type input)
                   (snd (Math_random w))))) /\
  location_name r =
    name (getRegionProfile (in_latitude input) (in_longitude input)) /\
  report_region r =
    region (getRegionProfile (in_latitude input) (in_longitude input)).
Proof.
  unfold runClimateAssessment, bind, ret.
  destruct (Math_random w) as [u0 w1]; cbn [snd].
  destruct (calculateFactorScores _ _ _ w1) as [fs w2]; cbn [fst snd].
  destruct (generateProjections fs w2) as [ps w3].
  destruct (Math_random w3) as [u w4].
  destruct (toISOString w4) as [d w5].
  cbn. repeat split.
Qed.

(** X4: for a property type that resolves to a row of the modifier table
    and noise terms in [-6, 6], the report of [runClimateAssessment]
    carries an integer score from 0 to 100, four factors whose scores are
    integers from 0 to 100, and eleven projection points. *)
Theorem runClimateAssessment_score_range (input : PropertyAssessmentInput)
    (w : World) :
  ~ In (in_property_type input) Object_prototype_keys ->
  (forall k, (k < 4)%nat ->
     (-6 <=? noiseAt (snd (Math_random w)) k) = true /\
     (noiseAt (snd (Math_random w)) k <=? 6) = true) ->
  let r := fst (runClimateAssessment input w) in
  is_score (climate_risk_score r) /\
  List.length (factors r) = 4%nat /\
  Forall (fun f => is_score (score f)) (factors r) /\
  List.length (projections r) = 11%nat.
Proof.
  intros Hkey Hnoise r.
  destruct (runClimateAssessment_parts input w)
    as (Hf & Hs & _ & _ & Hp & _).
  fold r in Hf, Hs, Hp.
  pose proof (calculateFactorScores_is_score (in_latitude input)
                (in_longitude input) (in_property_type input)
                (snd (Math_random w)) Hkey Hnoise) as Hall.
  destruct (calculateFactorScores_shape (in_latitude input)
              (in_longitude input) (in_property_type input)
              (snd (Math_random w))) as (s1 & s2 & s3 & s4 & Es & Ew & _).
  rewrite <- Hf in Hall, Es, Ew.
  assert (Hsc : Forall is_score [s1; s2; s3; s4]).
  { rewrite <- Es. rewrite Forall_map. exact Hall. }
  split; [|split; [|split]].
  - rewrite Hs, <- Hf, (fold_weighted _ _ _ _ _ Ew), clamp_swap.
    apply clamp_is_score.
    inversion Hsc as [|? ? S1 Hsc1]; subst.
    inversion Hsc1 as [|? ? S2 Hsc2]; subst.
    inversion Hsc2 as [|? ? S3 Hsc3]; subst.
    inversion Hsc3 as [|? ? S4 _]; subst.
    destruct (weighted_in_range s1 S1) as (B1 & _).
    destruct (weighted_in_range s2 S2) as (_ & B2 & _).
    destruct (weighted_in_range s3 S3) as (_ & _ & B3 & _).
    destruct (weighted_in_range s4 S4) as (_ & _ & _ & B4).
    repeat apply add_not_nan; trivial.
  - rewrite <- (length_map score), Es. reflexivity.
  - exact Hall.
  - rewrite Hp. unfold generateProjections, bind, ret, getFullYear.
    cbn [fst]. rewrite length_map, length_seq. reflexivity.
Qed.

Lemma runClimateAssessment_score_range_witness :
  is_score (climate_risk_score mumbai_report).
Proof.
  assert (Hkey : ~ In "residential" Object_prototype_keys).
  { cbn [In Object_prototype_keys]. intros H.
    repeat (destruct H as [H|H]; [discriminate H|]). exact H. }
  assert (Hnoise : forall k, (k < 4)%nat ->
            (-6 <=? noiseAt (snd (Math_random still)) k) = true /\
            (noiseAt (snd (Math_random still)) k <=? 6) = true).
  { intros k _. split; reflexivity. }
  destruct (runClimateAssessment_score_range (mumbai "residential") still
              Hkey Hnoise) as (H & _).
  exact H.
Defined.

(** A property type that names a member of [Object.prototype] resolves to
    that member, not to a row of the table. *)
Lemma modifier_inherited (propertyType : string) :
  In propertyType Object_prototype_keys ->
  or_else (get propertyType) (get "residential") = Inherited.
Proof.
  cbn [In Object_prototype_keys].
  intros H.
  repeat (destruct H as [<-|H]; [reflexivity|]). contradiction.
Qed.

Lemma not_agricultural (propertyType : string) :
  In propertyType Object_prototype_keys ->
  String.eqb propertyType "agricultural" = false.
Proof.
  cbn [In Object_prototype_keys].
  intros H.
  repeat (destruct H as [<-|H]; [reflexivity|]). contradiction.
Qed.

Lemma scores_inherited (lat lng : float) (propertyType : string) (w : World) :
  or_else (get propertyType) (get "residential") = Inherited ->
  map score (fst (calculateFactorScores lat lng propertyType w)) =
    [PrimFloat.nan; PrimFloat.nan; PrimFloat.nan; PrimFloat.nan].
Proof.
  intros Hres. unfold calculateFactorScores. rewrite Hres.
  unfold noise, bind, ret, Math_random.
  cbn [fst snd map score field ToNumber].
  rewrite !add_nan_r, !add_nan_l. reflexivity.
Qed.

(** X5: for every property type that names a member of [Object.prototype]
    ("constructor", "toString", "valueOf", ...), whatever the coordinates
    and the noise, the report of [runClimateAssessment] has four factors
    whose scores are NaN, a score that is NaN, the classification Severe,
    and the three critical adjustments of a Severe report with the
    premium "+2.5% p.a.". *)
Theorem runClimateAssessment_inherited (input : PropertyAssessmentInput)
    (w : World) :
  In (in_property_type input) Object_prototype_keys ->
  let r := fst (runClimateAssessment input w) in
  map (fun f => is_nan (score f)) (factors r) = [true; true; true; true] /\
  is_nan (climate_risk_score r) = true /\
  risk_classification r = Severe /\
  map summary (lending_adjustments r) =
  [ (interest_rate, "Climate Risk Premium", Some "+2.5% p.a.", critical);
    (loan_cap, "Loan-to-Value Cap", Some "Max 60% LTV", critical);
    (enhanced_due_diligence, "Enhanced Climate Due Diligence",
     Some "Required", critical) ].
Proof.
  intros Hkey r.
  destruct (runClimateAssessment_parts input w)
    as (Hf & Hs & Hc & Hl & _).
  fold r in Hf, Hs, Hc, Hl.
  pose proof (scores_inherited (in_latitude input) (in_longitude input)
                (in_property_type input) (snd (Math_random w))
                (modifier_inherited _ Hkey)) as Es.
  destruct (calculateFactorScores_shape (in_latitude input)
              (in_longitude input) (in_property_type input)
              (snd (Math_random w))) as (s1 & s2 & s3 & s4 & Es' & Ew & En).
  rewrite Es in Es'. injection Es' as <- <- <- <-.
  rewrite <- Hf in Es, Ew, En.
  assert (Escore : climate_risk_score r = PrimFloat.nan).
  { rewrite Hs, <- Hf, (fold_weighted _ _ _ _ _ Ew).
    vm_compute. reflexivity. }
  split; [|split; [|split]].
  - rewrite <- (map_map score is_nan), Es. reflexivity.
  - rewrite Escore. reflexivity.
  - rewrite Hc, <- Hs, Escore. reflexivity.
  - rewrite Hl, <- Hs, Escore, <- Hf.
    assert (Efl : scoreOf "Flood Probability" 0 (factors r) = PrimFloat.nan).
    { destruct (factors r) as [|f1 [|f2 [|f3 [|f4 [|? ?]]]]];
        try discriminate.
      cbn in Es, En. injection Es as E1 E2 E3 E4.
      injection En as N1 N2 N3 N4.
      unfold scoreOf, named. cbn [find]. rewrite N1. exact E1. }
    assert (Esea : scoreOf "Sea-Level Rise Exposure" 0 (factors r)
                   = PrimFloat.nan).
    { destruct (factors r) as [|f1 [|f2 [|f3 [|f4 [|? ?]]]]];
        try discriminate.
      cbn in Es, En. injection Es as E1 E2 E3 E4.
      injection En as N1 N2 N3 N4.
      unfold scoreOf, named. cbn [find]. rewrite N1, N2. exact E2. }
    unfold generateLendingAdjustments.
    rewrite Efl, Esea, (not_agricultural _ Hkey).
    vm_compute. reflexivity.
Qed.

Lemma runClimateAssessment_inherited_witness :
  is_nan (climate_risk_score
            (fst (runClimateAssessment (mumbai "toString") still))) = true.
Proof.
  assert (Hkey : In "toString" Object_prototype_keys).
  { cbn [In Object_prototype_keys]. do 8 right. left. reflexivity. }
  destruct (runClimateAssessment_inherited (mumbai "toString") still Hkey)
    as (_ & H & _).
  exact H.
Defined.

(** C8, on the failing input: for the property type "constructor", at
    the coordinates of Mumbai with every noise term 0, the read of the
    modifier table finds the member of [Object.prototype] of that name
    and not a row, so that the residential row is not substituted: there
    is no modifier to add, and each of the four scores is NaN, none in
    [0, 100].  It is so for every member name of [Object.prototype],
    whatever the coordinates and the noise.  On the rows of the table the
    scores are the rounded and clamped sums: in Rajasthan (bases 20, 5,
    95 and 90) "agricultural" with every noise term 4.8 has 40, 15, 100
    and 100, heat and water being cut from 115, and "residential" with
    every noise term -6 has 14, 0, 94 and 84, sea being raised from -1. *)
Theorem calculateFactorScores_scores_inherited :
  map (noiseAt still) [0; 1; 2; 3]%nat = [0; 0; 0; 0] /\
  or_else (get "constructor") (get "residential") = Inherited /\
  map score (fst (calculateFactorScores 19.05 72.83 "constructor" still))
    = [PrimFloat.nan; PrimFloat.nan; PrimFloat.nan; PrimFloat.nan] /\
  Forall (fun f => (0 <=? score f) = false /\ (score f <=? 100) = false)
         (fst (calculateFactorScores 19.05 72.83 "constructor" still)) /\
  (forall (lat lng : float) (w : World),
     Forall (fun key =>
               map (fun f => is_nan (score f))
                   (fst (calculateFactorScores lat lng key w))
               = [true; true; true; true])
            Object_prototype_keys) /\
  map (noiseAt high_noise) [0; 1; 2; 3]%nat
    = [4.800000000000001; 4.800000000000001; 4.800000000000001;
       4.800000000000001] /\
  map score (fst (calculateFactorScores 26.29 73.02 "agricultural"
                    high_noise))
    = [40; 15; 100; 100] /\
  map (noiseAt low_noise) [0; 1; 2; 3]%nat = [-6; -6; -6; -6] /\
  map score (fst (calculateFactorScores 26.29 73.02 "residential"
                    low_noise))
    = [14; 0; 94; 84].
Proof.
  split; [vm_compute; reflexivity|].
  split; [reflexivity|].
  split; [vm_compute; reflexivity|].
  split.
  { apply Forall_forall. intros f Hf.
    apply (in_map score) in Hf.
    rewrite (scores_inherited 19.05 72.83 "constructor" still eq_refl)
      in Hf.
    cbn [In] in Hf.
    repeat (destruct Hf as [<-|Hf]; [split; reflexivity|]).
    contradiction. }
  split.
  { intros lat lng w. apply Forall_forall. intros key Hkey.
    rewrite <- (map_map score is_nan).
    rewrite (scores_inherited lat lng key w (modifier_inherited key Hkey)).
    reflexivity. }
  repeat split; vm_compute; reflexivity.
Qed.

(** ** Lending adjustments, rule by rule *)

Lemma leb_ltb_trans (a b x : float) :
  (a <=? b) = true -> (b <? x) = true -> (a <? x) = true.
Proof.
  intros Hab Hbx.
  destruct (leb_not_nan _ _ Hab) as [Na _].
  destruct (leb_not_nan _ _ (ltb_leb _ _ Hbx)) as [_ Nx].
  rewrite (ltb_negb_leb a x Na Nx).
  destruct (x <=? a) eqn:E; trivial.
  rewrite (leb_not_ltb x b (leb_trans x a b E Hab)) in Hbx. discriminate.
Qed.

Lemma ltb_not_gtb (x a b : float) :
  (x <? a) = true -> (a <=? b) = true -> (b <? x) = false.
Proof.
  intros Hx Hab.
  apply leb_not_ltb, (leb_trans x a b); [apply ltb_leb, Hx | exact Hab].
Qed.

(** [generateLendingAdjustments] pushes its entries one after the other:
    the list is the concatenation of the entries whose rule fires. *)
Lemma push_if_app (c : bool) (a : LendingAdjustment)
    (l : list LendingAdjustment) :
  push_if c a l = (l ++ (if c then [a] else []))%list.
Proof. destruct c; cbn; [reflexivity | rewrite app_nil_r; reflexivity]. Qed.

Lemma map_filter_entry {B} (g : LendingAdjustment -> B)
    (f : LendingAdjustment -> bool) (c : bool) (a : LendingAdjustment) :
  map g (filter f (if c then [a] else [])) =
  if f a then (if c then [g a] else []) else [].
Proof. destruct c; cbn; destruct (f a); reflexivity. Qed.

Lemma count_entry (f : LendingAdjustment -> bool) (c : bool)
    (a : LendingAdjustment) :
  List.length (filter f (if c then [a] else [])) =
  if f a then (if c then 1%nat else 0%nat) else 0%nat.
Proof. destruct c; cbn; destruct (f a); reflexivity. Qed.

Lemma find_entry (f : LendingAdjustment -> bool) (c : bool)
    (a : LendingAdjustment) :
  find f (if c then [a] else []) =
  if f a then (if c then Some a else None) else None.
Proof. destruct c; cbn; destruct (f a); reflexivity. Qed.

Lemma find_app_entry {A} (f : A -> bool) (l1 l2 : list A) :
  find f (l1 ++ l2)%list =
  match find f l1 with Some x => Some x | None => find f l2 end.
Proof.
  induction l1 as [|x l1 IH]; cbn; [reflexivity|].
  destruct (f x); [reflexivity | exact IH].
Qed.

Ltac entries :=
  unfold generateLendingAdjustments; cbv zeta; rewrite !push_if_app;
  cbn [app].

(** X6: when the classification is the one [classifyRisk] gives the
    score, the adjustments other than insurance requirements are, in
    order: for Low the "standard terms" note alone; for Moderate the
    premium "+0.5% p.a." (info); for High the premium "+1.5% p.a." and
    the cap "Max 70% LTV" (warning); for Severe the premium "+2.5% p.a.",
    the cap "Max 60% LTV" and enhanced due diligence (critical); followed,
    except for Low, by the seasonal warning when the property is
    agricultural and the score is above 40. *)
Theorem generateLendingAdjustments_terms (score : float)
    (propertyType : string) (fs : list ClimateFactorScore) :
  let seasonal :=
    if String.eqb propertyType "agricultural" && gtb score 40
    then [(risk_warning, "Kharif/Rabi Season Risk", Some "Conditional",
           warning)]
    else [] in
  map summary
    (terms (generateLendingAdjustments score (classifyRisk score)
              propertyType fs)) =
  match classifyRisk score with
  | Low =>
      [ (risk_warning, "Standard Lending Terms Applicable",
         Some "No adjustment", info) ]
  | Moderate =>
      (interest_rate, "Climate Risk Premium", Some "+0.5% p.a.", info)
      :: seasonal
  | High =>
      (interest_rate, "Climate Risk Premium", Some "+1.5% p.a.", warning)
      :: (loan_cap, "Loan-to-Value Cap", Some "Max 70% LTV", warning)
      :: seasonal
  | Severe =>
      (interest_rate, "Climate Risk Premium", Some "+2.5% p.a.", critical)
      :: (loan_cap, "Loan-to-Value Cap", Some "Max 60% LTV", critical)
      :: (enhanced_due_diligence, "Enhanced Climate Due Diligence",
          Some "Required", critical)
      :: seasonal
  end.
Proof.
  entries. unfold terms.
  rewrite !filter_app, !map_app, !map_filter_entry.
  cbn [is_insurance type type_eqb negb app].
  unfold classifyRisk, gtb.
  destruct (score <? 25) eqn:E25.
  - rewrite (ltb_not_gtb score 25 40 E25 eq_refl), andb_false_r.
    vm_compute. reflexivity.
  - destruct (score <? 50), (score <? 75), (40 <? score),
             (String.eqb propertyType "agricultural");
      vm_compute; reflexivity.
Qed.

(** X7: the insurance requirements depend on the flood and sea-level
    scores of the factor list alone (0 where the factor is missing), not
    on the score, the classification or the property type: flood cover
    is mandatory (critical) above 65 and recommended (warning) above 40,
    coastal hazard cover is required above 50, critical above 70; flood
    comes first. *)
Theorem generateLendingAdjustments_insurances (score : float)
    (classification : RiskClassification) (propertyType : string)
    (fs : list ClimateFactorScore) :
  let floodScore := scoreOf "Flood Probability" 0 fs in
  let seaScore := scoreOf "Sea-Level Rise Exposure" 0 fs in
  map summary
    (insurances (generateLendingAdjustments score classification
                   propertyType fs)) =
  app
    (if gtb floodScore 65
     then [(insurance, "Mandatory Flood Insurance", Some "Mandatory",
            critical)]
     else if gtb floodScore 40
     then [(insurance, "Recommended Flood Cover", Some "Recommended",
            warning)]
     else [])
    (if gtb seaScore 70
     then [(insurance, "Coastal Hazard Insurance", Some "Required",
            critical)]
     else if gtb seaScore 50
     then [(insurance, "Coastal Hazard Insurance", Some "Required",
            warning)]
     else []).
Proof.
  intros floodScore seaScore. entries. fold floodScore seaScore.
  unfold insurances.
  rewrite !filter_app, !map_app, !map_filter_entry.
  cbn [is_insurance type type_eqb app]. rewrite !app_nil_r.
  unfold summary, gtb. cbn [type title value severity].
  clearbody floodScore seaScore.
  assert (F : (65 <? floodScore) = true -> (40 <? floodScore) = true)
    by (apply leb_ltb_trans; reflexivity).
  assert (S : (70 <? seaScore) = true -> (50 <? seaScore) = true)
    by (apply leb_ltb_trans; reflexivity).
  destruct (65 <? floodScore); [rewrite (F eq_refl)|];
    (destruct (70 <? seaScore); [rewrite (S eq_refl)|]);
    try destruct (40 <? floodScore); try destruct (50 <? seaScore);
    reflexivity.
Qed.

(** ** The lending panel on the adjustments of the engine *)

(** X8: the effective rate the panel shows for the adjustments of the
    engine is the base rate plus the premium of the score's band: nothing
    below 25, 0.5 below 50, 1.5 below 75 and 2.5 otherwise, a score that
    is not a number included; the premium is read back from the text
    "+0.5% p.a." and the like. *)
Theorem effectiveRate_of_engine (score : float)
    (classification : RiskClassification) (propertyType : string)
    (fs : list ClimateFactorScore) (baseLine : float) :
  effectiveRate
    (generateLendingAdjustments score classification propertyType fs)
    baseLine =
  if score <? 25 then baseLine
  else if score <? 50 then baseLine + 0.5
  else if score <? 75 then baseLine + 1.5
  else baseLine + 2.5.
Proof.
  unfold effectiveRate. entries.
  rewrite !find_app_entry, !find_entry.
  cbn [type type_eqb value].
  destruct (score <? 25); [reflexivity|].
  destruct (score <? 50); [vm_compute; reflexivity|].
  destruct (score <? 75); vm_compute; reflexivity.
Qed.

(** X9: the counts the panel shows for a report of the engine
    (classification from [classifyRisk]): critical entries are the three
    of a Severe report, flood cover when the flood score is above 65 and
    coastal cover when the sea-level score is above 70; warnings are the
    two of a High report, flood cover for a flood score above 40 up to
    65, coastal cover for a sea-level score above 50 up to 70, and the
    seasonal warning of an agricultural property with a score above 40. *)
Theorem panel_counts_of_engine (score : float) (propertyType : string)
    (fs : list ClimateFactorScore) :
  let floodScore := scoreOf "Flood Probability" 0 fs in
  let seaScore := scoreOf "Sea-Level Rise Exposure" 0 fs in
  let l := generateLendingAdjustments score (classifyRisk score)
             propertyType fs in
  let count (b : bool) := if b then 1%nat else 0%nat in
  criticalCount l =
    ((match classifyRisk score with Severe => 3 | _ => 0 end)
     + count (gtb floodScore 65) + count (gtb seaScore 70))%nat /\
  warningCount l =
    ((match classifyRisk score with High => 2 | _ => 0 end)
     + count (gtb floodScore 40 && negb (gtb floodScore 65))
     + count (gtb seaScore 50 && negb (gtb seaScore 70))
     + count (String.eqb propertyType "agricultural" && gtb score 40))%nat.
Proof.
  intros floodScore seaScore l count. unfold l. entries.
  fold floodScore seaScore. unfold criticalCount, warningCount.
  rewrite !filter_app, !length_app, !count_entry.
  cbn [severity List.length filter].
  unfold classifyRisk, gtb, count.
  clearbody floodScore seaScore.
  assert (F : (65 <? floodScore) = true -> (40 <? floodScore) = true)
    by (apply leb_ltb_trans; reflexivity).
  assert (S : (70 <? seaScore) = true -> (50 <? seaScore) = true)
    by (apply leb_ltb_trans; reflexivity).
  destruct (65 <? floodScore); [rewrite (F eq_refl)|];
    (destruct (70 <? seaScore); [rewrite (S eq_refl)|]);
    clear F S;
    (destruct (score <? 25) eqn:E25;
     [ rewrite (ltb_not_gtb score 25 40 E25 eq_refl), andb_false_r
     | destruct (score <? 50), (score <? 75), (40 <? score),
                (String.eqb propertyType "agricultural") ]);
    try destruct (40 <? floodScore); try destruct (50 <? seaScore);
    split; reflexivity.
Qed.

(** ** Projections: the ends of the horizon *)

(** A score of the data model is unchanged by the rounding to one
    decimal, and after 20 years each hazard has gained 25 (flood), 24
    (heat), 27 (sea level) and 18 (water) points, up to the cap. *)
Lemma curve_ends (s : float) :
  is_score s ->
  round1 s = s /\
  (curve s 18 7 10 = Math_min 100 (s + 25) /\
   curve s 15 9 10 = Math_min 100 (s + 24) /\
   curve s 22 5 10 = Math_min 100 (s + 27) /\
   curve s 12 6 10 = Math_min 100 (s + 18)) /\
  (round1 (Math_min 100 (s + 25)) = Math_min 100 (s + 25) /\
   round1 (Math_min 100 (s + 24)) = Math_min 100 (s + 24) /\
   round1 (Math_min 100 (s + 27)) = Math_min 100 (s + 27) /\
   round1 (Math_min 100 (s + 18)) = Math_min 100 (s + 18)).
Proof.
  intros H. apply is_score_In in H.
  assert (K : forallb (fun s =>
                PrimFloat.Leibniz.eqb (round1 s) s
                && (PrimFloat.Leibniz.eqb (curve s 18 7 10)
                                          (Math_min 100 (s + 25))
                    && PrimFloat.Leibniz.eqb (curve s 15 9 10)
                                             (Math_min 100 (s + 24))
                    && PrimFloat.Leibniz.eqb (curve s 22 5 10)
                                             (Math_min 100 (s + 27))
                    && PrimFloat.Leibniz.eqb (curve s 12 6 10)
                                             (Math_min 100 (s + 18)))
                && (PrimFloat.Leibniz.eqb (round1 (Math_min 100 (s + 25)))
                                          (Math_min 100 (s + 25))
                    && PrimFloat.Leibniz.eqb (round1 (Math_min 100 (s + 24)))
                                             (Math_min 100 (s + 24))
                    && PrimFloat.Leibniz.eqb (round1 (Math_min 100 (s + 27)))
                                             (Math_min 100 (s + 27))
                    && PrimFloat.Leibniz.eqb (round1 (Math_min 100 (s + 18)))
                                             (Math_min 100 (s + 18))))
                scores = true)
    by (vm_compute; reflexivity).
  rewrite forallb_forall in K. specialize (K s H).
  rewrite !andb_true_iff, !FloatAxioms.Leibniz.eqb_spec in K. tauto.
Qed.

(** X10: for a factor list whose scores are scores of the data model, the
    first projection point is dated this year and carries the scores
    themselves; the last is dated 20 years on and carries each score
    raised by 25 (flood), 24 (heat), 27 (sea level) and 18 (water)
    points, capped at 100. *)
Theorem generateProjections_ends (fs : list ClimateFactorScore) (w : World) :
  Forall (fun f => is_score (score f)) fs ->
  let floodBase := scoreOf "Flood Probability" 50 fs in
  let heatBase := scoreOf "Heat Stress Index" 50 fs in
  let seaBase := scoreOf "Sea-Level Rise Exposure" 50 fs in
  let waterBase := scoreOf "Water Scarcity Projection" 50 fs in
  exists p q,
    nth_error (fst (generateProjections fs w)) 0 = Some p /\
    nth_error (fst (generateProjections fs w)) 10 = Some q /\
    (year p = fullYear w /\
     flood_risk p = floodBase /\ heat_stress p = heatBase /\
     sea_level_rise p = seaBase /\ water_scarcity p = waterBase) /\
    (year q = (fullYear w + 20)%Z /\
     flood_risk q = Math_min 100 (floodBase + 25) /\
     heat_stress q = Math_min 100 (heatBase + 24) /\
     sea_level_rise q = Math_min 100 (seaBase + 27) /\
     water_scarcity q = Math_min 100 (waterBase + 18)).
Proof.
  intros Hfs floodBase heatBase seaBase waterBase.
  pose proof (scoreOf_is_score "Flood Probability" fs Hfs) as Sf.
  pose proof (scoreOf_is_score "Heat Stress Index" fs Hfs) as Sh.
  pose proof (scoreOf_is_score "Sea-Level Rise Exposure" fs Hfs) as Ss.
  pose proof (scoreOf_is_score "Water Scarcity Projection" fs Hfs) as Sw.
  fold floodBase in Sf. fold heatBase in Sh.
  fold seaBase in Ss. fold waterBase in Sw.
  do 2 eexists.
  split; [apply generateProjections_nth; lia|].
  split; [apply generateProjections_nth; lia|].
  fold floodBase heatBase seaBase waterBase.
  unfold projectionAt.
  cbn [year flood_risk heat_stress sea_level_rise water_scarcity].
  fold (curve floodBase 18 7 0) (curve floodBase 18 7 10)
       (curve heatBase 15 9 0) (curve heatBase 15 9 10)
       (curve seaBase 22 5 0) (curve seaBase 22 5 10)
       (curve waterBase 12 6 0) (curve waterBase 12 6 10).
  destruct (curve_start _ Sf) as (Ef & _ & _ & _).
  destruct (curve_start _ Sh) as (_ & Eh & _ & _).
  destruct (curve_start _ Ss) as (_ & _ & Es & _).
  destruct (curve_start _ Sw) as (_ & _ & _ & Ew).
  destruct (curve_ends _ Sf) as (Rf & (Cf & _) & (Qf & _)).
  destruct (curve_ends _ Sh) as (Rh & (_ & Ch & _) & (_ & Qh & _)).
  destruct (curve_ends _ Ss) as (Rs & (_ & _ & Cs & _) & (_ & _ & Qs & _)).
  destruct (curve_ends _ Sw) as (Rw & (_ & _ & _ & Cw) & (_ & _ & _ & Qw)).
  rewrite Ef, Eh, Es, Ew, Cf, Ch, Cs, Cw, Rf, Rh, Rs, Rw, Qf, Qh, Qs, Qw.
  split; [|split]; repeat split; lia.
Qed.

Lemma generateProjections_ends_witness :
  exists q,
    nth_error fixture_projections 10 = Some q /\
    year q = 2046%Z /\ flood_risk q = 95 /\ sea_level_rise q = 87.
Proof.
  destruct (generateProjections_ends fixture still fixture_scores)
    as (p & q & _ & Hq & _ & Hy & Hf & _ & Hs & _).
  exists q. split; [exact Hq|].
  split; [exact Hy|]. split; [exact Hf | exact Hs].
Defined.

(** ** Factor lists that lack a factor *)

Lemma find_named_none (n : string) (fs : list ClimateFactorScore) :
  (forall f, In f fs -> factor f <> n) -> find (named n) fs = None.
Proof.
  intros H. induction fs as [|f fs IH]; [reflexivity|].
  cbn [find]. unfold named at 1.
  destruct (String.eqb_spec (factor f) n) as [E|_].
  - exfalso. apply (H f); [left; reflexivity | exact E].
  - apply IH. intros g Hg. apply H. right. exact Hg.
Qed.

(** X11: a factor list with none of the four factor names (the empty
    list, say) is accepted: the projection then starts from 50 for every
    hazard, its first point being 50 throughout, and the lending rules
    take the flood and sea-level scores for 0 and ask for no insurance,
    whatever score and classification they are given. *)
Theorem missing_factors_defaults (fs : list ClimateFactorScore) (w : World)
    (score : float) (classification : RiskClassification)
    (propertyType : string) :
  (forall f, In f fs -> ~ In (factor f) hazard_names) ->
  fst (generateProjections fs w) =
    map (projectionAt (fullYear w) 50 50 50 50) (seq 0 11) /\
  hd_error (fst (generateProjections fs w)) =
    Some {| year := fullYear w; flood_risk := 50; heat_stress := 50;
            sea_level_rise := 50; water_scarcity := 50;
            composite_risk := 50 |} /\
  insurances (generateLendingAdjustments score classification propertyType
                fs) = [].
Proof.
  intros H.
  assert (N : forall n, In n hazard_names -> find (named n) fs = None).
  { intros n Hn. apply find_named_none. intros f Hf E.
    apply (H f Hf). rewrite E. exact Hn. }
  assert (Nf : find (named "Flood Probability") fs = None)
    by (apply N; cbn; tauto).
  assert (Nh : find (named "Heat Stress Index") fs = None)
    by (apply N; cbn; tauto).
  assert (Ns : find (named "Sea-Level Rise Exposure") fs = None)
    by (apply N; cbn; tauto).
  assert (Nw : find (named "Water Scarcity Projection") fs = None)
    by (apply N; cbn; tauto).
  assert (P : fst (generateProjections fs w) =
              map (projectionAt (fullYear w) 50 50 50 50) (seq 0 11)).
  { unfold generateProjections, bind, ret, getFullYear, scoreOf.
    rewrite Nf, Nh, Ns, Nw. reflexivity. }
  split; [exact P|]. split.
  - rewrite P. cbn [seq map hd_error]. unfold projectionAt.
    rewrite Z.add_0_r. reflexivity.
  - entries. unfold scoreOf. rewrite Nf, Ns. unfold insurances.
    rewrite !filter_app, !app_nil_r.
    change (gtb 0 40) with false. change (gtb 0 50) with false.
    cbn [filter app].
    repeat match goal with
           | |- context [filter ?f (if ?c then _ else _)] => destruct c
           end; reflexivity.
Qed.

Lemma missing_factors_defaults_witness :
  insurances (generateLendingAdjustments 82 Severe "residential" []) = [] /\
  option_map composite_risk (hd_error (fst (generateProjections [] still)))
    = Some 50.
Proof.
  destruct (missing_factors_defaults [] still 82 Severe "residential")
    as (_ & H & K).
  - intros f [].
  - split; [exact K|]. rewrite H. reflexivity.
Defined.

(** ** The projection chart on the projections of the engine *)

(** On the projections of the engine for a factor list whose scores are
    scores of the data model, the initial and final scores of the chart
    in closed form. *)
Lemma chart_scores_closed (fs : list ClimateFactorScore) (w : World) :
  Forall (fun f => is_score (score f)) fs ->
  let floodBase := scoreOf "Flood Probability" 50 fs in
  let heatBase := scoreOf "Heat Stress Index" 50 fs in
  let seaBase := scoreOf "Sea-Level Rise Exposure" 50 fs in
  let waterBase := scoreOf "Water Scarcity Projection" 50 fs in
  let ps := fst (generateProjections fs w) in
  initialScore ps =
    round1 (floodBase * 0.35 + seaBase * 0.25 + heatBase * 0.25
            + waterBase * 0.15) /\
  finalScore ps =
    round1 (Math_min 100 (floodBase + 25) * 0.35
            + Math_min 100 (seaBase + 27) * 0.25
            + Math_min 100 (heatBase + 24) * 0.25
            + Math_min 100 (waterBase + 18) * 0.15).
Proof.
  intros Hfs floodBase heatBase seaBase waterBase ps.
  pose proof (scoreOf_is_score "Flood Probability" fs Hfs) as Sf.
  pose proof (scoreOf_is_score "Heat Stress Index" fs Hfs) as Sh.
  pose proof (scoreOf_is_score "Sea-Level Rise Exposure" fs Hfs) as Ss.
  pose proof (scoreOf_is_score "Water Scarcity Projection" fs Hfs) as Sw.
  fold floodBase in Sf. fold heatBase in Sh.
  fold seaBase in Ss. fold waterBase in Sw.
  assert (L : List.length ps = 11%nat).
  { unfold ps, generateProjections, bind, ret, getFullYear. cbn [fst].
    rewrite length_map, length_seq. reflexivity. }
  unfold initialScore, finalScore. rewrite L.
  change (at_index ps (Z.of_nat 11 - 1)) with (nth_error ps 10).
  change (at_index ps 0) with (nth_error ps 0).
  unfold ps.
  rewrite !generateProjections_nth by lia.
  fold floodBase heatBase seaBase waterBase.
  unfold projectionAt. cbn [composite_risk].
  fold (curve floodBase 18 7 0) (curve floodBase 18 7 10)
       (curve heatBase 15 9 0) (curve heatBase 15 9 10)
       (curve seaBase 22 5 0) (curve seaBase 22 5 10)
       (curve waterBase 12 6 0) (curve waterBase 12 6 10).
  destruct (curve_start _ Sf) as (Ef & _ & _ & _).
  destruct (curve_start _ Sh) as (_ & Eh & _ & _).
  destruct (curve_start _ Ss) as (_ & _ & Es & _).
  destruct (curve_start _ Sw) as (_ & _ & _ & Ew).
  destruct (curve_ends _ Sf) as (_ & (Cf & _) & _).
  destruct (curve_ends _ Sh) as (_ & (_ & Ch & _) & _).
  destruct (curve_ends _ Ss) as (_ & (_ & _ & Cs & _) & _).
  destruct (curve_ends _ Sw) as (_ & (_ & _ & _ & Cw) & _).
  rewrite Ef, Eh, Es, Ew, Cf, Ch, Cs, Cw.
  split; reflexivity.
Qed.

(** ** The bands of the engine and of the views *)

(** X13: the label and the colour the factor cards give a score, and
    the band the officers' view shows beside a factor, are those of the
    band [classifyRisk] puts it in, for every number, one that is not a
    number included. *)
Theorem getScoreLabel_classifyRisk (score : float) :
  getScoreLabel score = classification_name (classifyRisk score) /\
  Officers.cls score = classification_name (classifyRisk score) /\
  getScoreColor score =
    match classifyRisk score with
    | Low => "hsl(var(--risk-low))"
    | Moderate => "hsl(var(--risk-moderate))"
    | High => "hsl(var(--risk-high))"
    | Severe => "hsl(var(--risk-severe))"
    end.
Proof.
  unfold getScoreLabel, getScoreColor, Officers.cls, classifyRisk.
  destruct (score <? 25), (score <? 50), (score <? 75); repeat split.
Qed.

(** X14: the portfolio view bands scores at 30, 60 and 80 where the
    engine bands them at 25, 50 and 75.  It never rates a number higher
    than the engine; the two agree exactly on the numbers outside the
    ranges from 25 up to 30, from 50 up to 60 and from 75 up to 80; what
    is not a number is Low for the view and Severe for the engine. *)
Theorem classifyByScore_classifyRisk (score : float) :
  (rank (classifyByScore score) <= rank (classifyRisk score))%nat /\
  (classifyByScore score = classifyRisk score <->
   is_nan score = false /\
   ((25 <=? score) && (score <? 30) || (50 <=? score) && (score <? 60)
    || (75 <=? score) && (score <? 80)) = false) /\
  (is_nan score = true ->
   classifyByScore score = Low /\ classifyRisk score = Severe).
Proof.
  apply and_assoc. split.
  2: { intros N. unfold classifyByScore, classifyRisk.
       rewrite !(leb_nan_r score _ N), !(ltb_nan_l score _ N).
       split; reflexivity. }
  unfold classifyByScore, classifyRisk.
  destruct (is_nan score) eqn:N.
  - rewrite !(leb_nan_r score _ N), !(ltb_nan_l score _ N).
    cbn. split; [lia|]. split; [discriminate | intros [E _]; discriminate].
  - rewrite (ltb_negb_leb score 25 N eq_refl),
            (ltb_negb_leb score 50 N eq_refl),
            (ltb_negb_leb score 75 N eq_refl),
            (ltb_negb_leb score 30 N eq_refl),
            (ltb_negb_leb score 60 N eq_refl),
            (ltb_negb_leb score 80 N eq_refl).
    assert (T : forall a b, (a <=? b) = true ->
                  (b <=? score) = true -> (a <=? score) = true)
      by (intros a b Hab Hb; exact (leb_trans a b score Hab Hb)).
    destruct (80 <=? score) eqn:E80.
    { rewrite (T 75 80 eq_refl E80), (T 60 80 eq_refl E80),
              (T 50 80 eq_refl E80), (T 30 80 eq_refl E80),
              (T 25 80 eq_refl E80).
      cbn. split; [lia|]. split; intros _; repeat split. }
    destruct (75 <=? score) eqn:E75.
    { rewrite (T 60 75 eq_refl E75), (T 50 75 eq_refl E75),
              (T 30 75 eq_refl E75), (T 25 75 eq_refl E75).
      cbn. split; [lia|].
      split; [discriminate | intros [_ E]; discriminate]. }
    destruct (60 <=? score) eqn:E60.
    { rewrite (T 50 60 eq_refl E60), (T 30 60 eq_refl E60),
              (T 25 60 eq_refl E60).
      cbn. split; [lia|]. split; intros _; repeat split. }
    destruct (50 <=? score) eqn:E50.
    { rewrite (T 30 50 eq_refl E50), (T 25 50 eq_refl E50).
      cbn. split; [lia|].
      split; [discriminate | intros [_ E]; discriminate]. }
    destruct (30 <=? score) eqn:E30.
    { rewrite (T 25 30 eq_refl E30).
      cbn. split; [lia|]. split; intros _; repeat split. }
    destruct (25 <=? score) eqn:E25.
    { cbn. split; [lia|].
      split; [discriminate | intros [_ E]; discriminate]. }
    cbn. split; [lia|]. split; intros _; repeat split.
Qed.

Lemma classifyByScore_classifyRisk_witness :
  is_nan PrimFloat.nan = true /\
  classifyByScore PrimFloat.nan = Low /\
  classifyRisk PrimFloat.nan = Severe.
Proof.
  split; [reflexivity|].
  exact (proj2 (proj2 (classifyByScore_classifyRisk PrimFloat.nan))
           eq_refl).
Defined.

Lemma leb_ltb (x y c : float) :
  (x <=? y) = true -> (y <? c) = true -> (x <? c) = true.
Proof.
  intros Hxy Hyc.
  destruct (leb_not_nan _ _ Hxy) as [Nx _].
  destruct (leb_not_nan _ _ (ltb_leb _ _ Hyc)) as [_ Nc].
  rewrite (ltb_negb_leb x c Nx Nc).
  destruct (c <=? x) eqn:E; trivial.
  rewrite (leb_not_ltb c y (leb_trans c x y E Hxy)) in Hyc. discriminate.
Qed.

(** X23: both bandings are monotone: of two numbers in order the larger
    is never put in a lower band, by [classifyRisk] as by
    [classifyByScore]. *)
Theorem classification_monotone (x y : float) :
  (x <=? y) = true ->
  (rank (classifyRisk x) <= rank (classifyRisk y))%nat /\
  (rank (classifyByScore x) <= rank (classifyByScore y))%nat.
Proof.
  intros H. split.
  - unfold classifyRisk.
    destruct (y <? 25) eqn:Y25.
    { rewrite (leb_ltb x y 25 H Y25). cbn. lia. }
    destruct (y <? 50) eqn:Y50.
    { rewrite (leb_ltb x y 50 H Y50). destruct (x <? 25); cbn; lia. }
    destruct (y <? 75) eqn:Y75.
    { rewrite (leb_ltb x y 75 H Y75).
      destruct (x <? 25), (x <? 50); cbn; lia. }
    destruct (x <? 25), (x <? 50), (x <? 75); cbn; lia.
  - unfold classifyByScore.
    destruct (80 <=? x) eqn:X80.
    { rewrite (leb_trans 80 x y X80 H). cbn. lia. }
    destruct (60 <=? x) eqn:X60.
    { rewrite (leb_trans 60 x y X60 H). destruct (80 <=? y); cbn; lia. }
    destruct (30 <=? x) eqn:X30.
    { rewrite (leb_trans 30 x y X30 H).
      destruct (80 <=? y), (60 <=? y); cbn; lia. }
    destruct (80 <=? y), (60 <=? y), (30 <=? y); cbn; lia.
Qed.

Lemma classification_monotone_witness :
  (rank (classifyRisk 49) <= rank (classifyRisk 50))%nat /\
  (rank (classifyByScore 49) <= rank (classifyByScore 50))%nat.
Proof. apply (classification_monotone 49 50). reflexivity. Defined.

(** ** Enumerating the sums of weighted scores *)

Section Distinct.

Lemma In_merge (l1 l2 : list float) (x : float) :
  In x l1 \/ In x l2 -> In x (merge l1 l2).
Proof.
  revert l2. induction l1 as [|a1 l1 IH1]; intros l2.
  - intros [[]|H]. destruct l2; exact H.
  - induction l2 as [|a2 l2 IH2].
    + intros [H|[]]. exact H.
    + intros H. cbn [merge].
      destruct (a1 <? a2).
      * destruct H as [[<-|H]|H].
        -- left. reflexivity.
        -- right. apply IH1. left. exact H.
        -- right. apply IH1. right. exact H.
      * destruct (PrimFloat.Leibniz.eqb a1 a2) eqn:E.
        -- apply FloatAxioms.Leibniz.eqb_spec in E. subst a2.
           destruct H as [[<-|H]|[<-|H]].
           ++ left. reflexivity.
           ++ right. apply IH1. left. exact H.
           ++ left. reflexivity.
           ++ right. apply IH1. right. exact H.
        -- destruct H as [H|[<-|H]].
           ++ right. apply IH2. left. exact H.
           ++ left. reflexivity.
           ++ right. apply IH2. right. exact H.
Qed.

Let stacked (stack : list (option (list float))) (x : float) : Prop :=
  exists l, In (Some l) stack /\ In x l.

Lemma stacked_merge_list_to_stack (stack : list (option (list float)))
    (l : list float) (x : float) :
  In x l \/ stacked stack x -> stacked (merge_list_to_stack stack l) x.
Proof.
  revert l. induction stack as [|[l'|] stack IH]; intros l H;
    cbn [merge_list_to_stack].
  - destruct H as [H|(m & [] & _)].
    exists l. split; [left; reflexivity | exact H].
  - destruct (IH (merge l' l)) as (m & Hm & Hx).
    + destruct H as [H|(m & [Hm|Hm] & Hx)].
      * left. apply In_merge. right. exact H.
      * injection Hm as ->. left. apply In_merge. left. exact Hx.
      * right. exists m. split; assumption.
    + exists m. split; [right; exact Hm | exact Hx].
  - destruct H as [H|(m & [Hm|Hm] & Hx)].
    + exists l. split; [left; reflexivity | exact H].
    + discriminate Hm.
    + exists m. split; [right; exact Hm | exact Hx].
Qed.

Lemma In_merge_stack (stack : list (option (list float))) (x : float) :
  stacked stack x -> In x (merge_stack stack).
Proof.
  induction stack as [|[l|] stack IH]; intros (m & Hm & Hx);
    cbn [merge_stack].
  - destruct Hm.
  - apply In_merge. destruct Hm as [Hm|Hm].
    + injection Hm as ->. left. exact Hx.
    + right. apply IH. exists m. split; assumption.
  - destruct Hm as [Hm|Hm]; [discriminate Hm|].
    apply IH. exists m. split; assumption.
Qed.

Lemma In_iter_merge (l : list float) (stack : list (option (list float)))
    (x : float) :
  In x l \/ stacked stack x -> In x (iter_merge stack l).
Proof.
  revert stack. induction l as [|a l IH]; intros stack H; cbn [iter_merge].
  - destruct H as [[]|H]. apply In_merge_stack, H.
  - apply IH. destruct H as [[<-|H]|H].
    + right. apply stacked_merge_list_to_stack. left. left. reflexivity.
    + left. exact H.
    + right. apply stacked_merge_list_to_stack. right. exact H.
Qed.

Lemma distinct_In (l : list float) (y : float) :
  In y l -> In y (distinct l).
Proof. intros H. apply In_iter_merge. left. exact H. Qed.

End Distinct.

Lemma sums_In (A B : list float) (a b : float) :
  In a A -> In b B -> In (a + b) (sums A B).
Proof.
  intros Ha Hb. apply distinct_In, in_flat_map.
  exists a. split; [exact Ha|].
  apply (in_map (fun b => a + b)), Hb.
Qed.

Lemma shares_In (weight s : float) :
  is_score s -> In (round1 (s * weight)) (shares weight).
Proof.
  intros H. apply (in_map (fun s => round1 (s * weight))), is_score_In, H.
Qed.

(** The sum of the weighted scores of four scores of the data model
    rounds to an integer from 0 to 100, which the clamp leaves as it
    is. *)
Lemma weighted_sum_rounds (s1 s2 s3 s4 : float) :
  is_score s1 -> is_score s2 -> is_score s3 -> is_score s4 ->
  let rawScore :=
    0 + round1 (s1 * w_flood weights) + round1 (s2 * w_sea weights)
    + round1 (s3 * w_heat weights) + round1 (s4 * w_water weights) in
  Math_min 100 (Math_max 0 (Math_round rawScore)) = Math_round rawScore.
Proof.
  intros H1 H2 H3 H4 rawScore.
  assert (K : forallb (fun r =>
                PrimFloat.Leibniz.eqb
                  (Math_min 100 (Math_max 0 (Math_round r))) (Math_round r))
                (sums partial_sums (shares (w_water weights))) = true)
    by (vm_compute; reflexivity).
  rewrite forallb_forall in K.
  apply FloatAxioms.Leibniz.eqb_spec, K.
  unfold rawScore, partial_sums.
  repeat apply sums_In; try (apply shares_In; assumption).
  left. reflexivity.
Qed.

(** A value of [clamp] is a score of the data model or not a number. *)
Lemma clamp_cases (v : float) : is_score (clamp v) \/ clamp v = PrimFloat.nan.
Proof.
  destruct (is_nan v) eqn:N.
  - right. rewrite (is_nan_eq v N). reflexivity.
  - left. apply clamp_is_score, N.
Qed.

Lemma round1_nan (weight : float) :
  round1 (PrimFloat.nan * weight) = PrimFloat.nan.
Proof.
  assert (E : PrimFloat.nan * weight = PrimFloat.nan).
  { apply Prim2SF_inj. rewrite FloatAxioms.mul_spec.
    change (Prim2SF PrimFloat.nan) with S754_nan. reflexivity. }
  rewrite E. reflexivity.
Qed.

(** The clamp of [runClimateAssessment] never changes the rounded sum of
    the weighted scores of the scorer. *)
Lemma engine_clamp_inert (lat lng : float) (propertyType : string)
    (w : World) :
  let fs := fst (calculateFactorScores lat lng propertyType w) in
  let rawScore := fold_left (fun sum f => sum + weighted_score f) fs 0 in
  Math_min 100 (Math_max 0 (Math_round rawScore)) = Math_round rawScore.
Proof.
  intros fs rawScore. unfold rawScore, fs.
  unfold calculateFactorScores, noise, bind, ret, Math_random.
  cbn [fst snd fold_left weighted_score].
  repeat match goal with
         | |- context [clamp ?v] =>
             let c := fresh "c" in
             let H := fresh "H" in
             destruct (clamp_cases v) as [H|H];
             set (c := clamp v) in *; clearbody c
         end;
    try (apply weighted_sum_rounds; assumption);
    subst; rewrite ?round1_nan, ?add_nan_r, ?add_nan_l; reflexivity.
Qed.

(** X15: the score of a report of [runClimateAssessment] is the sum of
    the weighted scores of its factors rounded by [Math.round]: whatever
    the coordinates, the property type and the noise, that integer lies
    between 0 and 100 (or the sum is not a number), so that the clamp to
    [0, 100] changes nothing. *)
Theorem runClimateAssessment_clamp_inert (input : PropertyAssessmentInput)
    (w : World) :
  let r := fst (runClimateAssessment input w) in
  climate_risk_score r =
    Math_round (fold_left (fun sum f => sum + weighted_score f)
                          (factors r) 0) /\
  (is_score (climate_risk_score r) \/ is_nan (climate_risk_score r) = true).
Proof.
  cbv zeta.
  destruct (runClimateAssessment_parts input w) as (Hf & Hs & _).
  pose proof (engine_clamp_inert (in_latitude input) (in_longitude input)
                (in_property_type input) (snd (Math_random w))) as K.
  cbv zeta in K.
  generalize dependent (fst (runClimateAssessment input w)).
  intros r Hf Hs.
  generalize dependent
    (fst (calculateFactorScores (in_latitude input) (in_longitude input)
            (in_property_type input) (snd (Math_random w)))).
  intros fs K Hf Hs. subst fs.
  rewrite Hs. split; [exact K|].
  rewrite clamp_swap.
  destruct (clamp_cases (fold_left (fun sum f => sum + weighted_score f)
                           (factors r) 0)) as [H | H];
    unfold clamp in H; [left; exact H | right; rewrite H; reflexivity].
Qed.

(** X16: the report the officers' view builds with an unclamped
    [Math.round] agrees with the report of [runClimateAssessment] for the
    same coordinates and property type, once the engine has drawn the
    random number of its simulated latency: same factors, score,
    classification, projections and lending adjustments. *)
Theorem officers_report_agrees (app : Officers.LoanApplication) (w : World) :
  let o := fst (Officers.report app (snd (Math_random w))) in
  let r := fst (runClimateAssessment (input_of app) w) in
  factors o = factors r /\
  climate_risk_score o = climate_risk_score r /\
  risk_classification o = risk_classification r /\
  projections o = projections r /\
  lending_adjustments o = lending_adjustments r.
Proof.
  cbv zeta.
  destruct (runClimateAssessment_parts (input_of app) w)
    as (Hf & Hs & Hc & Hl & Hp & _).
  cbn [input_of in_latitude in_longitude in_property_type]
    in Hf, Hs, Hc, Hl, Hp.
  pose proof (engine_clamp_inert (Officers.lat app) (Officers.lng app)
                (Officers.propertyType app)
                (snd (Math_random w))) as K.
  cbv zeta in K. rewrite K in Hs, Hc, Hl. clear K.
  generalize dependent (fst (runClimateAssessment (input_of app) w)).
  intros r -> -> -> -> ->.
  unfold Officers.report, bind, ret.
  destruct (calculateFactorScores (Officers.lat app) (Officers.lng app)
                (Officers.propertyType app)
              (snd (Math_random w))) as [fs w2].
  cbn [fst snd].
  destruct (generateProjections fs w2) as [ps w3].
  destruct (toISOString w3) as [d w4].
  cbn [fst factors climate_risk_score risk_classification projections
       lending_adjustments].
  repeat split.
Qed.

(** ** Portfolio trends *)

Lemma pointwise_le_spec (l1 l2 : list float) :
  pointwise_le l1 l2 = true ->
  forall i a b, nth_error l1 i = Some a -> nth_error l2 i = Some b ->
    (a <=? b) = true.
Proof.
  unfold pointwise_le. rewrite forallb_forall. intros H i a b Ha Hb.
  apply (H (a, b)).
  revert l2 i Ha Hb H. induction l1 as [|x l1 IH]; intros l2 i Ha Hb H.
  - destruct i; discriminate.
  - destruct l2 as [|y l2]; [destruct i; discriminate|].
    destruct i as [|i]; cbn in Ha, Hb.
    + injection Ha as <-. injection Hb as <-. left. reflexivity.
    + right. apply (IH l2 i Ha Hb). intros ab Hab. apply H. right. exact Hab.
Qed.

(** X17: for each of the three scenarios and three horizons
    [generateSeries] returns one point every second year from 2026 to
    2026 plus the horizon; the first point is the 2026 snapshot whatever
    the scenario (flood 58, heat 62, sea level 44, water 51, exposure
    1240, 18 loans), with the composite 54.4 its four hazards give and
    not the 55 of the snapshot. *)
Theorem generateSeries_shape (scenario : Trends.Scenario)
    (h : Trends.Horizon) :
  exists first pts,
    Trends.generateSeries scenario h = Some (first :: pts) /\
    map Trends.year (first :: pts) =
      map (fun i => 2026 + of_Z (Z.of_nat i) * 2)
          (seq 0 (match h with
                  | Trends.years10 => 6
                  | Trends.years20 => 11
                  | Trends.years30 => 16
                  end)) /\
    option_map Trends.year (nth_error (first :: pts) (List.length pts)) =
      Some (2026 + Trends.horizonYears h) /\
    undated first = [58; 62; 44; 51; 54.4; 1240; 18].
Proof.
  destruct scenario, h; vm_compute; do 2 eexists; repeat split.
Qed.

(** X18: the last point of a series, its date apart, depends on the
    scenario alone, not on the horizon: the figures of the comparator
    strip (final composite risk, risk delta, share of loans at risk) are
    the same for 10, 20 and 30 years. *)
Theorem generateSeries_horizon_free (scenario : Trends.Scenario)
    (h h' : Trends.Horizon) :
  exists pts pts' last last',
    Trends.generateSeries scenario h = Some pts /\
    Trends.generateSeries scenario h' = Some pts' /\
    nth_error pts (List.length pts - 1) = Some last /\
    nth_error pts' (List.length pts' - 1) = Some last' /\
    undated last = undated last' /\
    Trends.comparator pts = Trends.comparator pts' /\
    Trends.comparator pts =
      Some (match scenario with
            | Trends.ssp1 => (66.5, "12.1", 32)
            | Trends.ssp2 => (74.5, "20.1", 39)
            | Trends.ssp5 => (88.4, "34.0", 53)
            end).
Proof.
  destruct scenario, h, h'; do 4 eexists;
    repeat (split; [vm_compute; reflexivity|]); vm_compute; reflexivity.
Qed.

(** A property checked on the nine series holds of each of them. *)
Lemma series_checked (P : list Trends.ProjectionPoint -> bool) :
  forallb (fun scenario =>
    forallb (fun h =>
      match Trends.generateSeries scenario h with
      | Some pts => P pts
      | None => false
      end) [Trends.years10; Trends.years20; Trends.years30])
    [Trends.ssp1; Trends.ssp2; Trends.ssp5] = true ->
  forall scenario h pts,
    Trends.generateSeries scenario h = Some pts -> P pts = true.
Proof.
  intros K scenario h pts Hs.
  rewrite forallb_forall in K.
  assert (Hsc : In scenario [Trends.ssp1; Trends.ssp2; Trends.ssp5])
    by (destruct scenario; cbn; tauto).
  specialize (K scenario Hsc). rewrite forallb_forall in K.
  assert (Hh : In h [Trends.years10; Trends.years20; Trends.years30])
    by (destruct h; cbn; tauto).
  specialize (K h Hh). rewrite Hs in K. exact K.
Qed.

(** X19: within a series every hazard, the composite, the exposure and
    the count of loans at risk never decrease from one point to a later
    one; the risks stay at most 100 and the count at most 87; and at
    every point the optimistic scenario is at most the middle one, which
    is at most the high-emission one. *)
Theorem generateSeries_monotone (h : Trends.Horizon) :
  (forall scenario pts col i j a b,
     Trends.generateSeries scenario h = Some pts -> In col (columns pts) ->
     (i <= j)%nat -> nth_error col i = Some a -> nth_error col j = Some b ->
     (a <=? b) = true) /\
  (forall scenario pts p,
     Trends.generateSeries scenario h = Some pts -> In p pts ->
     Forall (fun x => (x <=? 100) = true)
       [ Trends.flood_risk p; Trends.heat_stress p; Trends.sea_level_rise p;
         Trends.water_scarcity p; Trends.composite_risk p ] /\
     (Trends.high_risk_count p <=? 87) = true) /\
  (forall low mid high k col1 col2 col5 i a b c,
     Trends.generateSeries Trends.ssp1 h = Some low ->
     Trends.generateSeries Trends.ssp2 h = Some mid ->
     Trends.generateSeries Trends.ssp5 h = Some high ->
     nth_error (columns low) k = Some col1 ->
     nth_error (columns mid) k = Some col2 ->
     nth_error (columns high) k = Some col5 ->
     nth_error col1 i = Some a -> nth_error col2 i = Some b ->
     nth_error col5 i = Some c ->
     (a <=? b) = true /\ (b <=? c) = true).
Proof.
  split; [|split].
  - intros scenario pts col i j a b Hs Hcol Hij Ha Hb.
    pose proof (series_checked (fun pts => forallb series_ok (columns pts))
                  ltac:(vm_compute; reflexivity) scenario h pts Hs) as K.
    rewrite forallb_forall in K.
    apply (series_ok_spec col (K col Hcol) i j a b Hij Ha Hb).
  - intros scenario pts p Hs Hp.
    pose proof (series_checked
                  (forallb (fun p =>
                     forallb (fun x => x <=? 100)
                       [ Trends.flood_risk p; Trends.heat_stress p;
                         Trends.sea_level_rise p; Trends.water_scarcity p;
                         Trends.composite_risk p ]
                     && (Trends.high_risk_count p <=? 87)))
                  ltac:(vm_compute; reflexivity) scenario h pts Hs) as K.
    rewrite forallb_forall in K. specialize (K p Hp).
    apply andb_true_iff in K. destruct K as [K1 K2].
    split; [|exact K2].
    rewrite forallb_forall in K1. apply Forall_forall. exact K1.
  - intros low mid high k col1 col2 col5 i a b c H1 H2 H5 C1 C2 C5 Ha Hb Hc.
    assert (K : forallb (fun h =>
                  match Trends.generateSeries Trends.ssp1 h,
                        Trends.generateSeries Trends.ssp2 h,
                        Trends.generateSeries Trends.ssp5 h with
                  | Some low, Some mid, Some high =>
                      forallb (fun cc => pointwise_le (fst cc) (snd cc))
                        (combine (columns low) (columns mid))
                      && forallb (fun cc => pointwise_le (fst cc) (snd cc))
                           (combine (columns mid) (columns high))
                  | _, _, _ => false
                  end) [Trends.years10; Trends.years20; Trends.years30]
                = true) by (vm_compute; reflexivity).
    rewrite forallb_forall in K.
    assert (Hh : In h [Trends.years10; Trends.years20; Trends.years30])
      by (destruct h; cbn; tauto).
    specialize (K h Hh). rewrite H1, H2, H5 in K.
    apply andb_true_iff in K.
    destruct K as [K1 K2]. rewrite forallb_forall in K1, K2.
    assert (P : forall (l1 l2 : list (list float)) k c1 c2,
              nth_error l1 k = Some c1 -> nth_error l2 k = Some c2 ->
              In (c1, c2) (combine l1 l2)).
    { induction l1 as [|x l1 IH]; intros l2 n c1 c2 E1 E2.
      - destruct n; discriminate.
      - destruct l2 as [|y l2]; [destruct n; discriminate|].
        destruct n as [|n]; cbn in E1, E2.
        + injection E1 as <-. injection E2 as <-. left. reflexivity.
        + right. apply (IH l2 n); assumption. }
    split.
    + apply (pointwise_le_spec col1 col2 (K1 _ (P _ _ k _ _ C1 C2)) i);
        assumption.
    + apply (pointwise_le_spec col2 col5 (K2 _ (P _ _ k _ _ C2 C5)) i);
        assumption.
Qed.

Lemma generateSeries_monotone_witness :
  exists pts p q,
    Trends.generateSeries Trends.ssp5 Trends.years20 = Some pts /\
    nth_error pts 0 = Some p /\ nth_error pts 10 = Some q /\
    (Trends.composite_risk p <=? Trends.composite_risk q) = true.
Proof.
  do 3 eexists.
  split; [vm_compute; reflexivity|].
  split; [reflexivity|]. split; [reflexivity|].
  destruct (generateSeries_monotone Trends.years20) as (H & _).
  eapply (H Trends.ssp5 _ _ 0%nat 10%nat).
  - vm_compute. reflexivity.
  - do 4 right. left. reflexivity.
  - lia.
  - reflexivity.
  - reflexivity.
Defined.

(** ** The suggestion of the officers' view *)

Lemma In_scores (s : float) : In s scores -> is_score s.
Proof.
  unfold scores. rewrite in_map_iff. intros (k & <- & Hk).
  apply in_seq in Hk. exists (Z.of_nat k). split; [lia | reflexivity].
Qed.

(** X20: the loan-to-value ratio the suggestion recommends is the cap
    the engine's lending rules impose for the same classification: 70 for
    High and 60 for Severe, each with its "Max ..% LTV" adjustment, and
    no cap adjustment for the 80 of Low and the 75 of Moderate. *)
Theorem aiSuggestions_ltv_cap (r : ClimateRiskReport)
    (app : Officers.LoanApplication) (score : float) (propertyType : string)
    (fs : list ClimateFactorScore) :
  let ltv := Officers.ltv (Officers.aiSuggestions r app) in
  map value
    (filter (fun a => type_eqb (type a) loan_cap)
       (generateLendingAdjustments score (risk_classification r)
          propertyType fs)) =
  if ltv <? 75
  then [Some ("Max " ++ NumberToString.toString ltv ++ "% LTV")]
  else [].
Proof.
  cbv zeta. entries.
  rewrite !filter_app, !map_app, !map_filter_entry.
  cbn [type type_eqb Datatypes.app]. rewrite !app_nil_r.
  unfold Officers.aiSuggestions.
  destruct (risk_classification r); vm_compute; reflexivity.
Qed.

(** X21: for a report whose score is an integer from 0 to 100 and whose
    classification is the one [classifyRisk] gives it, the rate
    adjustment of the suggestion is an integer number of basis points
    from 0 to 72: 0 for Low, 25 for Moderate, and for High less than the
    25 of Moderate as long as the score is at most 70 (nothing at all at
    50). *)
Theorem aiSuggestions_rateAdj (r : ClimateRiskReport)
    (app : Officers.LoanApplication) :
  is_score (climate_risk_score r) ->
  risk_classification r = classifyRisk (climate_risk_score r) ->
  let s := climate_risk_score r in
  let a := Officers.rateAdj (Officers.aiSuggestions r app) in
  is_score a /\ (a <=? 72) = true /\
  (a = 0 <-> (s <? 25) = true \/ s = 50) /\
  (((25 <=? s) && (s <? 50)) = true -> a = 25) /\
  (((50 <=? s) && (s <=? 70)) = true -> (a <? 25) = true).
Proof.
  intros Hs Hc. cbv zeta. unfold Officers.aiSuggestions. rewrite Hc.
  clear Hc. generalize dependent (climate_risk_score r). intros s Hs.
  apply is_score_In in Hs.
  set (rate := fun s : float =>
         match classifyRisk s with
         | Low => 0
         | Moderate => 25
         | High => Math_round ((s - 50) * 1.2)
         | Severe => Math_round ((s - 60) * 1.8)
         end).
  match goal with
  | |- context [Officers.rateAdj ?t] =>
      assert (E : Officers.rateAdj t = rate s)
        by (unfold rate; destruct (classifyRisk s); reflexivity);
      rewrite !E; clear E
  end.
  assert (K : forallb (fun s =>
                existsb (PrimFloat.Leibniz.eqb (rate s)) scores
                && (rate s <=? 72)
                && Bool.eqb (PrimFloat.Leibniz.eqb (rate s) 0)
                            ((s <? 25) || PrimFloat.Leibniz.eqb s 50)
                && implb ((25 <=? s) && (s <? 50))
                         (PrimFloat.Leibniz.eqb (rate s) 25)
                && implb ((50 <=? s) && (s <=? 70)) (rate s <? 25))
                scores = true)
    by (vm_compute; reflexivity).
  rewrite forallb_forall in K. specialize (K s Hs).
  rewrite !andb_true_iff in K.
  destruct K as [[[[K1 K2] K3] K4] K5].
  split; [|split; [exact K2|split; [|split]]].
  - apply existsb_exists in K1. destruct K1 as (y & Hy & Ey).
    apply FloatAxioms.Leibniz.eqb_spec in Ey. rewrite Ey.
    apply In_scores, Hy.
  - apply Bool.eqb_prop in K3. split.
    + intros Ha. apply FloatAxioms.Leibniz.eqb_spec in Ha.
      rewrite Ha in K3. symmetry in K3. apply orb_true_iff in K3.
      destruct K3 as [L|L]; [left; exact L|right].
      apply FloatAxioms.Leibniz.eqb_spec, L.
    + intros Hb. apply FloatAxioms.Leibniz.eqb_spec. rewrite K3.
      apply orb_true_iff. destruct Hb as [L|L]; [left; exact L|right].
      apply FloatAxioms.Leibniz.eqb_spec, L.
  - intros H. rewrite H in K4. apply FloatAxioms.Leibniz.eqb_spec, K4.
  - intros H. rewrite H in K5. exact K5.
Qed.

Lemma aiSuggestions_rateAdj_witness :
  (Officers.rateAdj (Officers.aiSuggestions mumbai_report first_application)
    <=? 72) = true.
Proof.
  assert (Hs : is_score (climate_risk_score mumbai_report))
    by (exists 70%Z; split; [lia | reflexivity]).
  destruct (aiSuggestions_rateAdj mumbai_report first_application Hs eq_refl)
    as (_ & H & _).
  exact H.
Defined.

(** ** The gauges *)

(** X22: for a score that is an integer from 0 to 100, the arc of the
    score card's gauge is a length from 0 to the length of its track,
    exactly 0 at 0 and the whole track at 100, and it never shrinks as
    the score grows; likewise the arc of the officers' gauge within its
    circle. *)
Theorem gauge_arcs (s s' : float) :
  is_score s -> is_score s' ->
  let arc := fun x => ScoreCard.dasharray - ScoreCard.offset x in
  ((0 <=? arc s) = true /\ (arc s <=? ScoreCard.dasharray) = true /\
   arc 0 = 0 /\ arc 100 = ScoreCard.dasharray /\
   ((s <=? s') = true -> (arc s <=? arc s') = true)) /\
  ((0 <=? Officers.dash s) = true /\
   (Officers.dash s <=? Officers.circ) = true /\
   Officers.dash 0 = 0 /\ Officers.dash 100 = Officers.circ /\
   ((s <=? s') = true -> (Officers.dash s <=? Officers.dash s') = true)).
Proof.
  intros Hs Hs' arc. apply is_score_In in Hs, Hs'.
  assert (K : forallb (fun s =>
                (0 <=? arc s) && (arc s <=? ScoreCard.dasharray)
                && (0 <=? Officers.dash s)
                && (Officers.dash s <=? Officers.circ)
                && forallb (fun s' =>
                     implb (s <=? s')
                       ((arc s <=? arc s')
                        && (Officers.dash s <=? Officers.dash s')))
                     scores) scores = true)
    by (vm_compute; reflexivity).
  rewrite forallb_forall in K. specialize (K s Hs).
  rewrite !andb_true_iff in K.
  destruct K as [[[[K1 K2] K3] K4] K5].
  rewrite forallb_forall in K5. specialize (K5 s' Hs').
  split; (split; [|split; [|split; [|split]]]);
    try assumption; try (vm_compute; reflexivity);
    intros L; rewrite L in K5; apply andb_true_iff in K5; tauto.
Qed.

Lemma gauge_arcs_witness :
  (ScoreCard.dasharray - ScoreCard.offset 70 <=? ScoreCard.dasharray) = true.
Proof.
  destruct (gauge_arcs 70 100 score_70 score_100) as ((_ & H & _) & _).
  exact H.
Defined.

(** ** The composite risk over the horizon *)

Section Ordered.

Lemma ltb_trans (a b c : float) :
  (a <? b) = true -> (b <? c) = true -> (a <? c) = true.
Proof.
  intros Hab Hbc. apply (leb_ltb_trans a b c); [apply ltb_leb, Hab | exact Hbc].
Qed.

Lemma ascending_spec (l : list float) :
  ascending l = true ->
  forall i j a b, (i <= j)%nat ->
    nth_error l i = Some a -> nth_error l j = Some b -> (a <=? b) = true.
Proof.
  induction l as [|x l IH]; intros H i j a b Hij Ha Hb.
  - destruct i; discriminate.
  - assert (Hx : (x <=? x) = true).
    { cbn [ascending] in H. destruct l as [|y l]; [exact H|].
      apply andb_true_iff in H. destruct H as [H _].
      destruct (leb_not_nan _ _ H) as [N _].
      apply leb_total; trivial.
      destruct (x <? x) eqn:E; trivial.
      rewrite (leb_not_ltb _ _ (ltb_leb _ _ E)) in E. discriminate. }
    assert (Hl : ascending l = true).
    { cbn [ascending] in H. destruct l as [|y l]; [reflexivity|].
      apply andb_true_iff in H. tauto. }
    assert (Hhd : forall k c, nth_error l k = Some c -> (x <=? c) = true).
    { intros k c Hc. destruct l as [|y l]; [destruct k; discriminate|].
      cbn [ascending] in H. apply andb_true_iff in H. destruct H as [Hxy _].
      apply (leb_trans x y c Hxy).
      apply (IH Hl 0%nat k y c); [lia | reflexivity | exact Hc]. }
    destruct i as [|i].
    + injection Ha as <-. destruct j as [|j].
      * injection Hb as <-. exact Hx.
      * apply (Hhd j b Hb).
    + destruct j as [|j]; [lia|].
      apply (IH Hl i j a b); [lia | exact Ha | exact Hb].
Qed.

Lemma strictly_ascending_spec (l : list float) :
  strictly_ascending l = true ->
  forall i j a b, (i < j)%nat ->
    nth_error l i = Some a -> nth_error l j = Some b -> (a <? b) = true.
Proof.
  induction l as [|x l IH]; intros H i j a b Hij Ha Hb.
  - destruct i; discriminate.
  - assert (Hl : strictly_ascending l = true).
    { cbn [strictly_ascending] in H. destruct l as [|y l]; [reflexivity|].
      apply andb_true_iff in H. tauto. }
    assert (Hhd : forall k c, nth_error l k = Some c -> (x <? c) = true).
    { intros k c Hc. destruct l as [|y l]; [destruct k; discriminate|].
      cbn [strictly_ascending] in H. apply andb_true_iff in H.
      destruct H as [Hxy _].
      destruct k as [|k].
      - injection Hc as <-. exact Hxy.
      - apply (ltb_trans x y c Hxy).
        apply (IH Hl 0%nat (S k) y c); [lia | reflexivity | exact Hc]. }
    destruct j as [|j]; [lia|]. destruct i as [|i].
    + injection Ha as <-. apply (Hhd j b Hb).
    + apply (IH Hl i j a b); [lia | exact Ha | exact Hb].
Qed.

Lemma monotone_on_spec (g : float -> float) (l : list float) :
  monotone_on g l = true ->
  forall x y, In x l -> In y l -> (x <=? y) = true -> (g x <=? g y) = true.
Proof.
  unfold monotone_on. rewrite andb_true_iff. intros [Hs Ha] x y Hx Hy Hxy.
  apply In_nth_error in Hx, Hy.
  destruct Hx as [i Hi]. destruct Hy as [j Hj].
  destruct (Nat.le_gt_cases i j) as [Le|Gt].
  - apply (ascending_spec _ Ha i j); [exact Le | |];
      rewrite nth_error_map; [rewrite Hi | rewrite Hj]; reflexivity.
  - pose proof (strictly_ascending_spec l Hs j i y x Gt Hj Hi) as C.
    rewrite (leb_not_ltb _ _ Hxy) in C. discriminate.
Qed.

Lemma sum_monotone_spec (A B : list float) :
  sum_monotone A B = true ->
  forall a a' b b', In a A -> In a' A -> In b B -> In b' B ->
    (a <=? a') = true -> (b <=? b') = true -> (a + b <=? a' + b') = true.
Proof.
  unfold sum_monotone. rewrite andb_true_iff, !forallb_forall.
  intros [HA HB] a a' b b' Ia Ia' Ib Ib' Ha Hb.
  apply (leb_trans _ (a' + b)).
  - apply (monotone_on_spec (fun a => a + b) A (HA b Ib) a a' Ia Ia' Ha).
  - apply (monotone_on_spec (fun b => a' + b) B (HB a' Ia') b b' Ib Ib' Hb).
Qed.

End Ordered.

Lemma products_In (weight s : float) :
  is_score s -> In (s * weight) (products weight).
Proof.
  intros H. apply (in_map (fun s => s * weight)), is_score_In, H.
Qed.

Lemma products_monotone (x y : float) :
  is_score x -> is_score y -> (x <=? y) = true ->
  (x * 0.35 <=? y * 0.35) = true /\ (x * 0.25 <=? y * 0.25) = true /\
  (x * 0.15 <=? y * 0.15) = true.
Proof.
  intros Hx Hy Hxy. apply is_score_In in Hx, Hy.
  repeat split.
  - exact (monotone_on_spec (fun s => s * 0.35) scores
             ltac:(vm_compute; reflexivity) x y Hx Hy Hxy).
  - exact (monotone_on_spec (fun s => s * 0.25) scores
             ltac:(vm_compute; reflexivity) x y Hx Hy Hxy).
  - exact (monotone_on_spec (fun s => s * 0.15) scores
             ltac:(vm_compute; reflexivity) x y Hx Hy Hxy).
Qed.

Lemma differences_ok_spec (V : list float) :
  differences_ok V = true ->
  forall a b, In a V -> In b V -> (a <=? b) = true -> (0 <=? b - a) = true.
Proof.
  unfold differences_ok. intros K a b Ha Hb Hab.
  rewrite forallb_forall in K. specialize (K a Ha).
  rewrite forallb_forall in K. specialize (K b Hb).
  rewrite Hab in K. exact K.
Qed.

Lemma composite_check_spec (A B C : list float) :
  composite_check A B C = true ->
  forall a b c d a' b' c' d',
    In a A -> In b B -> In c B -> In d C ->
    In a' A -> In b' B -> In c' B -> In d' C ->
    (a <=? a') = true -> (b <=? b') = true ->
    (c <=? c') = true -> (d <=? d') = true ->
    (round1 (a + b + c + d) <=? round1 (a' + b' + c' + d')) = true /\
    (0 <=? round1 (a' + b' + c' + d') - round1 (a + b + c + d)) = true.
Proof.
  unfold composite_check. cbv zeta. rewrite !andb_true_iff.
  intros [[[[M2 M3] M4] R] D] a b c d a' b' c' d'
         Ia Ib Ic Id Ia' Ib' Ic' Id' Ha Hb Hc Hd.
  pose proof (sums_In _ _ _ _ Ia Ib) as I2.
  pose proof (sums_In _ _ _ _ Ia' Ib') as I2'.
  pose proof (sums_In _ _ _ _ I2 Ic) as I3.
  pose proof (sums_In _ _ _ _ I2' Ic') as I3'.
  pose proof (sums_In _ _ _ _ I3 Id) as I4.
  pose proof (sums_In _ _ _ _ I3' Id') as I4'.
  pose proof (sum_monotone_spec _ _ M2 a a' b b' Ia Ia' Ib Ib' Ha Hb) as L2.
  pose proof (sum_monotone_spec _ _ M3 _ _ c c' I2 I2' Ic Ic' L2 Hc) as L3.
  pose proof (sum_monotone_spec _ _ M4 _ _ d d' I3 I3' Id Id' L3 Hd) as L4.
  pose proof (monotone_on_spec round1 _ R _ _ I4 I4' L4) as L.
  split; [exact L|].
  exact (differences_ok_spec _ D _ _
           (distinct_In _ _ (in_map round1 _ _ I4))
           (distinct_In _ _ (in_map round1 _ _ I4')) L).
Qed.

(** The composite of a projection point does not decrease when the four
    hazard values, scores of the data model, do not. *)
Lemma composite_monotone (f s h w f' s' h' w' : float) :
  is_score f -> is_score s -> is_score h -> is_score w ->
  is_score f' -> is_score s' -> is_score h' -> is_score w' ->
  (f <=? f') = true -> (s <=? s') = true ->
  (h <=? h') = true -> (w <=? w') = true ->
  (round1 (f * 0.35 + s * 0.25 + h * 0.25 + w * 0.15)
   <=? round1 (f' * 0.35 + s' * 0.25 + h' * 0.25 + w' * 0.15)) = true /\
  (0 <=? round1 (f' * 0.35 + s' * 0.25 + h' * 0.25 + w' * 0.15)
         - round1 (f * 0.35 + s * 0.25 + h * 0.25 + w * 0.15)) = true.
Proof.
  intros Sf Ss Sh Sw Sf' Ss' Sh' Sw' Hf Hs Hh Hw.
  destruct (products_monotone f f' Sf Sf' Hf) as (Pf & _ & _).
  destruct (products_monotone s s' Ss Ss' Hs) as (_ & Ps & _).
  destruct (products_monotone h h' Sh Sh' Hh) as (_ & Ph & _).
  destruct (products_monotone w w' Sw Sw' Hw) as (_ & _ & Pw).
  exact (composite_check_spec (products 0.35) (products 0.25)
           (products 0.15) ltac:(vm_compute; reflexivity)
           _ _ _ _ _ _ _ _
           (products_In 0.35 f Sf) (products_In 0.25 s Ss)
           (products_In 0.25 h Sh) (products_In 0.15 w Sw)
           (products_In 0.35 f' Sf') (products_In 0.25 s' Ss')
           (products_In 0.25 h' Sh') (products_In 0.15 w' Sw')
           Pf Ps Ph Pw).
Qed.

(** A score of the data model raised by the 20-year gain of a hazard and
    capped is a score of the data model, no smaller. *)
Lemma raised_score (s : float) :
  is_score s ->
  Forall (fun gain => is_score (Math_min 100 (s + gain)) /\
                      (s <=? Math_min 100 (s + gain)) = true)
         [25; 24; 27; 18].
Proof.
  intros H. apply is_score_In in H.
  assert (K : forallb (fun s =>
                forallb (fun gain =>
                  existsb (PrimFloat.Leibniz.eqb (Math_min 100 (s + gain)))
                          scores
                  && (s <=? Math_min 100 (s + gain))) [25; 24; 27; 18])
                scores = true)
    by (vm_compute; reflexivity).
  rewrite forallb_forall in K. specialize (K s H).
  rewrite forallb_forall in K. apply Forall_forall. intros gain Hg.
  specialize (K gain Hg). apply andb_true_iff in K. destruct K as [K1 K2].
  split; [|exact K2].
  apply existsb_exists in K1. destruct K1 as (y & Hy & Ey).
  apply FloatAxioms.Leibniz.eqb_spec in Ey. rewrite Ey.
  apply In_scores, Hy.
Qed.

(** X12: on the projections of the engine for a factor list whose scores
    are scores of the data model, the chart's initial score is the
    weighted sum of the four scores and its final score the weighted sum
    of the scores raised by 25 (flood), 27 (sea level), 24 (heat) and 18
    (water) points and capped at 100, both rounded to one decimal (the
    fallback 0 of an empty list is never met); the final score is never
    below the initial one, so that the risk delta shown is the decimal
    of a number that is not negative. *)
Theorem chart_scores_of_engine (fs : list ClimateFactorScore) (w : World) :
  Forall (fun f => is_score (score f)) fs ->
  let floodBase := scoreOf "Flood Probability" 50 fs in
  let heatBase := scoreOf "Heat Stress Index" 50 fs in
  let seaBase := scoreOf "Sea-Level Rise Exposure" 50 fs in
  let waterBase := scoreOf "Water Scarcity Projection" 50 fs in
  let ps := fst (generateProjections fs w) in
  initialScore ps =
    round1 (floodBase * 0.35 + seaBase * 0.25 + heatBase * 0.25
            + waterBase * 0.15) /\
  finalScore ps =
    round1 (Math_min 100 (floodBase + 25) * 0.35
            + Math_min 100 (seaBase + 27) * 0.25
            + Math_min 100 (heatBase + 24) * 0.25
            + Math_min 100 (waterBase + 18) * 0.15) /\
  (initialScore ps <=? finalScore ps) = true /\
  delta ps = toFixed (finalScore ps - initialScore ps) 1 /\
  (0 <=? finalScore ps - initialScore ps) = true.
Proof.
  intros Hfs. cbv zeta.
  destruct (chart_scores_closed fs w Hfs) as (Ei & Ef).
  cbv zeta in Ei, Ef. unfold delta.
  generalize dependent (initialScore (fst (generateProjections fs w))).
  intros i ->.
  generalize dependent (finalScore (fst (generateProjections fs w))).
  intros f ->.
  pose proof (scoreOf_is_score "Flood Probability" fs Hfs) as Sf.
  pose proof (scoreOf_is_score "Heat Stress Index" fs Hfs) as Sh.
  pose proof (scoreOf_is_score "Sea-Level Rise Exposure" fs Hfs) as Ss.
  pose proof (scoreOf_is_score "Water Scarcity Projection" fs Hfs) as Sw.
  generalize dependent (scoreOf "Flood Probability" 50 fs).
  generalize dependent (scoreOf "Heat Stress Index" 50 fs).
  generalize dependent (scoreOf "Sea-Level Rise Exposure" 50 fs).
  generalize dependent (scoreOf "Water Scarcity Projection" 50 fs).
  intros fw Sw fsea Ss fh Sh ff Sf.
  pose proof (raised_score ff Sf) as Rf.
  pose proof (raised_score fh Sh) as Rh.
  pose proof (raised_score fsea Ss) as Rs.
  pose proof (raised_score fw Sw) as Rw.
  rewrite Forall_forall in Rf, Rh, Rs, Rw.
  destruct (Rf 25) as [Sf' Lf]; [cbn; tauto|].
  destruct (Rh 24) as [Sh' Lh]; [cbn; tauto|].
  destruct (Rs 27) as [Ss' Ls]; [cbn; tauto|].
  destruct (Rw 18) as [Sw' Lw]; [cbn; tauto|].
  clear Rf Rh Rs Rw.
  destruct (composite_monotone ff fsea fh fw _ _ _ _ Sf Ss Sh Sw
              Sf' Ss' Sh' Sw' Lf Ls Lh Lw) as [M D].
  split; [reflexivity|]. split; [reflexivity|]. split; [exact M|].
  split; [reflexivity | exact D].
Qed.

Lemma chart_scores_of_engine_witness :
  initialScore fixture_projections = 79.5 /\
  finalScore fixture_projections = 95 /\
  (0 <=? finalScore fixture_projections - initialScore fixture_projections)
    = true.
Proof.
  destruct (chart_scores_of_engine fixture still fixture_scores)
    as (Hi & Hf & _ & _ & Hd).
  split; [exact Hi|]. split; [exact Hf | exact Hd].
Defined.
